(** * baofit: binned correlation data, covariance aggregation and loaders

    A shallow embedding of the parts of baofit that build, combine and prune
    binned correlation datasets:

    - [boss::twoStepSampling] and the copy in [src/baofit.cc];
    - [QuasarCorrelationData::transform] and [LyaData::transform];
    - the [LyaData] aggregator of [src/baofit.cc] ([add], [finalize],
      [reset], [prune], and the loading steps that produce a plate);
    - [boss::loadCosmolib] and [boss::loadFrench], and [loadCosmolib] and
      [LyaData::load] of [src/baofit.cc];
    - [QuasarCorrelationData::fixCovariance], [finalize] and the coordinate
      getters, and [ComovingCorrelationData];
    - the two loops that read a file line by line.

    Conventions.  A C++ [double] is a real number of [R]: the embedding
    states the arithmetic the code writes, not its rounding, except for the
    quotient whose floor [twoStepSampling] takes.  A C++ [int] is
    an integer of [Z]; offsets into vectors are naturals.  Signed overflow
    and out-of-range conversions are undefined in C++ and are not given a
    meaning here, except that the product of two [int]s wraps as it does on
    a two's-complement machine.  A failing [assert], a thrown
    [RuntimeError], the dereference of a null [shared_ptr] and an
    out-of-range vector access are the four ways an operation can fail to
    return; the one read that the code makes outside the elements of a
    vector on its regular path, [dll[i]] in [fixCovariance], returns what
    the memory holds there. *)

From Stdlib Require Import Reals Lra ZArith Lia String List Ascii.
From stdpp Require Import base option list gmap strings pretty.

Local Open Scope R_scope.

(** ** Failure *)

Inductive error : Type :=
  | RuntimeError (msg : string)   (* throw RuntimeError(msg) *)
  | AssertionFailure              (* assert(false) *)
  | NullPointer                   (* operator-> on an empty shared_ptr *)
  | OutOfBounds.                  (* v[k] with k outside v *)

Inductive result (A : Type) : Type :=
  | Ok (a : A)
  | Err (e : error).
Arguments Ok {A} a.
Arguments Err {A} e.

#[global] Instance result_ret : MRet result := fun A a => Ok a.
#[global] Instance result_bind : MBind result := fun A B f m =>
  match m with
  | Ok a => f a
  | Err e => Err e
  end.

Definition failed {A} (m : result A) : Prop := exists e, m = Err e.

(** [assert(b)]. *)
Definition assert (b : bool) : result unit :=
  if b then Ok tt else Err AssertionFailure.

(** [*p] and [p->] on a [boost::shared_ptr]. *)
Definition deref {A} (p : option A) : result A :=
  match p with
  | Some a => Ok a
  | None => Err NullPointer
  end.

(** [v[k]], read. *)
Definition at_ {A} (v : list A) (k : nat) : result A :=
  match v !! k with
  | Some a => Ok a
  | None => Err OutOfBounds
  end.

(** [v[k] = a]. *)
Definition put {A} (v : list A) (k : nat) (a : A) : result (list A) :=
  if decide (k < length v)%nat then Ok (<[k:=a]> v) else Err OutOfBounds.

(** [for (k in ks) body(k)], threading a state and stopping at the first
    failure. *)
Fixpoint for_each {K S : Type} (ks : list K) (body : K -> S -> result S)
    (s : S) : result S :=
  match ks with
  | [] => Ok s
  | k :: ks' =>
      match body k s with
      | Ok s' => for_each ks' body s'
      | Err e => Err e
      end
  end.

(** Comparisons of doubles, as decisions. *)
#[global] Instance Rlt_decision (x y : R) : Decision (x < y) := Rlt_dec x y.
#[global] Instance Rle_decision (x y : R) : Decision (x <= y) := Rle_dec x y.
#[global] Instance Rge_decision (x y : R) : Decision (x >= y) := Rge_dec x y.
#[global] Instance Rgt_decision (x y : R) : Decision (x > y) := Rgt_dec x y.
#[global] Instance Req_decision : EqDecision R := Req_dec_T.

(** ** C++ [int] and the quotient of doubles *)

(** The largest [int], and the value that a result outside the range of
    [int] wraps to on the two's-complement targets the code is built for.
    C++ itself leaves signed overflow undefined. *)
Definition int_max : Z := 2147483647.

Definition int_wrap (z : Z) : Z := ((z + 2 ^ 31) mod 2 ^ 32 - 2 ^ 31)%Z.

(** [a*b] on two [int]s. *)
Definition int_mul (a b : Z) : Z := int_wrap (a * b).

(** [x/y] on two doubles, as the machine rounds it. Elsewhere the
    arithmetic of doubles is stated as written; [twoStepSampling] takes the
    floor of a quotient, and the floor of the rounded quotient is not the
    floor of the exact one when rounding carries it across an integer
    ([0.5/0.1] is rounded to [5], although the double next to [0.1] is
    above [0.1]). *)
Class DoubleDivision : Type := {
  fdiv : R -> R -> R;
}.

(** Rounding keeps the sign of a quotient. *)
Class DoubleDivisionSign (D : DoubleDivision) : Prop := {
  fdiv_nonneg x y : 0 < x -> 0 < y -> 0 <= fdiv x y;
}.

(** ** Two-step sampling *)

(** The two loops of [twoStepSampling] push one sample per value of the
    counter [k]. *)
Definition push_samples (f : Z -> R) (first count : Z) (samplePoints : list R)
    : list R :=
  foldl (fun sp k => sp ++ [f k]) samplePoints (seqZ first count).

(** [int nUniform = std::floor(breakpoint/dlin)], for a quotient whose floor
    is an [int]; C++ gives the conversion of another double no meaning. *)
Definition twoStepSampling_body {D : DoubleDivision} (nBins : Z)
    (breakpoint dlog dlin : R) : list R :=
  let samplePoints := [] in
  (* first sample is at zero. *)
  let samplePoints := samplePoints ++ [0] in
  (* next samples are uniformly spaced up to the breakpoint. *)
  let nUniform := Int_part (fdiv breakpoint dlin) in
  let samplePoints :=
    push_samples (fun k => (IZR k - 0.5) * dlin) 1 nUniform samplePoints in
  (* remaining samples are logarithmically spaced. *)
  let ratio := ln ((breakpoint + dlog) / breakpoint) in
  let samplePoints :=
    push_samples (fun k => breakpoint * exp (ratio * (IZR k - 0.5)))
      1 (nBins - nUniform - 1) samplePoints in
  samplePoints.

Module boss_sampling.

(** [baofit/boss.cc], [twoStepSampling]: invalid parameters throw. *)
Definition twoStepSampling {D : DoubleDivision} (nBins : Z)
    (breakpoint dlog dlin : R) : result (list R) :=
  if negb (bool_decide (breakpoint > 0) && bool_decide (dlog > 0)
           && bool_decide (dlin > 0))
  then Err (RuntimeError "twoStepSampling: invalid parameters.")
  else Ok (twoStepSampling_body nBins breakpoint dlog dlin).

End boss_sampling.

Module main_sampling.

(** [src/baofit.cc], [twoStepSampling]: the same loops behind an
    [assert], with a tolerance [eps] that the body never reads. *)
Definition twoStepSampling {D : DoubleDivision} (nBins : Z)
    (breakpoint dlog dlin eps : R) : result (list R) :=
  _ ← assert (bool_decide (breakpoint > 0) && bool_decide (dlog > 0)
              && bool_decide (dlin > 0) && bool_decide (eps > 0));
  Ok (twoStepSampling_body nBins breakpoint dlog dlin).

End main_sampling.

(** ** Coordinate transform *)

(** [cosmo::AbsHomogeneousUniverse], the cosmology collaborator: the two
    distance functions the transform calls. *)
Class AbsHomogeneousUniverse : Type := {
  getLineOfSightComovingDistance : R -> R;
  getTransverseComovingScale : R -> R;
}.

(** [_arcminToRad = 4*std::atan(1)/(60.*180.)]. *)
Definition _arcminToRad : R := 4 * atan 1 / (60 * 180).

Section Transform.
Context {cosmology : AbsHomogeneousUniverse}.

(** [QuasarCorrelationData::transform(ll,sep,dsep,z,r,mu)]; the two
    outputs are returned as a pair. *)
Definition transform (ll sep dsep z : R) : R * R :=
  let ratio := exp (0.5 * ll) in
  let zp1 := z + 1 in
  let z1 := zp1 / ratio - 1 in
  let z2 := zp1 * ratio - 1 in
  let drLos :=
    getLineOfSightComovingDistance z2 - getLineOfSightComovingDistance z1 in
  let swgt := sep + (dsep * dsep / 12) / sep in
  let drPerp := getTransverseComovingScale z * (swgt * _arcminToRad) in
  let rsq := drLos * drLos + drPerp * drPerp in
  let r := sqrt rsq in
  let mu := Rabs drLos / r in
  (r, mu).

(** [LyaData::transform(ll,sep,z,ds,r3d,mu)]: the same body with the
    bin width passed last. *)
Definition LyaData_transform (ll sep z ds : R) : R * R :=
  let ratio := exp (0.5 * ll) in
  let zp1 := z + 1 in
  let z1 := zp1 / ratio - 1 in
  let z2 := zp1 * ratio - 1 in
  let drLos :=
    getLineOfSightComovingDistance z2 - getLineOfSightComovingDistance z1 in
  let swgt := sep + (ds * ds / 12) / sep in
  let drPerp := getTransverseComovingScale z * (swgt * _arcminToRad) in
  let rsq := drLos * drLos + drPerp * drPerp in
  let r3d := sqrt rsq in
  let mu := Rabs drLos / r3d in
  (r3d, mu).

End Transform.

(** ** The likely library: packed symmetric matrices

    [likely::CovarianceMatrix] and [likely::BinnedData] belong to the likely
    library, which baofit links against; its sources are not part of baofit.
    The definitions of this part follow the contracts the specification
    gives for the Symmetric Covariance Store and the Sparse Binned Dataset,
    and the packed layout that [src/baofit.cc] itself uses
    ([row+(col*(col+1))/2] with [row <= col]). *)

(** Position of element [(i,j)] of a symmetric matrix in BLAS upper-packed
    form, as [LyaData::getSymmetric] and [LyaData::addCovariance] compute
    it. *)
Definition symmetricIndex (i j : nat) : nat :=
  let '(row, col) := if decide (j <= i)%nat then (j, i) else (i, j) in
  (row + (col * (col + 1)) / 2)%nat.

Definition packedSize (n : nat) : nat := ((n * (n + 1)) / 2)%nat.

(** Element [(i,j)] of a packed matrix; zero outside the stored range. *)
Definition packedGet (m : list R) (i j : nat) : R :=
  default 0 (m !! symmetricIndex i j).

Definition Rsum (l : list R) : R := foldr Rplus 0 l.

(** BLAS [dspmv_] with [alpha = 1] and [beta = 0]: the product of a packed
    symmetric [n] by [n] matrix with a vector. *)
Definition symmetricMultiply (n : nat) (m : list R) (v : list R) : list R :=
  (fun i => Rsum ((fun j => packedGet m i j * default 0 (v !! j)) <$> seq 0 n))
    <$> seq 0 n.

(** The packed matrix whose element [(row,col)], [row <= col], is [f row col];
    columns are laid out one after the other, as the packed form has them. *)
Definition packedColumn (f : nat -> nat -> R) (col : nat) : list R :=
  (fun row => f row col) <$> seq 0 (S col).

Definition packedOf (n : nat) (f : nat -> nat -> R) : list R :=
  mjoin (packedColumn f <$> seq 0 n).

(** [a * b * a] for packed symmetric matrices (two [dsymm_] products). *)
Definition tripleProduct (n : nat) (a b : list R) : list R :=
  packedOf n (fun i j =>
    Rsum ((fun k =>
      Rsum ((fun l => packedGet a i k * packedGet b k l * packedGet a l j)
              <$> seq 0 n)) <$> seq 0 n)).

(** LAPACK's Cholesky factorisation followed by inversion ([dpptrf_] then
    [dpptri_], as [LyaData::invert] calls them) on a packed [n] by [n]
    matrix: [None] when LAPACK reports [info != 0], which it does for a
    matrix that is not positive definite. *)
Class Lapack : Type := {
  invert : nat -> list R -> option (list R);
}.

(** What an exact inversion guarantees: the result multiplies back to the
    identity, inverting it again gives the original, and it is packed like
    its argument. *)
Class LapackExact (L : Lapack) : Prop := {
  invert_left_inverse n m m' v :
    invert n m = Some m' -> length v = n ->
    symmetricMultiply n m' (symmetricMultiply n m v) = v;
  invert_involutive n m m' :
    invert n m = Some m' -> invert n m' = Some m;
  invert_length n m m' :
    invert n m = Some m' -> length m' = packedSize n;
}.

Module CovarianceMatrix.

(** Which representation holds the elements. A matrix that was only
    constructed has no element written yet: all of them read as zero. *)
Inductive elements : Type :=
  | Unset
  | Cov (m : list R)
  | ICov (m : list R).

#[projections(primitive)]
Record t : Type := mk {
  size : nat;
  elems : elements;
  compressed : bool;
}.

(** [new CovarianceMatrix(n)]. *)
Definition new (n : nat) : t :=
  {| size := n; elems := Unset; compressed := false |}.

Definition zeros (n : nat) : list R := replicate (packedSize n) 0.

Section Operations.
Context {L : Lapack}.

Definition inverted (n : nat) (m : list R) : result (list R) :=
  match invert n m with
  | Some m' => Ok m'
  | None => Err (RuntimeError "CovarianceMatrix: matrix is not positive definite.")
  end.

(** The covariance elements, inverting on demand. *)
Definition readsCov (c : t) : result (list R) :=
  match elems c with
  | Unset => Ok (zeros (size c))
  | Cov m => Ok m
  | ICov m => inverted (size c) m
  end.

(** The inverse-covariance elements, inverting on demand. *)
Definition readsICov (c : t) : result (list R) :=
  match elems c with
  | Unset => Ok (zeros (size c))
  | ICov m => Ok m
  | Cov m => inverted (size c) m
  end.

Definition checkIndices (c : t) (row col : nat) : result unit :=
  if decide (row < size c /\ col < size c)%nat then Ok tt
  else Err (RuntimeError "CovarianceMatrix: invalid row or column.").

Definition getCovariance (c : t) (row col : nat) : result R :=
  _ ← checkIndices c row col;
  m ← readsCov c;
  at_ m (symmetricIndex row col).

Definition getInverseCovariance (c : t) (row col : nat) : result R :=
  _ ← checkIndices c row col;
  m ← readsICov c;
  at_ m (symmetricIndex row col).

(** Writing one representation leaves it as the only one held, and
    re-expands a compressed store. *)
Definition setCovariance (c : t) (row col : nat) (value : R) : result t :=
  _ ← checkIndices c row col;
  m ← readsCov c;
  m' ← put m (symmetricIndex row col) value;
  Ok {| size := size c; elems := Cov m'; compressed := false |}.

Definition setInverseCovariance (c : t) (row col : nat) (value : R)
    : result t :=
  _ ← checkIndices c row col;
  m ← readsICov c;
  m' ← put m (symmetricIndex row col) value;
  Ok {| size := size c; elems := ICov m'; compressed := false |}.

Definition checkLength (c : t) (vec : list R) : result unit :=
  if decide (length vec = size c) then Ok tt
  else Err (RuntimeError "CovarianceMatrix: unexpected vector size.").

Definition multiplyByCovariance (c : t) (vec : list R) : result (list R) :=
  _ ← checkLength c vec;
  m ← readsCov c;
  Ok (symmetricMultiply (size c) m vec).

Definition multiplyByInverseCovariance (c : t) (vec : list R)
    : result (list R) :=
  _ ← checkLength c vec;
  m ← readsICov c;
  Ok (symmetricMultiply (size c) m vec).

(** [delta . Cinv . delta]. *)
Definition chiSquare (c : t) (delta : list R) : result R :=
  v ← multiplyByInverseCovariance c delta;
  Ok (Rsum (zip_with Rmult delta v)).

(** [this.icov += weight * other.icov], element by element. *)
Definition addInverse (this other : t) (weight : R) : result t :=
  if decide (size other = size this) then
    mine ← readsICov this;
    theirs ← readsICov other;
    Ok {| size := size this;
          elems := ICov (zip_with (fun a b => a + weight * b) mine theirs);
          compressed := false |}
  else Err (RuntimeError "CovarianceMatrix::addInverse: incompatible sizes.").

(** The inverse covariance becomes [tilde.icov * this.cov * tilde.icov],
    with [this.cov] the inverse of the accumulated [this.icov]. *)
Definition replaceWithTripleProduct (this tilde : t) : result t :=
  if decide (size tilde = size this) then
    cov ← readsCov this;
    icovTilde ← readsICov tilde;
    Ok {| size := size this;
          elems := ICov (tripleProduct (size this) icovTilde cov);
          compressed := false |}
  else Err (RuntimeError "CovarianceMatrix::replaceWithTripleProduct: incompatible sizes.").

End Operations.

(** Dropping the zeros from storage changes no element that is read. *)
Definition compress (c : t) : t :=
  {| size := size c; elems := elems c; compressed := true |}.

Definition isCompressed (c : t) : bool := compressed c.

End CovarianceMatrix.

(** ** The likely library: binnings and binned data *)

(** [likely::AbsBinning], the interface of one axis. [getBinIndex] throws
    for a value outside the binning; the other three are read at bins that
    [getBinIndex] returned. *)
Record AbsBinning : Type := {
  getNBins : Z;
  getBinIndex : R -> result Z;
  getBinCenter : Z -> R;
  getBinWidth : Z -> R;
}.

Module BinnedData.

(** The bins with data are listed in the order they were filled
    ([begin()] to [end()]); the offset of a bin is its position there, and
    [bd_data] and the covariance store are addressed by offset. *)
#[projections(primitive)]
Record t : Type := mk {
  bd_axis1 : AbsBinning;
  bd_axis2 : AbsBinning;
  bd_axis3 : AbsBinning;
  bd_index : list Z;
  bd_data : list R;
  bd_weighted : bool;
  bd_covariance : option CovarianceMatrix.t;
  bd_sharedCovariance : bool;
  bd_finalized : bool;
}.

Definition new (axis1 axis2 axis3 : AbsBinning) : t :=
  {| bd_axis1 := axis1; bd_axis2 := axis2; bd_axis3 := axis3;
     bd_index := []; bd_data := []; bd_weighted := false;
     bd_covariance := None; bd_sharedCovariance := false;
     bd_finalized := false |}.

Definition getNBinsWithData (bd : t) : nat := length (bd_index bd).

Definition getNBinsTotal (bd : t) : Z :=
  (getNBins (bd_axis1 bd) * getNBins (bd_axis2 bd) * getNBins (bd_axis3 bd))%Z.

Definition hasData (bd : t) (index : Z) : bool :=
  bool_decide (index ∈ bd_index bd).

Definition getIndexAtOffset (bd : t) (offset : nat) : result Z :=
  match bd_index bd !! offset with
  | Some index => Ok index
  | None => Err (RuntimeError "BinnedData::getIndexAtOffset: invalid offset.")
  end.

(** [*(begin()+offset)] for an [int] offset read from a file. *)
Definition indexAt (bd : t) (offset : Z) : result Z :=
  if decide (0 <= offset)%Z then at_ (bd_index bd) (Z.to_nat offset)
  else Err OutOfBounds.

Definition getOffsetForIndex (bd : t) (index : Z) : result nat :=
  match list_find (fun i => i = index) (bd_index bd) with
  | Some (offset, _) => Ok offset
  | None => Err (RuntimeError "BinnedData::getOffsetForIndex: no data at index.")
  end.

(** [index = (i1*n2 + i2)*n3 + i3]. *)
Definition encode (bd : t) (i1 i2 i3 : Z) : Z :=
  ((i1 * getNBins (bd_axis2 bd) + i2) * getNBins (bd_axis3 bd) + i3)%Z.

Definition getIndex (bd : t) (values : list R) : result Z :=
  match values with
  | [v1; v2; v3] =>
      i1 ← getBinIndex (bd_axis1 bd) v1;
      i2 ← getBinIndex (bd_axis2 bd) v2;
      i3 ← getBinIndex (bd_axis3 bd) v3;
      Ok (encode bd i1 i2 i3)
  | _ => Err (RuntimeError "BinnedData::getIndex: invalid input values size.")
  end.

(** The bin index along each axis, [bin[0]], [bin[1]], [bin[2]]. *)
Definition getBinIndices (bd : t) (index : Z) : Z * Z * Z :=
  let n2 := getNBins (bd_axis2 bd) in
  let n3 := getNBins (bd_axis3 bd) in
  ((index `div` n3) `div` n2, (index `div` n3) `mod` n2, index `mod` n3)%Z.

Definition getBinCenters (bd : t) (index : Z) : list R :=
  let '(i1, i2, i3) := getBinIndices bd index in
  [getBinCenter (bd_axis1 bd) i1; getBinCenter (bd_axis2 bd) i2;
   getBinCenter (bd_axis3 bd) i3].

Definition getBinWidths (bd : t) (index : Z) : list R :=
  let '(i1, i2, i3) := getBinIndices bd index in
  [getBinWidth (bd_axis1 bd) i1; getBinWidth (bd_axis2 bd) i2;
   getBinWidth (bd_axis3 bd) i3].

(** Fails if the bin is already set. *)
Definition setData (bd : t) (index : Z) (value : R) (weighted : bool)
    : result t :=
  if hasData bd index
  then Err (RuntimeError "BinnedData::setData: bin already has data.")
  else Ok {| bd_axis1 := bd_axis1 bd; bd_axis2 := bd_axis2 bd;
             bd_axis3 := bd_axis3 bd;
             bd_index := bd_index bd ++ [index];
             bd_data := bd_data bd ++ [value];
             bd_weighted := weighted;
             bd_covariance := bd_covariance bd;
             bd_sharedCovariance := bd_sharedCovariance bd;
             bd_finalized := bd_finalized bd |}.

(** The store, sized to the bins with data; nothing is written in it
    until the first covariance element is set. *)
Definition store (bd : t) : CovarianceMatrix.t :=
  match bd_covariance bd with
  | Some c => c
  | None => CovarianceMatrix.new (getNBinsWithData bd)
  end.

Definition withStore (bd : t) (c : CovarianceMatrix.t) : t :=
  {| bd_axis1 := bd_axis1 bd; bd_axis2 := bd_axis2 bd;
     bd_axis3 := bd_axis3 bd;
     bd_index := bd_index bd; bd_data := bd_data bd;
     bd_weighted := bd_weighted bd;
     bd_covariance := Some c;
     bd_sharedCovariance := bd_sharedCovariance bd;
     bd_finalized := bd_finalized bd |}.

Definition isCovarianceModifiable (bd : t) : bool :=
  negb (bd_sharedCovariance bd).

(** A deep copy of the store: the dataset no longer shares it. *)
Definition cloneCovariance (bd : t) : t :=
  {| bd_axis1 := bd_axis1 bd; bd_axis2 := bd_axis2 bd;
     bd_axis3 := bd_axis3 bd;
     bd_index := bd_index bd; bd_data := bd_data bd;
     bd_weighted := bd_weighted bd;
     bd_covariance := bd_covariance bd;
     bd_sharedCovariance := false;
     bd_finalized := bd_finalized bd |}.

(** [a = b] on datasets: the copy shares the covariance of [b]. *)
Definition copy (bd : t) : t :=
  {| bd_axis1 := bd_axis1 bd; bd_axis2 := bd_axis2 bd;
     bd_axis3 := bd_axis3 bd;
     bd_index := bd_index bd; bd_data := bd_data bd;
     bd_weighted := bd_weighted bd;
     bd_covariance := bd_covariance bd;
     bd_sharedCovariance := true;
     bd_finalized := bd_finalized bd |}.

Definition compress (bd : t) : t :=
  match bd_covariance bd with
  | Some c => withStore bd (CovarianceMatrix.compress c)
  | None => bd
  end.

Section Operations.
Context {L : Lapack}.

Definition getCovariance (bd : t) (index1 index2 : Z) : result R :=
  row ← getOffsetForIndex bd index1;
  col ← getOffsetForIndex bd index2;
  CovarianceMatrix.getCovariance (store bd) row col.

Definition getInverseCovariance (bd : t) (index1 index2 : Z) : result R :=
  row ← getOffsetForIndex bd index1;
  col ← getOffsetForIndex bd index2;
  CovarianceMatrix.getInverseCovariance (store bd) row col.

(** Both bins must already have data. *)
Definition setCovariance (bd : t) (index1 index2 : Z) (value : R)
    : result t :=
  row ← getOffsetForIndex bd index1;
  col ← getOffsetForIndex bd index2;
  c ← CovarianceMatrix.setCovariance (store bd) row col value;
  Ok (withStore bd c).

Definition setInverseCovariance (bd : t) (index1 index2 : Z) (value : R)
    : result t :=
  row ← getOffsetForIndex bd index1;
  col ← getOffsetForIndex bd index2;
  c ← CovarianceMatrix.setInverseCovariance (store bd) row col value;
  Ok (withStore bd c).

(** A weighted data vector holds [Cinv.d]; reading a value first
    multiplies it back by the covariance. *)
Definition unweighted (bd : t) : result t :=
  if bd_weighted bd then
    d ← CovarianceMatrix.multiplyByCovariance (store bd) (bd_data bd);
    Ok {| bd_axis1 := bd_axis1 bd; bd_axis2 := bd_axis2 bd;
          bd_axis3 := bd_axis3 bd;
          bd_index := bd_index bd; bd_data := d;
          bd_weighted := false;
          bd_covariance := bd_covariance bd;
          bd_sharedCovariance := bd_sharedCovariance bd;
          bd_finalized := bd_finalized bd |}
  else Ok bd.

Definition getData (bd : t) (index : Z) : result (t * R) :=
  bd' ← unweighted bd;
  offset ← getOffsetForIndex bd' index;
  value ← at_ (bd_data bd') offset;
  Ok (bd', value).

(** [prune(keep)]: the bins of [keep] stay, in their order; the data
    and the covariance are compacted to them. *)
Definition keptOffsets (bd : t) (keep : gset Z) : list nat :=
  (fun p => p.1) <$>
    filter (fun p => p.2 ∈ keep) (imap (fun offset index => (offset, index)) (bd_index bd)).

Definition prunedStore (bd : t) (offsets : list nat)
    : result (option CovarianceMatrix.t) :=
  match bd_covariance bd with
  | None => Ok None
  | Some c =>
      cov ← CovarianceMatrix.readsCov c;
      Ok (Some {| CovarianceMatrix.size := length offsets;
                  CovarianceMatrix.elems :=
                    CovarianceMatrix.Cov
                      (packedOf (length offsets) (fun i j =>
                         packedGet cov (default O (offsets !! i))
                                       (default O (offsets !! j))));
                  CovarianceMatrix.compressed := false |})
  end.

Definition prune (bd : t) (keep : gset Z) : result t :=
  let offsets := keptOffsets bd keep in
  c ← prunedStore bd offsets;
  Ok {| bd_axis1 := bd_axis1 bd; bd_axis2 := bd_axis2 bd;
        bd_axis3 := bd_axis3 bd;
        bd_index := filter (fun index => index ∈ keep) (bd_index bd);
        bd_data := (fun o => default 0 (bd_data bd !! o)) <$> offsets;
        bd_weighted := bd_weighted bd;
        bd_covariance := c;
        bd_sharedCovariance := bd_sharedCovariance bd;
        bd_finalized := bd_finalized bd |}.

End Operations.

End BinnedData.

(** [BinnedData::operator+=], which [LyaData::add] applies to its
    [_binnedData] member on every call after the first. It may throw. *)
Class BinnedDataSum : Type := {
  plus_assign : BinnedData.t -> BinnedData.t -> result BinnedData.t;
}.

(** ** The correlation model *)

(** [baofit::AbsCorrelationModel], the model collaborator:
    [evaluate(r,mu,z,params)]. *)
Class AbsCorrelationModel : Type := {
  evaluate : R -> R -> R -> list R -> R;
}.

(** ** [LyaData] of [src/baofit.cc]

    The members that the modelled methods read or write, under their names.
    The cosmology is the collaborator of the enclosing section; the two
    [shared_ptr] members are options, empty when the pointer is null. *)

Module LyaData.

#[projections(primitive)]
Record t : Type := mk {
  _logLambdaBinning : AbsBinning;
  _separationBinning : AbsBinning;
  _redshiftBinning : AbsBinning;
  _data : list R;
  _r3d : list R;
  _mu : list R;
  _icovData : list R;
  _initialized : list bool;
  _hasCov : list bool;
  _index : list Z;
  _nsep : Z;
  _nz : Z;
  _nBinsTotal : Z;
  _dataFinalized : bool;
  _covarianceFinalized : bool;
  _compressed : bool;
  _covariance : option CovarianceMatrix.t;
  _covarianceTilde : option CovarianceMatrix.t;
  _binnedData : BinnedData.t;
}.

(** Assignment to one member; the others keep their values. *)
Definition set_data (v : list R) (d : t) : t :=
  mk (_logLambdaBinning d) (_separationBinning d) (_redshiftBinning d) v
     (_r3d d) (_mu d) (_icovData d) (_initialized d) (_hasCov d) (_index
     d) (_nsep d) (_nz d) (_nBinsTotal d) (_dataFinalized d)
     (_covarianceFinalized d) (_compressed d) (_covariance d)
     (_covarianceTilde d) (_binnedData d).

Definition set_r3d (v : list R) (d : t) : t :=
  mk (_logLambdaBinning d) (_separationBinning d) (_redshiftBinning d)
     (_data d) v (_mu d) (_icovData d) (_initialized d) (_hasCov d)
     (_index d) (_nsep d) (_nz d) (_nBinsTotal d) (_dataFinalized d)
     (_covarianceFinalized d) (_compressed d) (_covariance d)
     (_covarianceTilde d) (_binnedData d).

Definition set_mu (v : list R) (d : t) : t :=
  mk (_logLambdaBinning d) (_separationBinning d) (_redshiftBinning d)
     (_data d) (_r3d d) v (_icovData d) (_initialized d) (_hasCov d)
     (_index d) (_nsep d) (_nz d) (_nBinsTotal d) (_dataFinalized d)
     (_covarianceFinalized d) (_compressed d) (_covariance d)
     (_covarianceTilde d) (_binnedData d).

Definition set_icovData (v : list R) (d : t) : t :=
  mk (_logLambdaBinning d) (_separationBinning d) (_redshiftBinning d)
     (_data d) (_r3d d) (_mu d) v (_initialized d) (_hasCov d) (_index
     d) (_nsep d) (_nz d) (_nBinsTotal d) (_dataFinalized d)
     (_covarianceFinalized d) (_compressed d) (_covariance d)
     (_covarianceTilde d) (_binnedData d).

Definition set_initialized (v : list bool) (d : t) : t :=
  mk (_logLambdaBinning d) (_separationBinning d) (_redshiftBinning d)
     (_data d) (_r3d d) (_mu d) (_icovData d) v (_hasCov d) (_index d)
     (_nsep d) (_nz d) (_nBinsTotal d) (_dataFinalized d)
     (_covarianceFinalized d) (_compressed d) (_covariance d)
     (_covarianceTilde d) (_binnedData d).

Definition set_hasCov (v : list bool) (d : t) : t :=
  mk (_logLambdaBinning d) (_separationBinning d) (_redshiftBinning d)
     (_data d) (_r3d d) (_mu d) (_icovData d) (_initialized d) v (_index
     d) (_nsep d) (_nz d) (_nBinsTotal d) (_dataFinalized d)
     (_covarianceFinalized d) (_compressed d) (_covariance d)
     (_covarianceTilde d) (_binnedData d).

Definition set_index (v : list Z) (d : t) : t :=
  mk (_logLambdaBinning d) (_separationBinning d) (_redshiftBinning d)
     (_data d) (_r3d d) (_mu d) (_icovData d) (_initialized d) (_hasCov
     d) v (_nsep d) (_nz d) (_nBinsTotal d) (_dataFinalized d)
     (_covarianceFinalized d) (_compressed d) (_covariance d)
     (_covarianceTilde d) (_binnedData d).

Definition set_nBinsTotal (v : Z) (d : t) : t :=
  mk (_logLambdaBinning d) (_separationBinning d) (_redshiftBinning d)
     (_data d) (_r3d d) (_mu d) (_icovData d) (_initialized d) (_hasCov
     d) (_index d) (_nsep d) (_nz d) v (_dataFinalized d)
     (_covarianceFinalized d) (_compressed d) (_covariance d)
     (_covarianceTilde d) (_binnedData d).

Definition set_dataFinalized (v : bool) (d : t) : t :=
  mk (_logLambdaBinning d) (_separationBinning d) (_redshiftBinning d)
     (_data d) (_r3d d) (_mu d) (_icovData d) (_initialized d) (_hasCov
     d) (_index d) (_nsep d) (_nz d) (_nBinsTotal d) v
     (_covarianceFinalized d) (_compressed d) (_covariance d)
     (_covarianceTilde d) (_binnedData d).

Definition set_covarianceFinalized (v : bool) (d : t) : t :=
  mk (_logLambdaBinning d) (_separationBinning d) (_redshiftBinning d)
     (_data d) (_r3d d) (_mu d) (_icovData d) (_initialized d) (_hasCov
     d) (_index d) (_nsep d) (_nz d) (_nBinsTotal d) (_dataFinalized d)
     v (_compressed d) (_covariance d) (_covarianceTilde d) (_binnedData
     d).

Definition set_compressed (v : bool) (d : t) : t :=
  mk (_logLambdaBinning d) (_separationBinning d) (_redshiftBinning d)
     (_data d) (_r3d d) (_mu d) (_icovData d) (_initialized d) (_hasCov
     d) (_index d) (_nsep d) (_nz d) (_nBinsTotal d) (_dataFinalized d)
     (_covarianceFinalized d) v (_covariance d) (_covarianceTilde d)
     (_binnedData d).

Definition set_covariance (v : option CovarianceMatrix.t) (d : t) : t :=
  mk (_logLambdaBinning d) (_separationBinning d) (_redshiftBinning d)
     (_data d) (_r3d d) (_mu d) (_icovData d) (_initialized d) (_hasCov
     d) (_index d) (_nsep d) (_nz d) (_nBinsTotal d) (_dataFinalized d)
     (_covarianceFinalized d) (_compressed d) v (_covarianceTilde d)
     (_binnedData d).

Definition set_covarianceTilde (v : option CovarianceMatrix.t) (d : t) : t :=
  mk (_logLambdaBinning d) (_separationBinning d) (_redshiftBinning d)
     (_data d) (_r3d d) (_mu d) (_icovData d) (_initialized d) (_hasCov
     d) (_index d) (_nsep d) (_nz d) (_nBinsTotal d) (_dataFinalized d)
     (_covarianceFinalized d) (_compressed d) (_covariance d) v
     (_binnedData d).

Definition set_binnedData (v : BinnedData.t) (d : t) : t :=
  mk (_logLambdaBinning d) (_separationBinning d) (_redshiftBinning d)
     (_data d) (_r3d d) (_mu d) (_icovData d) (_initialized d) (_hasCov
     d) (_index d) (_nsep d) (_nz d) (_nBinsTotal d) (_dataFinalized d)
     (_covarianceFinalized d) (_compressed d) (_covariance d)
     (_covarianceTilde d) v.
(** [v[k]] for an [int] position. *)
Definition at_Z {A} (v : list A) (k : Z) : result A :=
  if decide (0 <= k)%Z then at_ v (Z.to_nat k) else Err OutOfBounds.

Definition put_Z {A} (v : list A) (k : Z) (a : A) : result (list A) :=
  if decide (0 <= k)%Z then put v (Z.to_nat k) a else Err OutOfBounds.

(** The constructor. *)
Definition new (logLambdaBinning separationBinning redshiftBinning : AbsBinning)
    : t :=
  let nsep := getNBins separationBinning in
  let nz := getNBins redshiftBinning in
  let nBinsTotal := (getNBins logLambdaBinning * nsep * nz)%Z in
  {| _logLambdaBinning := logLambdaBinning;
     _separationBinning := separationBinning;
     _redshiftBinning := redshiftBinning;
     _data := []; _r3d := []; _mu := []; _icovData := [];
     _initialized := replicate (Z.to_nat nBinsTotal) false;
     _hasCov := [];
     _index := [];
     _nsep := nsep; _nz := nz; _nBinsTotal := nBinsTotal;
     _dataFinalized := false; _covarianceFinalized := false;
     _compressed := false;
     _covariance := None; _covarianceTilde := None;
     _binnedData :=
       BinnedData.new logLambdaBinning separationBinning redshiftBinning |}.

Definition getNData (d : t) : nat := length (_data d).
Definition getSize (d : t) : Z := _nBinsTotal d.
Definition getRadius (d : t) (k : nat) : result R := at_ (_r3d d) k.
Definition getCosAngle (d : t) (k : nat) : result R := at_ (_mu d) k.

(** [std::count(_hasCov.begin(),_hasCov.end(),true)]. *)
Definition getNCov (d : t) : nat :=
  length (filter (fun seen => seen = true) (_hasCov d)).

Definition getIndex (d : t) (k : nat) : result Z := at_ (_index d) k.
Definition getData (d : t) (k : nat) : result R := at_ (_data d) k.

(** [_redshiftBinning->getBinCenter(_index[k] % _nz)]; the remainder of
    [int] division truncates, and is not defined for [_nz = 0]. *)
Definition getRedshift (d : t) (k : nat) : result R :=
  index ← at_ (_index d) k;
  Ok (getBinCenter (_redshiftBinning d) (Z.rem index (_nz d))).

Section Methods.
Context {cosmology : AbsHomogeneousUniverse} {L : Lapack} {Sum : BinnedDataSum}.

Definition addData (value logLambda separation redshift : R) (d : t)
    : result t :=
  (* Lookup which (ll,sep,z) bin we are in. *)
  logLambdaBin ← getBinIndex (_logLambdaBinning d) logLambda;
  separationBin ← getBinIndex (_separationBinning d) separation;
  redshiftBin ← getBinIndex (_redshiftBinning d) redshift;
  let index :=
    ((logLambdaBin * _nsep d + separationBin) * _nz d + redshiftBin)%Z in
  (* Check that input (ll,sep,z) values correspond to bin centers. *)
  _ ← assert (bool_decide
         (Rabs (logLambda - getBinCenter (_logLambdaBinning d) logLambdaBin) < 1e-6));
  _ ← assert (bool_decide
         (Rabs (separation - getBinCenter (_separationBinning d) separationBin) < 1e-6));
  _ ← assert (bool_decide
         (Rabs (redshift - getBinCenter (_redshiftBinning d) redshiftBin) < 1e-6));
  (* Check that we have not already filled this bin. *)
  filled ← at_Z (_initialized d) index;
  _ ← assert (negb filled);
  (* Remember this bin. *)
  let d := set_data (_data d ++ [value]) d in
  initialized ← put_Z (_initialized d) index true;
  let d := set_initialized initialized d in
  let d := set_index (_index d ++ [index]) d in
  index' ← BinnedData.getIndex (_binnedData d) [logLambda; separation; redshift];
  _ ← assert (bool_decide (index = index'));
  binnedData ← BinnedData.setData (_binnedData d) index value false;
  let d := set_binnedData binnedData d in
  (* Calculate and save model observables for this bin. *)
  let ds := getBinWidth (_separationBinning d) separationBin in
  let '(r3d, mu) := LyaData_transform logLambda separation redshift ds in
  let d := set_r3d (_r3d d ++ [r3d]) d in
  let d := set_mu (_mu d ++ [mu]) d in
  Ok d.

Definition finalizeData (d : t) : t :=
  let nData := getNData d in
  let nCov := ((nData * (nData + 1)) / 2)%nat in
  let d := set_hasCov (resize nCov false (_hasCov d)) d in
  let d := set_dataFinalized true d in
  set_covariance (Some (CovarianceMatrix.new nData)) d.

Definition addCovariance (i j : Z) (value : R) (cov_is_icov : bool) (d : t)
    : result t :=
  (* put into upper-diagonal form col >= row *)
  let '(row, col) := if decide (i >= j)%Z then (j, i) else (i, j) in
  _ ← assert (_dataFinalized d);
  _ ← assert (bool_decide (row >= 0)%Z && bool_decide (col >= 0)%Z
              && bool_decide (col < Z.of_nat (getNData d))%Z);
  let index := (row + (col * (col + 1)) `div` 2)%Z in
  seen ← at_Z (_hasCov d) index;
  _ ← assert (bool_decide (seen = false));
  ii ← BinnedData.getIndexAtOffset (_binnedData d) (Z.to_nat i);
  jj ← BinnedData.getIndexAtOffset (_binnedData d) (Z.to_nat j);
  covariance ← deref (_covariance d);
  d ← (if cov_is_icov then
         c ← CovarianceMatrix.setInverseCovariance covariance
               (Z.to_nat i) (Z.to_nat j) value;
         bd ← BinnedData.setInverseCovariance (_binnedData d) ii jj value;
         Ok (set_binnedData bd (set_covariance (Some c) d))
       else
         c ← CovarianceMatrix.setCovariance covariance
               (Z.to_nat i) (Z.to_nat j) value;
         bd ← BinnedData.setCovariance (_binnedData d) ii jj value;
         Ok (set_binnedData bd (set_covariance (Some c) d)));
  hasCov ← put_Z (_hasCov d) index true;
  Ok (set_hasCov hasCov d).

(** One turn of the loops of [finalizeCovariance] that look for zero
    values on the diagonal. *)
Definition fixZeroDiagonal (cov_is_icov : bool) (k : nat) (d : t)
    : result t :=
  covariance ← deref (_covariance d);
  if cov_is_icov then
    diag ← CovarianceMatrix.getInverseCovariance covariance k k;
    covariance ← (if decide (0 = diag)
                  then CovarianceMatrix.setInverseCovariance covariance k k 1e-30
                  else Ok covariance);
    let d := set_covariance (Some covariance) d in
    index ← BinnedData.getIndexAtOffset (_binnedData d) k;
    diag ← BinnedData.getInverseCovariance (_binnedData d) index index;
    bd ← (if decide (0 = diag)
          then BinnedData.setInverseCovariance (_binnedData d) index index 1e-30
          else Ok (_binnedData d));
    Ok (set_binnedData bd d)
  else
    diag ← CovarianceMatrix.getCovariance covariance k k;
    covariance ← (if decide (0 = diag)
                  then CovarianceMatrix.setCovariance covariance k k 1e40
                  else Ok covariance);
    let d := set_covariance (Some covariance) d in
    index ← BinnedData.getIndexAtOffset (_binnedData d) k;
    diag ← BinnedData.getCovariance (_binnedData d) index index;
    bd ← (if decide (0 = diag)
          then BinnedData.setCovariance (_binnedData d) index index 1e40
          else Ok (_binnedData d));
    Ok (set_binnedData bd d).

Definition finalizeCovariance (cov_is_icov : bool) (d : t) : result t :=
  _ ← assert (_dataFinalized d);
  let nData := getNData d in
  (* Check for zero values on the diagonal *)
  d ← for_each (seq 0 nData) (fixZeroDiagonal cov_is_icov) d;
  (* All done. *)
  let d := set_covarianceFinalized true d in
  let d := set_icovData (_data d) d in
  covariance ← deref (_covariance d);
  icovData ← CovarianceMatrix.multiplyByInverseCovariance covariance (_icovData d);
  Ok (set_icovData icovData d).

Definition reset (d : t) : t :=
  let d := set_covarianceFinalized false d in
  let d := set_dataFinalized false d in
  let d := set_data [] d in
  let d := set_compressed false d in
  let d := set_covariance None d in
  set_covarianceTilde None d.

(** A compressed object can only be added to another object. *)
Definition compress (d : t) : result t :=
  let d := set_compressed true d in
  covariance ← deref (_covariance d);
  Ok (set_covariance (Some (CovarianceMatrix.compress covariance)) d).

(** [_icovData[k] += repeat*other._icovData[k]]. *)
Definition addWeighted (repeat : Z) (other : list R) (k : nat)
    (icovData : list R) : result (list R) :=
  mine ← at_ icovData k;
  theirs ← at_ other k;
  put icovData k (mine + IZR repeat * theirs).

Definition add (other : t) (repeat : Z) (d : t) : result t :=
  _ ← assert (negb (_dataFinalized d) && negb (_covarianceFinalized d)
              && negb (_compressed d));
  _ ← assert (_dataFinalized other && _covarianceFinalized other);
  let nData := getNData other in
  d ← (if decide (0 = length (_data d))%nat then
         (* Allocate empty arrays if this is the first data added. *)
         let d := set_data (replicate nData 0) d in
         let d := set_icovData (replicate nData 0) d in
         (* Copy cached data. *)
         let d := set_nBinsTotal (_nBinsTotal other) d in
         let d := set_index (_index other) d in
         let d := set_r3d (_r3d other) d in
         let d := set_mu (_mu other) d in
         let d := set_covariance (Some (CovarianceMatrix.new nData)) d in
         let d := set_covarianceTilde (Some (CovarianceMatrix.new nData)) d in
         let d := set_binnedData (BinnedData.copy (_binnedData other)) d in
         Ok (set_binnedData (BinnedData.cloneCovariance (_binnedData d)) d)
       else
         _ ← assert (bool_decide (nData = getNData d));
         bd ← plus_assign (_binnedData d) (_binnedData other);
         Ok (set_binnedData bd d));
  icovData ← for_each (seq 0 nData) (addWeighted repeat (_icovData other))
               (_icovData d);
  let d := set_icovData icovData d in
  let nk := IZR repeat in
  let nk2 := IZR (int_mul repeat repeat) in
  covariance ← deref (_covariance d);
  otherCovariance ← deref (_covariance other);
  covariance ← CovarianceMatrix.addInverse covariance otherCovariance nk2;
  let d := set_covariance (Some covariance) d in
  covarianceTilde ← deref (_covarianceTilde d);
  covarianceTilde ← CovarianceMatrix.addInverse covarianceTilde otherCovariance nk;
  Ok (set_covarianceTilde (Some covarianceTilde) d).

(** One turn of the loop of [prune]. *)
Definition pruneStep (rmin rmax llmin : R) (d : t) (offset : nat)
    (keep : gset Z) : result (gset Z) :=
  index ← BinnedData.getIndexAtOffset (_binnedData d) offset;
  let binCenters := BinnedData.getBinCenters (_binnedData d) index in
  radius ← getRadius d offset;
  ll ← at_ binCenters 0;
  if bool_decide (radius >= rmin) && bool_decide (radius < rmax)
     && bool_decide (ll >= llmin)
  then Ok ({[index]} ∪ keep)
  else Ok keep.

Definition pruneKeep (rmin rmax llmin : R) (d : t) : result (gset Z) :=
  for_each (seq 0 (BinnedData.getNBinsWithData (_binnedData d)))
    (pruneStep rmin rmax llmin d) ∅.

Definition prune (rmin rmax llmin : R) (d : t) : result t :=
  keep ← pruneKeep rmin rmax llmin d;
  bd ← BinnedData.prune (_binnedData d) keep;
  Ok (set_binnedData bd d).

(** Use fixCovariance to calculate the correct covariance for a
    bootstrap sample with repetitions. *)
Definition finalize (fixCovariance : bool) (d : t) : result t :=
  _ ← assert (negb (_dataFinalized d) && negb (_covarianceFinalized d)
              && negb (_compressed d));
  let d := set_data (_icovData d) d in
  covarianceTilde ← deref (_covarianceTilde d);
  data ← CovarianceMatrix.multiplyByCovariance covarianceTilde (_data d);
  let d := set_data data d in
  (* Do we want to get the covariance right? *)
  d ← (if fixCovariance then
         covariance ← deref (_covariance d);
         covariance ← CovarianceMatrix.replaceWithTripleProduct
                        covariance covarianceTilde;
         Ok (set_covariance (Some covariance) d)
       else
         Ok (set_covariance (_covarianceTilde d) d));
  (* Delete temporary storage *)
  let d := set_covarianceTilde None d in
  (* All done. *)
  let d := set_covarianceFinalized true d in
  Ok (set_dataFinalized true d).

Definition getVariance (d : t) (k : nat) : result R :=
  covariance ← deref (_covariance d);
  CovarianceMatrix.getCovariance covariance k k.

(** Returns element [i,j] of a symmetric matrix stored in BLAS
    upper-diagonal form. *)
Definition getSymmetric (d : t) (matrix : list R) (i j : Z) : result R :=
  (* put into upper-diagonal form col >= row *)
  let '(row, col) := if decide (i >= j)%Z then (j, i) else (i, j) in
  _ ← assert (bool_decide (row >= 0)%Z && bool_decide (col >= 0)%Z
              && bool_decide (col < Z.of_nat (getNData d))%Z);
  let index := (row + (col * (col + 1)) `div` 2)%Z in
  at_Z matrix index.

Definition calculateChiSquare (d : t) (delta : list R) : result R :=
  _ ← assert (bool_decide (length delta = getNData d));
  covariance ← deref (_covariance d);
  CovarianceMatrix.chiSquare covariance delta.

(** One turn of the loop of [applyTheoryOffsets]. *)
Definition applyOffset (model : AbsCorrelationModel) (pfit pnew : list R)
    (k : nat) (d : t) : result t :=
  r ← getRadius d k;
  mu ← getCosAngle d k;
  z ← getRedshift d k;
  let offset := evaluate r mu z pnew - evaluate r mu z pfit in
  value ← at_ (_data d) k;
  data ← put (_data d) k (value + offset);
  Ok (set_data data d).

(** [applyTheoryOffsets(model,pfit,pnew)]; the model is a pointer that the
    function asserts. *)
Definition applyTheoryOffsets (model : option AbsCorrelationModel)
    (pfit pnew : list R) (d : t) : result t :=
  _ ← assert (bool_decide (is_Some model));
  model ← deref model;
  let nData := getNData d in
  d ← for_each (seq 0 nData) (applyOffset model pfit pnew) d;
  covariance ← deref (_covariance d);
  let compressed := CovarianceMatrix.isCompressed covariance in
  let d := set_icovData (_data d) d in
  icovData ← CovarianceMatrix.multiplyByInverseCovariance covariance
               (_icovData d);
  let d := set_icovData icovData d in
  if compressed
  then Ok (set_covariance (Some (CovarianceMatrix.compress covariance)) d)
  else Ok d.

End Methods.

End LyaData.

(** ** Loading the cosmolib format *)

(** The files a loader can open: each name that opens gives its lines. *)
Definition files : Type := gmap string (list string).

(** [std::ifstream in(name); if(!in.good()) throw RuntimeError(msg)]. *)
Definition openFile (fs : files) (name msg : string) : result (list string) :=
  match fs !! name with
  | Some content => Ok content
  | None => Err (RuntimeError msg)
  end.

(** [boost::lexical_cast<std::string>(lines)]. *)
Definition lexical_cast (lines : Z) : string := pretty lines.

(** The two line grammars that [boss::loadCosmolib] hands to
    [qi::phrase_parse]: a parameters line gives [data], [cinvData] and the
    three bin coordinates, a covariance line gives two offsets and a value;
    [None] when [phrase_parse] returns false. *)
Class LineGrammar : Type := {
  parseParams : string -> option (R * R * list R);
  parseCov : string -> option (Z * Z * R);
}.

(** The regular expressions of [loadCosmolib] in [src/baofit.cc], with the
    conversion of their groups by [getDouble] and [getInt]; the first
    argument is the [fast] option, which replaces the numeric patterns by
    groups of non-blank characters. *)
Class LinePatterns : Type := {
  matchParams : bool -> string -> option (list R);
  matchCov : bool -> string -> option (Z * Z * R);
}.

(** The part both loaders share, statement for statement: storing one
    covariance entry, and the loop that looks for zeros on the diagonal. *)
Section CovarianceEntries.
Context {L : Lapack}.

(** Add this covariance to our dataset. *)
Definition addCovarianceEntry (icov : bool) (offset1 offset2 : Z) (value : R)
    (binnedData : BinnedData.t) : result BinnedData.t :=
  let value := if icov then - value else value in
  index1 ← BinnedData.indexAt binnedData offset1;
  index2 ← BinnedData.indexAt binnedData offset2;
  if icov
  then BinnedData.setInverseCovariance binnedData index1 index2 value
  else BinnedData.setCovariance binnedData index1 index2 value.

(** One turn of the loop over [begin()..end()]. *)
Definition checkZeroDiagonal (icov : bool) (index : Z)
    (binnedData : BinnedData.t) : result BinnedData.t :=
  if icov then
    diag ← BinnedData.getInverseCovariance binnedData index index;
    if decide (0 = diag)
    then BinnedData.setInverseCovariance binnedData index index 1e-30
    else Ok binnedData
  else
    diag ← BinnedData.getCovariance binnedData index index;
    if decide (0 = diag)
    then BinnedData.setCovariance binnedData index index 1e40
    else Ok binnedData.

(** Check for zero values on the diagonal. *)
Definition checkZeroDiagonals (icov : bool) (binnedData : BinnedData.t)
    : result BinnedData.t :=
  for_each (BinnedData.bd_index binnedData) (checkZeroDiagonal icov) binnedData.

End CovarianceEntries.

(** ** The French format *)

Module StdString.

(** [int pos = s.rfind(ch,-1)]: the position of the last [ch] in [s], and
    [-1], which is [npos] taken as an [int] on the two's-complement targets
    the code is built for, when there is none. *)
Fixpoint rfind (ch : ascii) (s : string) : Z :=
  match s with
  | EmptyString => (-1)%Z
  | String c rest =>
      let found := rfind ch rest in
      if decide (0 <= found)%Z then (found + 1)%Z
      else if decide (c = ch) then 0%Z else (-1)%Z
  end.

(** [s.insert(pos,t)], which throws [std::out_of_range] for a position
    beyond the end of [s]. *)
Fixpoint insert (pos : nat) (t s : string) : result string :=
  match pos with
  | O => Ok (t +:+ s)
  | Datatypes.S pos =>
      match s with
      | EmptyString => Err OutOfBounds
      | String c rest => s' ← insert pos t rest; Ok (String c s')
      end
  end.

End StdString.

(** The line grammar of the parameter file of [boss::loadFrench]: three
    doubles, [rval], [mono] and [quad]. *)
Class FrenchGrammar : Type := {
  parseFrench : string -> option (R * R * R);
}.

Module boss.

Section Loader.
Context {L : Lapack} {G : LineGrammar}.

(** [prototype->clone(true)]: the binning only. *)
Definition clonePrototype (prototype : BinnedData.t) : BinnedData.t :=
  BinnedData.new (BinnedData.bd_axis1 prototype)
    (BinnedData.bd_axis2 prototype) (BinnedData.bd_axis3 prototype).

(** The body of the loop over the lines of the parameter file. *)
Definition paramsLine (paramsName : string) (weighted : bool) (line : string)
    (state : Z * BinnedData.t) : result (Z * BinnedData.t) :=
  let '(lines, binnedData) := state in
  let lines := (lines + 1)%Z in
  match parseParams line with
  | None =>
      Err (RuntimeError ("loadCosmolib: error reading line " +:+
                         lexical_cast lines +:+ " of " +:+ paramsName))
  | Some (data, cinvData, bin) =>
      index ← BinnedData.getIndex binnedData bin;
      binnedData ← BinnedData.setData binnedData index
                     (if weighted then cinvData else data) weighted;
      Ok (lines, binnedData)
  end.

(** The body of the loop over the lines of the covariance file. The
    message of a malformed line names [paramsName], as the source
    does. *)
Definition covLine (paramsName : string) (icov : bool) (line : string)
    (state : Z * BinnedData.t) : result (Z * BinnedData.t) :=
  let '(lines, binnedData) := state in
  let lines := (lines + 1)%Z in
  match parseCov line with
  | None =>
      Err (RuntimeError ("loadCosmolib: error reading line " +:+
                         lexical_cast lines +:+ " of " +:+ paramsName))
  | Some (offset1, offset2, value) =>
      binnedData ← addCovarianceEntry icov offset1 offset2 value binnedData;
      Ok (lines, binnedData)
  end.

(** [loadCosmolib(dataName,prototype,verbose,icov,weighted,checkPosDef)].
    The messages printed when [verbose] is set are not part of the
    result. With [checkPosDef] the source reads [getCovariance(0,0)] to
    trigger an inversion and catches what it throws: the dataset it
    returns is the same either way. *)
Definition loadCosmolib (fs : files) (dataName : string)
    (prototype : BinnedData.t) (verbose icov weighted checkPosDef : bool)
    : result BinnedData.t :=
  (* Create the new AbsCorrelationData that we will fill. *)
  let binnedData := clonePrototype prototype in
  (* Loop over lines in the parameter file. *)
  let paramsName := dataName +:+ ".params" in
  paramsIn ← openFile fs paramsName ("loadCosmolib: Unable to open " +:+ paramsName);
  '(_, binnedData) ← for_each paramsIn (paramsLine paramsName weighted)
                       (0%Z, binnedData);
  (* Loop over lines in the covariance file. *)
  let covName := dataName +:+ (if icov then ".icov" else ".cov") in
  covIn ← openFile fs covName ("Unable to open " +:+ covName);
  '(_, binnedData) ← for_each covIn (covLine paramsName icov)
                       (0%Z, binnedData);
  (* Check for zero values on the diagonal *)
  binnedData ← checkZeroDiagonals icov binnedData;
  (* Compress our binned data. *)
  Ok (BinnedData.compress binnedData).

Context {F : FrenchGrammar}.

(** [covName = paramsName; pos = covName.rfind('/',-1);
    covName.insert(pos+1,"cov_")]. *)
Definition frenchCovName (paramsName : string) : result string :=
  let pos := StdString.rfind "/"%char paramsName in
  if decide (0 <= pos + 1)%Z
  then StdString.insert (Z.to_nat (pos + 1)) "cov_" paramsName
  else Err OutOfBounds.

(** The body of the loop over the lines of the parameter file; [quad] is
    read and not used. *)
Definition frenchParamsLine (paramsName : string) (zref : R) (line : string)
    (state : Z * BinnedData.t) : result (Z * BinnedData.t) :=
  let '(lines, binnedData) := state in
  let lines := (lines + 1)%Z in
  match parseFrench line with
  | None =>
      Err (RuntimeError ("loadFrench: error reading line " +:+
                         lexical_cast lines +:+ " of " +:+ paramsName))
  | Some (rval, mono, quad) =>
      monoIndex ← BinnedData.getIndex binnedData [rval; 0; zref];
      binnedData ← BinnedData.setData binnedData monoIndex mono false;
      Ok (lines, binnedData)
  end.

(** The body of the loop over the lines of the covariance file. *)
Definition frenchCovLine (covName : string) (line : string)
    (state : Z * BinnedData.t) : result (Z * BinnedData.t) :=
  let '(lines, binnedData) := state in
  let lines := (lines + 1)%Z in
  match parseCov line with
  | None =>
      Err (RuntimeError ("loadFrench: error reading line " +:+
                         lexical_cast lines +:+ " of " +:+ covName))
  | Some (index1, index2, cov) =>
      if bool_decide (index1 <= index2)%Z && bool_decide (index2 < 50)%Z
      then
        binnedData ← BinnedData.setCovariance binnedData index1 index2 cov;
        Ok (lines, binnedData)
      else Ok (lines, binnedData)
  end.

(** [loadFrench(dataName,prototype,verbose,checkPosDef)]. With
    [checkPosDef] the source reads [getInverseCovariance(0,0)] to trigger
    an inversion and catches what it throws: the dataset it returns is the
    same either way. *)
Definition loadFrench (fs : files) (dataName : string)
    (prototype : BinnedData.t) (verbose checkPosDef : bool)
    : result BinnedData.t :=
  (* Create the new AbsCorrelationData that we will fill. *)
  let binnedData := clonePrototype prototype in
  (* Lookup our reference redshift. *)
  let zref := getBinCenter (BinnedData.bd_axis3 prototype) 0 in
  (* Loop over lines in the parameter file. *)
  let paramsName := dataName +:+ ".txt" in
  paramsIn ← openFile fs paramsName ("loadFrench: Unable to open " +:+ paramsName);
  '(_, binnedData) ← for_each paramsIn (frenchParamsLine paramsName zref)
                       (0%Z, binnedData);
  (* Loop over lines in the covariance file. *)
  covName ← frenchCovName paramsName;
  covIn ← openFile fs covName ("Unable to open " +:+ covName);
  '(_, binnedData) ← for_each covIn (frenchCovLine covName) (0%Z, binnedData);
  Ok binnedData.

End Loader.

End boss.

Module main.

Section Loader.
Context {L : Lapack} {P : LinePatterns}.

Definition paramsLine (fast : bool) (line : string)
    (state : Z * BinnedData.t) : result (Z * BinnedData.t) :=
  let '(lineNumber, binnedData) := state in
  let lineNumber := (lineNumber + 1)%Z in
  match matchParams fast line with
  | Some [value; _; logLambda; separation; redshift] =>
      (* Add this bin to our dataset. *)
      index ← BinnedData.getIndex binnedData [logLambda; separation; redshift];
      binnedData ← BinnedData.setData binnedData index value false;
      Ok (lineNumber, binnedData)
  | _ =>
      Err (RuntimeError ("Badly formatted params line " +:+
                         lexical_cast lineNumber +:+ ": '" +:+ line +:+ "'"))
  end.

Definition covLine (fast icov : bool) (line : string)
    (state : Z * BinnedData.t) : result (Z * BinnedData.t) :=
  let '(lineNumber, binnedData) := state in
  let lineNumber := (lineNumber + 1)%Z in
  match matchCov fast line with
  | None =>
      Err (RuntimeError ("Badly formatted cov line " +:+
                         lexical_cast lineNumber +:+ ": '" +:+ line +:+ "'"))
  | Some (offset1, offset2, value) =>
      binnedData ← addCovarianceEntry icov offset1 offset2 value binnedData;
      Ok (lineNumber, binnedData)
  end.

(** [loadCosmolib(dataName,llBins,sepBins,zBins,cosmology,verbose,icov,fast)]
    of [src/baofit.cc]. *)
Definition loadCosmolib (fs : files) (dataName : string)
    (llBins sepBins zBins : AbsBinning) (verbose icov fast : bool)
    : result BinnedData.t :=
  (* Create the new BinnedData. *)
  let binnedData := BinnedData.new llBins sepBins zBins in
  (* Loop over lines in the parameter file. *)
  let paramsName := dataName +:+ ".params" in
  paramsIn ← openFile fs paramsName ("Unable to open " +:+ paramsName);
  '(_, binnedData) ← for_each paramsIn (paramsLine fast) (0%Z, binnedData);
  (* Loop over lines in the covariance file. *)
  let covName := dataName +:+ (if icov then ".icov" else ".cov") in
  covIn ← openFile fs covName ("Unable to open " +:+ covName);
  '(_, binnedData) ← for_each covIn (covLine fast icov) (0%Z, binnedData);
  (* Check for zero values on the diagonal *)
  checkZeroDiagonals icov binnedData.

End Loader.

End main.

(** ** [LyaData::load] of [src/baofit.cc] *)

Module LyaDataLoad.
Import LyaData.
Section Load.
Context {cosmology : AbsHomogeneousUniverse} {L : Lapack} {Sum : BinnedDataSum}
  {P : LinePatterns}.

(** The body of the loop of [load] over the lines of the parameter file.
    The second token might be non-zero, in which case it is Cinv*d from
    the quadratic estimator, but it is ignored. *)
Definition loadParamsLine (fast : bool) (line : string) (state : Z * t)
    : result (Z * t) :=
  let '(lineNumber, d) := state in
  let lineNumber := (lineNumber + 1)%Z in
  match matchParams fast line with
  | Some [value; _; logLambda; separation; redshift] =>
      (* Add this bin to our dataset. *)
      d ← addData value logLambda separation redshift d;
      Ok (lineNumber, d)
  | _ =>
      Err (RuntimeError ("Badly formatted params line " +:+
                         lexical_cast lineNumber +:+ ": '" +:+ line +:+ "'"))
  end.

(** The body of the loop of [load] over the lines of the covariance
    file. *)
Definition loadCovLine (fast icov : bool) (line : string) (state : Z * t)
    : result (Z * t) :=
  let '(lineNumber, d) := state in
  let lineNumber := (lineNumber + 1)%Z in
  match matchCov fast line with
  | None =>
      Err (RuntimeError ("Badly formatted cov line " +:+
                         lexical_cast lineNumber +:+ ": '" +:+ line +:+ "'"))
  | Some (index1, index2, value) =>
      (* Add this covariance to our dataset. *)
      let value := if icov then - value else value in
      d ← addCovariance index1 index2 value icov d;
      Ok (lineNumber, d)
  end.

(** [load(dataName,verbose,icov,fast)]. The messages printed when
    [verbose] is set are not part of the result. *)
Definition load (fs : files) (dataName : string) (verbose icov fast : bool)
    (d : t) : result t :=
  (* Loop over lines in the parameter file. *)
  let paramsName := dataName +:+ ".params" in
  paramsIn ← openFile fs paramsName ("Unable to open " +:+ paramsName);
  '(_, d) ← for_each paramsIn (loadParamsLine fast) (0%Z, d);
  let d := finalizeData d in
  (* Loop over lines in the covariance file. *)
  let covName := dataName +:+ (if icov then ".icov" else ".cov") in
  covIn ← openFile fs covName ("Unable to open " +:+ covName);
  '(_, d) ← for_each covIn (loadCovLine fast icov) (0%Z, d);
  finalizeCovariance icov d.

End Load.
End LyaDataLoad.

(** ** [QuasarCorrelationData] *)

(** What the memory holds where an unchecked [v[i]] reads and [v] has no
    element: [fixCovariance] reserves its vector [dll], pushes one value per
    bin it goes through, and reads it at global indices, which need not be
    positions that were pushed. C++ does not define what such a read
    finds; the call goes on with it. *)
Class RawMemory : Type := {
  uninitialized : Z -> R;
}.

(** [v[i]] on a [std::vector<double>], unchecked. *)
Definition unchecked {M : RawMemory} (v : list R) (i : Z) : R :=
  if decide (0 <= i)%Z then default (uninitialized i) (v !! Z.to_nat i)
  else uninitialized i.

Module QuasarCorrelationData.

(** [base] is the [likely::BinnedData] that the class derives from through
    [AbsCorrelationData]; the other members are those the class declares.
    The [mutable] members are the cache that [_setIndex] fills. *)
#[projections(primitive)]
Record t : Type := mk {
  base : BinnedData.t;
  _llmin : R;
  _fixCov : bool;
  _rLookup : list R;
  _muLookup : list R;
  _zLookup : list R;
  _lastIndex : Z;
  _binCenter : list R;
  _binWidth : list R;
  _rLast : R;
  _muLast : R;
  _zLast : R;
}.

Definition set_base (v : BinnedData.t) (d : t) : t :=
  mk v (_llmin d) (_fixCov d) (_rLookup d) (_muLookup d) (_zLookup d)
     (_lastIndex d) (_binCenter d) (_binWidth d) (_rLast d) (_muLast d)
     (_zLast d).

Definition set_lookups (r mu z : list R) (d : t) : t :=
  mk (base d) (_llmin d) (_fixCov d) r mu z
     (_lastIndex d) (_binCenter d) (_binWidth d) (_rLast d) (_muLast d)
     (_zLast d).

Definition set_binCenter (v : list R) (d : t) : t :=
  mk (base d) (_llmin d) (_fixCov d) (_rLookup d) (_muLookup d) (_zLookup d)
     (_lastIndex d) v (_binWidth d) (_rLast d) (_muLast d) (_zLast d).

Definition set_last (index : Z) (binCenter binWidth : list R) (r mu z : R)
    (d : t) : t :=
  mk (base d) (_llmin d) (_fixCov d) (_rLookup d) (_muLookup d) (_zLookup d)
     index binCenter binWidth r mu z.

(** The constructor, with [_initialize(llmin,fixCov,cosmology)]. *)
Definition new (axis1 axis2 axis3 : AbsBinning) (llmin : R) (fixCov : bool) : t :=
  {| base := BinnedData.new axis1 axis2 axis3;
     _llmin := llmin; _fixCov := fixCov;
     _rLookup := []; _muLookup := []; _zLookup := [];
     _lastIndex := (-1)%Z; _binCenter := []; _binWidth := [];
     _rLast := 0; _muLast := 0; _zLast := 0 |}.

Definition isFinalized (d : t) : bool := BinnedData.bd_finalized (base d).

(** This produces contribution to the 1D xi from a power spectrum bin
    between kmin and kmax. *)
Definition _pkmarg (kmin kmax l1 l2 : R) : R :=
  let f1 := if decide (l1 = 0.0) then 1.0
            else (sin (kmax * l1) - sin (kmin * l1)) / l1 in
  let f2 := if decide (l2 = 0.0) then 1.0
            else (sin (kmax * l2) - sin (kmin * l2)) / l2 in
  f1 * f2.

(** [AbsCorrelationData::_applyFinalCuts(keep)] is defined in
    [AbsCorrelationData.cc]; [finalize] starts from the set it fills. *)
Class FinalCuts : Type := {
  _applyFinalCuts : t -> result (gset Z);
}.

Section Methods.
Context {cosmology : AbsHomogeneousUniverse} {L : Lapack} {M : RawMemory}.

(** The inner loop of [fixCovariance], one turn: [i2] against the bin
    [i1] of the outer loop, whose indices along the sep and z axes are
    [sepIndex] and [zIndex]. *)
Definition fixCovariancePair (k1 k2 c : R) (dll : list R)
    (i1 sepIndex zIndex : Z) (i2 : Z) (bd : BinnedData.t)
    : result BinnedData.t :=
  (* Check that this bin has the same sep,z indices *)
  let bin := BinnedData.getBinIndices bd i2 in
  if decide (bin.1.2 ≠ sepIndex \/ bin.2 ≠ zIndex) then Ok bd
  else
    C ← BinnedData.getCovariance bd i1 i2;
    let l1 := unchecked dll i1 in
    let l2 := unchecked dll i2 in
    let C := C + c * (1.0 + _pkmarg 0.0 k1 l1 l2 + _pkmarg k1 k2 l1 l2) in
    BinnedData.setCovariance bd i1 i2 C.

(** The outer loop, one turn: the bin at position [offset1] of
    [begin()..end()]. The state is the dataset and the vector [dll]. *)
Definition fixCovarianceBin (k1 k2 c : R) (indices : list Z)
    (p : nat * Z) (state : BinnedData.t * list R)
    : result (BinnedData.t * list R) :=
  let '(offset1, i1) := p in
  let '(bd, dll) := state in
  (* Remember the indices of this 3D bin along our sep,z axes. *)
  let bin := BinnedData.getBinIndices bd i1 in
  let sepIndex := bin.1.2 in
  let zIndex := bin.2 in
  (* Calculate and save the value of ll at the center of this bin. *)
  let ll := getBinCenter (BinnedData.bd_axis1 bd) bin.1.1 in
  let dll := dll ++ [ll] in
  (* Loop over unique pairs (iter1,iter2) with iter2 <= iter1. *)
  bd ← for_each (take (S offset1) indices)
         (fixCovariancePair k1 k2 c dll i1 sepIndex zIndex) bd;
  Ok (bd, dll).

Definition fixCovariance (k1 k2 c : R) (d : t) : result t :=
  if negb (BinnedData.isCovarianceModifiable (base d))
  then Err (RuntimeError "QuasarCorrelationData::fixCovariance: not modifiable.")
  else
    (* Make sure that our our data vector is un-weighted. *)
    first ← at_ (BinnedData.bd_index (base d)) 0;
    '(bd, _) ← BinnedData.getData (base d) first;
    (* Loop over all bins. *)
    let indices := BinnedData.bd_index bd in
    '(bd, _) ← for_each (imap (fun offset index => (offset, index)) indices)
                 (fixCovarianceBin k1 k2 c indices) (bd, []);
    Ok (set_base bd d).

(** Calculates and saves (r,mu,z) for the specified global index. *)
Definition _setIndex (index : Z) (d : t) : result t :=
  if decide (index = _lastIndex d) then Ok d
  else
    let binCenter := BinnedData.getBinCenters (base d) index in
    let binWidth := BinnedData.getBinWidths (base d) index in
    zLast ← at_ binCenter 2;
    ll ← at_ binCenter 0;
    sep ← at_ binCenter 1;
    dsep ← at_ binWidth 1;
    let '(rLast, muLast) := transform ll sep dsep zLast in
    Ok (set_last index binCenter binWidth rLast muLast zLast d).

Definition getRadius (index : Z) (d : t) : result (t * R) :=
  if isFinalized d then
    offset ← BinnedData.getOffsetForIndex (base d) index;
    r ← at_ (_rLookup d) offset;
    Ok (d, r)
  else
    d ← _setIndex index d;
    Ok (d, _rLast d).

Definition getCosAngle (index : Z) (d : t) : result (t * R) :=
  if isFinalized d then
    offset ← BinnedData.getOffsetForIndex (base d) index;
    mu ← at_ (_muLookup d) offset;
    Ok (d, mu)
  else
    d ← _setIndex index d;
    Ok (d, _muLast d).

Definition getRedshift (index : Z) (d : t) : result (t * R) :=
  if isFinalized d then
    offset ← BinnedData.getOffsetForIndex (base d) index;
    z ← at_ (_zLookup d) offset;
    Ok (d, z)
  else
    d ← _setIndex index d;
    Ok (d, _zLast d).

(** Modelled from the spec: one turn of the loop of
    [AbsCorrelationData::_applyFinalCuts] over the bins with data. The
    body of that method is in [AbsCorrelationData.cc], which is not among
    the sources. The pruning policy keeps bin [b] iff
    [rmin <= radius(b) < rmax]; the test of the wavelength-ratio center is
    the one that [finalize] makes itself. [rmin] and [rmax] are the final
    cuts that the constructor hands to the base class, and the radius is
    the one that [getRadius] answers. *)
Definition applyFinalCutsBin (rmin rmax : R) (index : Z) (state : t * gset Z)
    : result (t * gset Z) :=
  let '(d, keep) := state in
  '(d, r) ← getRadius index d;
  if decide (r < rmin \/ r >= rmax) then Ok (d, keep)
  else Ok (d, {[index]} ∪ keep).

(** Modelled from the spec: [AbsCorrelationData::_applyFinalCuts(keep)],
    the set [keep] that the loop fills from the empty set that [finalize]
    declares. *)
Definition applyFinalCuts (rmin rmax : R) (d : t) : result (gset Z) :=
  '(_, keep) ← for_each (BinnedData.bd_index (base d))
                 (applyFinalCutsBin rmin rmax) (d, ∅);
  Ok keep.

(** Modelled from the spec: the final cuts of a dataset constructed with
    [rmin] and [rmax]. *)
Definition radiusCuts (rmin rmax : R) : FinalCuts :=
  {| _applyFinalCuts := applyFinalCuts rmin rmax |}.

Context {cuts : FinalCuts}.

(** The loop of [finalize] over the bins with data, one turn. The state
    is the dataset (its cache and its lookup tables) and [keep]. *)
Definition finalizeBin (index : Z) (state : t * gset Z)
    : result (t * gset Z) :=
  let '(d, keep) := state in
  (* Skip bins that have already been cut in _applyFinalCuts *)
  if decide (index ∉ keep) then Ok (d, keep)
  else
    (* Lookup the value of ll at the center of this bin. *)
    let d := set_binCenter (BinnedData.getBinCenters (base d) index) d in
    ll ← at_ (_binCenter d) 0;
    (* Keep this bin in our pruned dataset? *)
    if decide (ll < _llmin d) then Ok (d, keep ∖ {[index]})
    else
      (* Cache the values of (r,mu,z) at the center of this bin. *)
      '(d, r) ← getRadius index d;
      '(d, mu) ← getCosAngle index d;
      '(d, z) ← getRedshift index d;
      Ok (set_lookups (_rLookup d ++ [r]) (_muLookup d ++ [mu])
            (_zLookup d ++ [z]) d, keep)
  .

(** The base class's [finalize()]: no further change of shape. *)
Definition baseFinalize (bd : BinnedData.t) : BinnedData.t :=
  BinnedData.mk (BinnedData.bd_axis1 bd) (BinnedData.bd_axis2 bd)
    (BinnedData.bd_axis3 bd) (BinnedData.bd_index bd)
    (BinnedData.bd_data bd) (BinnedData.bd_weighted bd)
    (BinnedData.bd_covariance bd) (BinnedData.bd_sharedCovariance bd) true.

Definition finalize (d : t) : result t :=
  (* First fix Covariance *)
  d ← (if _fixCov d then fixCovariance 150 300 1e-3 d else Ok d);
  (* Next apply final cuts. *)
  keep ← _applyFinalCuts d;
  (* Loop over bins with data. *)
  '(d, keep) ← for_each (BinnedData.bd_index (base d)) finalizeBin (d, keep);
  (* Prune our dataset down to bins in the keep set. *)
  bd ← BinnedData.prune (base d) keep;
  Ok (set_base (baseFinalize bd) d).

End Methods.

End QuasarCorrelationData.

(** ** [ComovingCorrelationData] *)

Module ComovingCorrelationData.

(** [base] is the [likely::BinnedData] that the class derives from through
    [AbsCorrelationData]; [_lastIndex] and [_binCenter] are the [mutable]
    cache of [_setIndex]. *)
#[projections(primitive)]
Record t : Type := mk {
  base : BinnedData.t;
  _lastIndex : Z;
  _binCenter : list R;
}.

(** The constructor that takes the three binnings. *)
Definition new (rBins muBins zBins : AbsBinning) : t :=
  {| base := BinnedData.new rBins muBins zBins;
     _lastIndex := (-1)%Z; _binCenter := [] |}.

Definition isFinalized (d : t) : bool := BinnedData.bd_finalized (base d).

(** [AbsCorrelationData::_applyFinalCuts(keep)] is defined in
    [AbsCorrelationData.cc]; [finalize] prunes to the set it fills. *)
Class FinalCuts : Type := {
  _applyFinalCuts : t -> result (gset Z);
}.

Definition _setIndex (index : Z) (d : t) : t :=
  if decide (index = _lastIndex d) then d
  else
    {| base := base d; _lastIndex := index;
       _binCenter := BinnedData.getBinCenters (base d) index |}.

Definition getRadius (index : Z) (d : t) : result (t * R) :=
  let d := _setIndex index d in
  r ← at_ (_binCenter d) 0;
  Ok (d, r).

Definition getCosAngle (index : Z) (d : t) : result (t * R) :=
  let d := _setIndex index d in
  mu ← at_ (_binCenter d) 1;
  Ok (d, mu).

Definition getRedshift (index : Z) (d : t) : result (t * R) :=
  let d := _setIndex index d in
  z ← at_ (_binCenter d) 2;
  Ok (d, z).

Section Methods.
Context {L : Lapack} {cuts : FinalCuts}.

Definition finalize (d : t) : result t :=
  keep ← _applyFinalCuts d;
  bd ← BinnedData.prune (base d) keep;
  Ok {| base := QuasarCorrelationData.baseFinalize bd;
        _lastIndex := _lastIndex d; _binCenter := _binCenter d |}.

End Methods.

End ComovingCorrelationData.

(** ** Reading a file line by line *)

Module Stream.

(** A [std::ifstream] that was opened for reading: the characters that are
    left to read and the two state bits that the loops test. *)
Record ifstream : Type := {
  pending : string;
  eofbit : bool;
  failbit : bool;
}.

Definition open (text : string) : ifstream :=
  {| pending := text; eofbit := false; failbit := false |}.

(** [in.good()], [in.eof()] and the conversion of a stream to [bool]. *)
Definition good (input : ifstream) : bool :=
  negb (eofbit input) && negb (failbit input).
Definition eof (input : ifstream) : bool := eofbit input.
Definition succeeded (input : ifstream) : bool := negb (failbit input).

Definition newline : ascii := "010"%char.

(** The characters up to the first newline, and what follows it if there
    is one. *)
Fixpoint upToNewline (text : string) : string * option string :=
  match text with
  | EmptyString => (EmptyString, None)
  | String ch rest =>
      if decide (ch = newline) then (EmptyString, Some rest)
      else let '(line, after) := upToNewline rest in (String ch line, after)
  end.

(** [std::getline(in,line)]: on a stream that is not good it sets
    [failbit] and leaves [line]; otherwise it extracts characters up to a
    newline, which it discards, or up to the end of the file, where it sets
    [eofbit], and also [failbit] if it has extracted nothing. *)
Definition getline (input : ifstream) (line : string) : ifstream * string :=
  if good input then
    match upToNewline (pending input) with
    | (extracted, Some after) =>
        ({| pending := after; eofbit := false; failbit := false |}, extracted)
    | (extracted, None) =>
        ({| pending := EmptyString; eofbit := true;
            failbit := bool_decide (extracted = EmptyString) |}, extracted)
    end
  else
    ({| pending := pending input; eofbit := eofbit input; failbit := true |},
     line).

(** [while(std::getline(in,line)) body], the loop of [baofit/boss.cc]. The
    fuel bounds the number of turns; [None] when it runs out. *)
Fixpoint whileGetline {S : Type} (fuel : nat) (body : string -> S -> result S)
    (input : ifstream) (line : string) (s : S) : option (result S) :=
  match fuel with
  | O => None
  | Datatypes.S fuel =>
      let '(input, line) := getline input line in
      if succeeded input then
        match body line s with
        | Ok s => whileGetline fuel body input line s
        | Err e => Some (Err e)
        end
      else Some (Ok s)
  end.

(** [while(in.good() && !in.eof()) { std::getline(in,line);
    if(in.eof()) break; if(!in.good()) throw ...; body }], the loop of
    [src/baofit.cc]; [unreadable] builds what is thrown from the state. *)
Fixpoint whileNotEof {S : Type} (fuel : nat) (unreadable : S -> error)
    (body : string -> S -> result S)
    (input : ifstream) (line : string) (s : S) : option (result S) :=
  match fuel with
  | O => None
  | Datatypes.S fuel =>
      if good input && negb (eof input) then
        let '(input, line) := getline input line in
        if eof input then Some (Ok s)
        else if negb (good input) then Some (Err (unreadable s))
        else
          match body line s with
          | Ok s => whileNotEof fuel unreadable body input line s
          | Err e => Some (Err e)
          end
      else Some (Ok s)
  end.

End Stream.

(** * The vocabulary of the properties *)

(** ** The states of a combined dataset *)

Module Lifecycle.
Import LyaData.

(** No plate added since the constructor or the last [reset]. *)
Definition Empty (d : t) : Prop :=
  _dataFinalized d = false /\ _covarianceFinalized d = false
  /\ _compressed d = false /\ _data d = []
  /\ _covariance d = None /\ _covarianceTilde d = None.

(** [finalize] has run. *)
Definition Finalized (d : t) : Prop :=
  _dataFinalized d = true /\ _covarianceFinalized d = true.

(** A store that holds [n] by [n] packed elements whose inverse-covariance
    reading is [m]. *)
Definition holdsICov {L : Lapack} (n : nat) (c : CovarianceMatrix.t)
    (m : list R) : Prop :=
  CovarianceMatrix.size c = n /\ CovarianceMatrix.readsICov c = Ok m
  /\ length m = packedSize n.

(** At least one plate with [n > 0] bins added, and not finalized: both
    accumulators are allocated and sized to [n]. *)
Definition Accumulating {L : Lapack} (n : nat) (d : t) : Prop :=
  _dataFinalized d = false /\ _covarianceFinalized d = false
  /\ _compressed d = false
  /\ (0 < n)%nat /\ length (_data d) = n /\ length (_icovData d) = n
  /\ (exists c m, _covariance d = Some c /\ holdsICov n c m)
  /\ (exists c m, _covarianceTilde d = Some c /\ holdsICov n c m).

(** A plate with [n] bins, as [finalizeCovariance] leaves it: its store is
    written and sized to [n], and [_icovData] is the data multiplied by the
    inverse covariance. *)
Definition Plate {L : Lapack} (n : nat) (p : t) : Prop :=
  _dataFinalized p = true /\ _covarianceFinalized p = true
  /\ length (_data p) = n
  /\ exists c m, _covariance p = Some c /\ holdsICov n c m
       /\ CovarianceMatrix.elems c <> CovarianceMatrix.Unset
       /\ _icovData p = symmetricMultiply n m (_data p).

(** The elements of the two accumulators and of the final covariance. *)
Definition icov {L : Lapack} (d : t) (row col : nat) : result R :=
  c ← deref (_covariance d);
  CovarianceMatrix.getInverseCovariance c row col.

Definition icovTilde {L : Lapack} (d : t) (row col : nat) : result R :=
  c ← deref (_covarianceTilde d);
  CovarianceMatrix.getInverseCovariance c row col.

Definition covarianceElements {L : Lapack} (d : t) : result (list R) :=
  c ← deref (_covariance d);
  CovarianceMatrix.readsCov c.

End Lifecycle.

(** ** Covariance entries of a binned dataset *)

Section StoreVocabulary.
Context {L : Lapack}.

(** The element a loader reads back: of the inverse covariance when it
    loads an [.icov] file, of the covariance when it loads a [.cov] file. *)
Definition stored (icov : bool) (bd : BinnedData.t) (index1 index2 : Z)
    : result R :=
  if icov then BinnedData.getInverseCovariance bd index1 index2
  else BinnedData.getCovariance bd index1 index2.

(** What a loader writes for a zero on the diagonal. *)
Definition sentinel (icov : bool) : R := if icov then 1e-30 else 1e40.

(** The store of a dataset that a loader is filling from one kind of file:
    sized to the bins with data, and either untouched or holding the
    representation of that kind. *)
Definition storeReady (icov : bool) (bd : BinnedData.t) : Prop :=
  let c := BinnedData.store bd in
  CovarianceMatrix.size c = BinnedData.getNBinsWithData bd
  /\ match CovarianceMatrix.elems c with
     | CovarianceMatrix.Unset => True
     | CovarianceMatrix.Cov m =>
         icov = false /\ length m = packedSize (CovarianceMatrix.size c)
     | CovarianceMatrix.ICov m =>
         icov = true /\ length m = packedSize (CovarianceMatrix.size c)
     end.

Definition reads (icov : bool) (c : CovarianceMatrix.t) : result (list R) :=
  if icov then CovarianceMatrix.readsICov c else CovarianceMatrix.readsCov c.

Definition read (icov : bool) (c : CovarianceMatrix.t) (row col : nat)
    : result R :=
  if icov then CovarianceMatrix.getInverseCovariance c row col
  else CovarianceMatrix.getCovariance c row col.

Definition write (icov : bool) (c : CovarianceMatrix.t) (row col : nat)
    (value : R) : result CovarianceMatrix.t :=
  if icov then CovarianceMatrix.setInverseCovariance c row col value
  else CovarianceMatrix.setCovariance c row col value.

Definition holding (icov : bool) (m : list R) : CovarianceMatrix.elements :=
  if icov then CovarianceMatrix.ICov m else CovarianceMatrix.Cov m.

Definition ready (icov : bool) (n : nat) (c : CovarianceMatrix.t) : Prop :=
  CovarianceMatrix.size c = n
  /\ match CovarianceMatrix.elems c with
     | CovarianceMatrix.Unset => True
     | CovarianceMatrix.Cov m => icov = false /\ length m = packedSize n
     | CovarianceMatrix.ICov m => icov = true /\ length m = packedSize n
     end.

Definition replaced (icov : bool) (v : R) : R :=
  if decide (0 = v) then sentinel icov else v.

(** What the loops of a loader keep: distinct bins, and a store that is
    either untouched or holds the representation being loaded. *)
Definition loading (icov : bool) (bd : BinnedData.t) : Prop :=
  NoDup (BinnedData.bd_index bd) /\ storeReady icov bd.

End StoreVocabulary.

(** ** The cuts of [LyaData::prune] *)

Section PruneVocabulary.
Import LyaData.

(** The center of bin [b] along the first (wavelength-ratio) axis:
    [binCenters[0]]. *)
Definition llCenter (bd : BinnedData.t) (b : Z) : R :=
  getBinCenter (BinnedData.bd_axis1 bd) (BinnedData.getBinIndices bd b).1.1.

(** Bin [b] has data at some offset whose cached radius [r] passes the
    cuts, and its wavelength-ratio center passes the cut. *)
Definition keptAt (rmin rmax llmin : R) (d : t) (b : Z) (offset : nat) : Prop :=
  exists r,
    BinnedData.bd_index (_binnedData d) !! offset = Some b
    /\ _r3d d !! offset = Some r
    /\ rmin <= r /\ r < rmax /\ llmin <= llCenter (_binnedData d) b.

Definition kept (rmin rmax llmin : R) (d : t) (b : Z) : Prop :=
  exists offset, keptAt rmin rmax llmin d b offset.

End PruneVocabulary.

(** ** The frame of [fixCovariance] *)

Section FrameVocabulary.
Context {L : Lapack}.

Definition sepIndex (bd : BinnedData.t) (index : Z) : Z :=
  (BinnedData.getBinIndices bd index).1.2.

Definition zIndex (bd : BinnedData.t) (index : Z) : Z :=
  (BinnedData.getBinIndices bd index).2.

(** The two bins do not share both their separation bin and their
    redshift bin. *)
Definition apart (bd : BinnedData.t) (i1 i2 : Z) : Prop :=
  sepIndex bd i1 <> sepIndex bd i2 \/ zIndex bd i1 <> zIndex bd i2.

(** [bd] has the bins and the binning of [bd0], and the covariance of
    [bd0] between every two bins that are apart. *)
Definition sameFrame (bd0 bd : BinnedData.t) : Prop :=
  BinnedData.bd_index bd = BinnedData.bd_index bd0
  /\ BinnedData.bd_axis1 bd = BinnedData.bd_axis1 bd0
  /\ BinnedData.bd_axis2 bd = BinnedData.bd_axis2 bd0
  /\ BinnedData.bd_axis3 bd = BinnedData.bd_axis3 bd0
  /\ forall j1 j2, apart bd0 j1 j2 ->
       BinnedData.getCovariance bd j1 j2 = BinnedData.getCovariance bd0 j1 j2.

End FrameVocabulary.

(** ** The sample points of [twoStepSampling] *)


(** ** The cache of the coordinate getters *)

(** A global index that names a bin of the three-axis binning. *)
Definition validIndex (bd : BinnedData.t) (index : Z) : Prop :=
  (0 <= index < BinnedData.getNBinsTotal bd)%Z.

Section CacheVocabulary.
Import QuasarCorrelationData.
Context {cosmology : AbsHomogeneousUniverse}.

(** The co-moving coordinates [(r,mu,z)] at the center of the bin with
    global index [index]. *)
Definition binCoordinates (bd : BinnedData.t) (index : Z) : R * R * R :=
  let '(i1, i2, i3) := BinnedData.getBinIndices bd index in
  let z := getBinCenter (BinnedData.bd_axis3 bd) i3 in
  let '(r, mu) :=
    transform (getBinCenter (BinnedData.bd_axis1 bd) i1)
      (getBinCenter (BinnedData.bd_axis2 bd) i2)
      (getBinWidth (BinnedData.bd_axis2 bd) i2) z in
  (r, mu, z).

(** The radius at the center of the bin with global index [index]. *)
Definition binRadius (bd : BinnedData.t) (index : Z) : R :=
  (binCoordinates bd index).1.1.

(** The cache of [_setIndex] is either untouched since the constructor or
    holds the coordinates of the bin it names. *)
Definition cacheCoherent (d : t) : Prop :=
  _lastIndex d = (-1)%Z
  \/ (_rLast d, _muLast d, _zLast d) = binCoordinates (base d) (_lastIndex d).

End CacheVocabulary.

(** The bins that the loop of [finalize] tabulates, among those it has to
    look at: the ones still in [keep] whose wavelength-ratio center is not
    below [_llmin]. *)
Definition tabulated (bd : BinnedData.t) (llmin : R) (keep : gset Z)
    (todo : list Z) : list Z :=
  filter (fun b => b ∈ keep /\ llmin <= llCenter bd b) todo.

Section ComovingVocabulary.
Import ComovingCorrelationData.

(** The cache is either untouched since the constructor or holds the bin
    centers of the bin it names. *)
Definition centersCached (d : t) : Prop :=
  _lastIndex d = (-1)%Z
  \/ _binCenter d = BinnedData.getBinCenters (base d) (_lastIndex d).

End ComovingVocabulary.

(** ** A plate that is being filled *)

Section LoadingVocabulary.
Import LyaData.

(** What the calls of [addData] keep while a plate is being filled: the
    vectors of the plate and the bins of its binned dataset go together,
    and no bin is listed twice. *)
Definition Filling (d : t) : Prop :=
  _index d = BinnedData.bd_index (_binnedData d)
  /\ _data d = BinnedData.bd_data (_binnedData d)
  /\ length (_index d) = length (_data d)
  /\ length (_r3d d) = length (_data d)
  /\ length (_mu d) = length (_data d)
  /\ NoDup (_index d).

End LoadingVocabulary.

Section LoadVocabulary.
Import LyaData.

(** The vectors of the plate and the bins and values of its binned
    dataset are those of [d]. *)
Definition sameBins (d d' : t) : Prop :=
  _data d' = _data d /\ _index d' = _index d
  /\ _r3d d' = _r3d d /\ _mu d' = _mu d
  /\ BinnedData.bd_index (_binnedData d') = BinnedData.bd_index (_binnedData d)
  /\ BinnedData.bd_data (_binnedData d') = BinnedData.bd_data (_binnedData d).

End LoadVocabulary.

(** ** Plates that are added once *)

(** The [j]-th unit vector of length [n]. *)
Definition unitVector (n j : nat) : list R := <[j:=1]> (replicate n 0).

Section UnrepeatedVocabulary.
Import LyaData Lifecycle.

(** A combined dataset that is accumulating [n]-bin plates, none of them
    repeated: the two accumulators hold the same inverse covariance. *)
Definition Unrepeated (n : nat) (d : t) : Prop :=
  _dataFinalized d = false /\ _covarianceFinalized d = false
  /\ _compressed d = false
  /\ (0 < n)%nat /\ length (_data d) = n /\ length (_icovData d) = n
  /\ exists m,
       _covariance d
       = Some (CovarianceMatrix.mk n (CovarianceMatrix.ICov m) false)
       /\ _covarianceTilde d = _covariance d
       /\ length m = packedSize n.

End UnrepeatedVocabulary.

(** ** What [fixCovariance] adds *)

Section FixVocabulary.
Import QuasarCorrelationData.
Context {L : Lapack}.

(** The bins with data are the bins [0 .. n-1], in that order. *)
Definition denseBins (n : nat) (bd : BinnedData.t) : Prop :=
  BinnedData.bd_index bd = Z.of_nat <$> seq 0 n.

(** The two bins share their separation bin and their redshift bin. *)
Definition together (bd : BinnedData.t) (i1 i2 : Z) : Prop :=
  sepIndex bd i1 = sepIndex bd i2 /\ zIndex bd i1 = zIndex bd i2.

(** What [fixCovariance(k1,k2,c)] adds to the covariance of two bins that
    are together. *)
Definition fixTerm (k1 k2 c : R) (bd : BinnedData.t) (i1 i2 : Z) : R :=
  c * (1.0 + _pkmarg 0.0 k1 (llCenter bd i1) (llCenter bd i2)
       + _pkmarg k1 k2 (llCenter bd i1) (llCenter bd i2)).

(** A dataset with the bins and binning of [bd0] and a covariance store
    that can be read and written as a covariance. *)
Definition held (n : nat) (bd0 bd : BinnedData.t) : Prop :=
  BinnedData.bd_index bd = BinnedData.bd_index bd0
  /\ BinnedData.bd_axis1 bd = BinnedData.bd_axis1 bd0
  /\ BinnedData.bd_axis2 bd = BinnedData.bd_axis2 bd0
  /\ BinnedData.bd_axis3 bd = BinnedData.bd_axis3 bd0
  /\ ready false n (BinnedData.store bd).

(** The pairs (row <= col) that the loops have gone through when the
    outer loop is at bin [s] and the inner loop at bin [t]. *)
Definition visited (s t row col : nat) : Prop :=
  (col < s)%nat \/ (col = s /\ row < t)%nat.

(** The packed covariance [m] is [m0] with the term of [fixCovariance]
    added between the pairs that were gone through and are together. *)
Definition fixedUpTo (k1 k2 c : R) (n : nat) (bd0 : BinnedData.t) (s t : nat)
    (m0 m : list R) : Prop :=
  forall row col, (row <= col)%nat -> (col < n)%nat ->
    m !! symmetricIndex col row
    = (fun v => v + (if decide (visited s t row col
                                /\ together bd0 (Z.of_nat col) (Z.of_nat row))
                     then fixTerm k1 k2 c bd0 (Z.of_nat col) (Z.of_nat row)
                     else 0))
        <$> (m0 !! symmetricIndex col row).

End FixVocabulary.

(** ** The text of a file *)

(** A text made of lines that each end in a newline, followed by [last],
    which does not. *)
Definition textOf (lines : list string) (last : string) : string :=
  foldr (fun line text => line +:+ String Stream.newline text) last lines.

Definition noNewline (line : string) : Prop :=
  Stream.newline ∉ String.list_ascii_of_string line.

(** ** The offsets of [applyTheoryOffsets] *)

Section SymmetricVocabulary.
Import LyaData.

(** The offset that theory adds to the value of the bin at offset [k]. *)
Definition theoryOffset (model : AbsCorrelationModel) (pfit pnew : list R)
    (d : t) (k : nat) : R :=
  let r := default 0 (_r3d d !! k) in
  let mu := default 0 (_mu d !! k) in
  let z := getBinCenter (_redshiftBinning d)
             (Z.rem (default 0%Z (_index d !! k)) (_nz d)) in
  evaluate r mu z pnew - evaluate r mu z pfit.

End SymmetricVocabulary.

(** * Collaborators and data to run the code on *)

(** A division that rounds nothing, as the division of doubles does when
    the quotient is a double. *)
Definition exactDivision : DoubleDivision := {| fdiv := Rdiv |}.

(** A memory that holds zeros where nothing was written. *)
Definition zeroMemory : RawMemory := {| uninitialized := fun _ => 0 |}.

(** A flat toy cosmology, to run the transform on. *)
Definition unitUniverse : AbsHomogeneousUniverse :=
  {| getLineOfSightComovingDistance := fun z => z;
     getTransverseComovingScale := fun _ => 1 |}.

(** A sky where only the separation counts: no distance along the line of
    sight, and a transverse scale that makes one arc minute one unit of
    distance. *)
Definition arcminUniverse : AbsHomogeneousUniverse :=
  {| getLineOfSightComovingDistance := fun _ => 0;
     getTransverseComovingScale := fun _ => / _arcminToRad |}.

(** An exact LAPACK for the two smallest sizes: the inverse of a positive
    number, and of a positive-definite symmetric 2 by 2 matrix
    [[a b] [b c]], packed as [a; b; c]. Anything else is reported as not
    positive definite. *)
Definition smallInvert (n : nat) (m : list R) : option (list R) :=
  match n, m with
  | 1%nat, [a] => if decide (0 < a) then Some [/ a] else None
  | 2%nat, [a; b; c] =>
      if decide (0 < a /\ 0 < a * c - b * b)
      then Some [c / (a * c - b * b); - b / (a * c - b * b);
                 a / (a * c - b * b)]
      else None
  | _, _ => None
  end.

Definition smallLapack : Lapack := {| invert := smallInvert |}.

(** A sum of binned datasets that keeps the left operand. *)
Definition keepLeft : BinnedDataSum := {| plus_assign := fun a _ => Ok a |}.

(** One bin on each axis. *)
Definition oneBin : AbsBinning :=
  {| getNBins := 1; getBinIndex := fun _ => Ok 0%Z;
     getBinCenter := fun _ => 0; getBinWidth := fun _ => 1 |}.

(** A plate with one bin: data [2], inverse covariance [1]. *)
Definition plate1 : LyaData.t :=
  LyaData.set_icovData (symmetricMultiply 1 [1] [2])
    (LyaData.set_covarianceFinalized true
       (LyaData.set_dataFinalized true
          (LyaData.set_covariance
             (Some (CovarianceMatrix.mk 1 (CovarianceMatrix.ICov [1]) true))
             (LyaData.set_data [2] (LyaData.new oneBin oneBin oneBin))))).


(** A combined dataset that is accumulating one-bin plates. *)
Definition combined1 : LyaData.t :=
  LyaData.set_covarianceTilde
    (Some (CovarianceMatrix.mk 1 (CovarianceMatrix.ICov [3]) false))
    (LyaData.set_covariance
       (Some (CovarianceMatrix.mk 1 (CovarianceMatrix.ICov [5]) false))
       (LyaData.set_icovData [7]
          (LyaData.set_data [0] (LyaData.new oneBin oneBin oneBin)))).

(** Three bins along the wavelength-ratio axis, with centers [0.05],
    [0.15], [0.25], and cached radii [40], [190], [100]. *)
Definition threeLL : AbsBinning :=
  {| getNBins := 3; getBinIndex := fun _ => Ok 0%Z;
     getBinCenter := fun i => 0.05 + 0.1 * IZR i; getBinWidth := fun _ => 0.1 |}.

Definition threeBins : LyaData.t :=
  LyaData.set_binnedData
    (BinnedData.mk threeLL oneBin oneBin [0%Z; 1%Z; 2%Z] [1; 1; 1] false None
       false false)
    (LyaData.set_r3d [40; 190; 100] (LyaData.new threeLL oneBin oneBin)).

(** A dataset with one bin, filled with the value [2], and no covariance
    entry written yet. *)
Definition oneBinData : BinnedData.t :=
  BinnedData.mk oneBin oneBin oneBin [0%Z] [2] false None false false.

(** Two bins with data that differ in their separation bin, and a
    covariance [[4 1] [1 9]] between them. *)
Definition twoSep : AbsBinning :=
  {| getNBins := 2; getBinIndex := fun _ => Ok 0%Z;
     getBinCenter := fun i => 5 + 10 * IZR i; getBinWidth := fun _ => 10 |}.

Definition twoSepData : QuasarCorrelationData.t :=
  QuasarCorrelationData.set_base
    (BinnedData.mk oneBin twoSep oneBin [0%Z; 1%Z] [1; 1] false
       (Some (CovarianceMatrix.mk 2 (CovarianceMatrix.Cov [4; 1; 9]) false))
       false false)
    (QuasarCorrelationData.new oneBin twoSep oneBin 0 false).

(** A grammar that matches no line, and a pair of files: an empty
    parameters file and a covariance file with one line. *)
Definition matchNothing : LineGrammar :=
  {| parseParams := fun _ => None; parseCov := fun _ => None |}.

Definition demoFiles : files :=
  <["demo.cov" := ["0 0 oops"]]> (<["demo.params" := []]> ∅).

(** Final cuts that cut nothing. *)
Definition keepAll : QuasarCorrelationData.FinalCuts :=
  {| QuasarCorrelationData._applyFinalCuts := fun d =>
       Ok (list_to_set (BinnedData.bd_index (QuasarCorrelationData.base d))) |}.

(** Three bins with data, at three wavelength ratios and two separations,
    to be cut at [_llmin = 0.1]. *)
Definition threeLLData : QuasarCorrelationData.t :=
  QuasarCorrelationData.set_base
    (BinnedData.mk threeLL twoSep oneBin [0%Z; 3%Z; 4%Z] [1; 1; 1] false None
       false false)
    (QuasarCorrelationData.new threeLL twoSep oneBin 0.1 false).

(** The same three bins, which are not the bins [0 .. 2], with a covariance
    [[4 1 0] [1 9 2] [0 2 16]] between them, to be fixed when finalized.
    Bins [0] and [4] share their separation bin; bin [3] is apart from
    both. *)
Definition threeLLFix : QuasarCorrelationData.t :=
  QuasarCorrelationData.set_base
    (BinnedData.mk threeLL twoSep oneBin [0%Z; 3%Z; 4%Z] [1; 1; 1] false
       (Some (CovarianceMatrix.mk 3
                (CovarianceMatrix.Cov [4; 1; 9; 0; 2; 16]) false))
       false false)
    (QuasarCorrelationData.new threeLL twoSep oneBin 0.1 true).

(** Two separation bins, of widths [12] and [24] around [6] and [24]:
    under [arcminUniverse] the radii at their centers are [8] and [26]. *)
Definition wideSep : AbsBinning :=
  {| getNBins := 2; getBinIndex := fun _ => Ok 0%Z;
     getBinCenter := fun i => 6 + 18 * IZR i;
     getBinWidth := fun i => 12 + 12 * IZR i |}.

(** Three bins with data, to be cut at [_llmin = 0.15] and at the radii
    [8] and [26]: bin [1] at ratio [0.05] and radius [26], bin [2] at
    ratio [0.15] and radius [8], bin [3] at ratio [0.15] and radius
    [26]. *)
Definition threeCuts : QuasarCorrelationData.t :=
  QuasarCorrelationData.set_base
    (BinnedData.mk threeLL wideSep oneBin [1%Z; 2%Z; 3%Z] [1; 1; 1] false
       (Some (CovarianceMatrix.mk 3
                (CovarianceMatrix.Cov [4; 1; 9; 0; 2; 16]) false))
       false false)
    (QuasarCorrelationData.new threeLL wideSep oneBin 0.15 true).

(** A co-moving dataset with the two bins of [twoSepData], and final cuts
    that keep bin [1]. *)
Definition twoComoving : ComovingCorrelationData.t :=
  ComovingCorrelationData.mk
    (BinnedData.mk oneBin twoSep oneBin [0%Z; 1%Z] [1; 1] false None
       false false)
    (-1) [].


(** A plate that was told its one bin, and waits for its covariance. *)
Definition oneBinPlate : LyaData.t :=
  LyaData.finalizeData
    (LyaData.set_binnedData oneBinData
       (LyaData.set_index [0%Z]
          (LyaData.set_data [2] (LyaData.new oneBin oneBin oneBin)))).

(** Patterns that match the two lines of a plate with one bin, and the
    files of that plate. *)
Definition onePlatePatterns : LinePatterns :=
  {| matchParams := fun _ line =>
       if decide (line = "2 0 0 5 0"%string) then Some [2; 0; 0; 5; 0] else None;
     matchCov := fun _ line =>
       if decide (line = "0 0 -4"%string) then Some (0%Z, 0%Z, -4) else None |}.

Definition onePlateFiles : files :=
  <["one.icov"%string := ["0 0 -4"%string]]>
    (<["one.params"%string := ["2 0 0 5 0"%string]]> ∅).



(** A grammar that reads every covariance line as an entry below the
    diagonal, and one that matches no line of a French parameter file. *)
Definition belowDiagonal : LineGrammar :=
  {| parseParams := fun _ => None;
     parseCov := fun _ => Some (1%Z, 0%Z, 7) |}.

Definition frenchNothing : FrenchGrammar := {| parseFrench := fun _ => None |}.

(** An empty French parameter file with a covariance file of one line,
    and a cosmolib parameter file of one line. *)
Definition frenchFiles : files :=
  <["cov_demo.txt"%string := ["1 0 7"%string]]>
    (<["demo.txt"%string := []]> ∅).

Definition badParams : files := <["bad.params"%string := ["oops"%string]]> ∅.

(** The plate [plate1] with the cached coordinates of its bin, and a
    model that answers with its first parameter. *)
Definition plate1Cached : LyaData.t :=
  LyaData.set_r3d [40] (LyaData.set_mu [1] (LyaData.set_index [0%Z] plate1)).

Definition firstParameter : AbsCorrelationModel :=
  {| evaluate := fun _ _ _ params => default 0 (head params) |}.

(** The parameter file of the plate [one] with a covariance file that
    holds one line. *)
Definition badCovFiles : files :=
  <["one.icov"%string := ["oops"%string]]>
    (<["one.params"%string := ["2 0 0 5 0"%string]]> ∅).

(** * Properties *)

(** ** The failure monad and the loops *)

Lemma bind_Ok {A B} (m : result A) (f : A -> result B) (b : B) :
  m ≫= f = Ok b <-> exists a, m = Ok a /\ f a = Ok b.
Proof.
  destruct m as [a|e]; simpl; split.
  - intros H; exists a; auto.
  - intros (a' & Ha & Hf); injection Ha as ->; exact Hf.
  - discriminate.
  - intros (a' & Ha & _); discriminate.
Qed.

Lemma for_each_app {K S} (ks1 ks2 : list K) (body : K -> S -> result S) (s : S) :
  for_each (ks1 ++ ks2) body s = for_each ks1 body s ≫= for_each ks2 body.
Proof.
  revert s; induction ks1 as [|k ks1 IH]; intros s; simpl; [reflexivity|].
  destruct (body k s); simpl; auto.
Qed.

(** A loop invariant: what holds before the loop and is kept by every turn
    that returns holds of the state the loop returns. *)
Lemma for_each_invariant {K S} (I : S -> Prop) (ks : list K)
    (body : K -> S -> result S) (s s' : S) :
  (forall k x x', k ∈ ks -> I x -> body k x = Ok x' -> I x') ->
  I s -> for_each ks body s = Ok s' -> I s'.
Proof.
  revert s; induction ks as [|k ks IH]; intros s Hbody Hs Hrun; simpl in Hrun.
  - injection Hrun as <-; exact Hs.
  - destruct (body k s) as [x|] eqn:Hk; [|discriminate].
    apply (IH x); auto.
    + intros k' y y' Hin; apply Hbody; right; exact Hin.
    + apply (Hbody k s x); auto; left.
Qed.

(** ** Two-step sampling *)

Lemma push_samples_app (f : Z -> R) (first count : Z) (samplePoints : list R) :
  push_samples f first count samplePoints
  = samplePoints ++ (f <$> seqZ first count).
Proof.
  unfold push_samples. generalize (seqZ first count) as ks.
  intros ks; revert samplePoints.
  induction ks as [|k ks IH]; intros sp; simpl.
  - now rewrite app_nil_r.
  - rewrite IH, <- app_assoc. reflexivity.
Qed.

Section Sampling.
Context {D : DoubleDivision}.

Lemma twoStepSampling_body_eq (nBins : Z) (breakpoint dlog dlin : R) :
  twoStepSampling_body nBins breakpoint dlog dlin
  = 0 :: ((fun k => (IZR k - 0.5) * dlin)
            <$> seqZ 1 (Int_part (fdiv breakpoint dlin)))
      ++ ((fun k => breakpoint
                    * exp (ln ((breakpoint + dlog) / breakpoint) * (IZR k - 0.5)))
            <$> seqZ 1 (nBins - Int_part (fdiv breakpoint dlin) - 1)).
Proof.
  unfold twoStepSampling_body. rewrite !push_samples_app.
  rewrite <- app_assoc. reflexivity.
Qed.

Lemma Int_part_nonneg (x : R) : 0 <= x -> (0 <= Int_part x)%Z.
Proof.
  intros Hx. destruct (base_Int_part x) as [_ Hgt].
  assert (IZR (-1) < IZR (Int_part x)) as Hlt by (simpl; lra).
  apply lt_IZR in Hlt. lia.
Qed.

(** C4. For an [int] [nBins >= 1] and positive [breakpoint], [dlog],
    [dlin], both copies of [twoStepSampling] return the same sequence:
    sample [0] first; then, for [k = 1..floor(breakpoint/dlin)], the sample
    [(k-0.5)*dlin]; then, for [k = 1..nBins-floor(breakpoint/dlin)-1], the
    sample [breakpoint*exp(ratio*(k-0.5))] with
    [ratio = ln((breakpoint+dlog)/breakpoint)]; and nothing else. The
    quotient [breakpoint/dlin] is the quotient of the two doubles as the
    machine rounds it, and its floor is taken to be an [int]. The
    tolerance [eps] of the copy in [src/baofit.cc] does not change the
    sequence. *)
Theorem twoStepSampling_sequence {Sign : DoubleDivisionSign D} (nBins : Z)
    (breakpoint dlog dlin : R) :
  (1 <= nBins <= int_max)%Z -> breakpoint > 0 -> dlog > 0 -> dlin > 0 ->
  (Int_part (fdiv breakpoint dlin) < int_max)%Z ->
  let nUniform := Int_part (fdiv breakpoint dlin) in
  let ratio := ln ((breakpoint + dlog) / breakpoint) in
  exists samplePoints : list R,
    boss_sampling.twoStepSampling nBins breakpoint dlog dlin = Ok samplePoints
    /\ (forall eps, eps > 0 ->
          main_sampling.twoStepSampling nBins breakpoint dlog dlin eps
          = Ok samplePoints)
    /\ (0 <= nUniform)%Z
    /\ samplePoints !! 0%nat = Some 0
    /\ (forall k, (1 <= k <= nUniform)%Z ->
          samplePoints !! Z.to_nat k = Some ((IZR k - 0.5) * dlin))
    /\ (forall k, (1 <= k <= nBins - nUniform - 1)%Z ->
          samplePoints !! Z.to_nat (nUniform + k)
          = Some (breakpoint * exp (ratio * (IZR k - 0.5))))
    /\ length samplePoints
       = Z.to_nat (1 + nUniform + Z.max 0 (nBins - nUniform - 1)).
Proof.
  intros HnBins Hbp Hdlog Hdlin Hint nUniform ratio.
  assert (0 <= nUniform)%Z as HnU.
  { apply Int_part_nonneg. apply fdiv_nonneg; lra. }
  exists (twoStepSampling_body nBins breakpoint dlog dlin).
  split; [|split; [|split; [exact HnU|]]].
  - unfold boss_sampling.twoStepSampling.
    rewrite !bool_decide_eq_true_2 by assumption. reflexivity.
  - intros eps Heps. unfold main_sampling.twoStepSampling.
    rewrite !bool_decide_eq_true_2 by assumption. reflexivity.
  - rewrite twoStepSampling_body_eq. fold nUniform. fold ratio.
    split; [reflexivity|]. split; [|split].
    + intros k Hk.
      replace (Z.to_nat k) with (S (Z.to_nat (k - 1))) by lia.
      simpl. rewrite lookup_app_l by (rewrite length_fmap, length_seqZ; lia).
      rewrite list_lookup_fmap, lookup_seqZ_lt by lia. simpl.
      replace (1 + Z.of_nat (Z.to_nat (k - 1)))%Z with k by lia. reflexivity.
    + intros k Hk.
      replace (Z.to_nat (nUniform + k))
        with (S (Z.to_nat nUniform + Z.to_nat (k - 1))) by lia.
      simpl.
      rewrite lookup_app_r by (rewrite length_fmap, length_seqZ; lia).
      rewrite length_fmap, length_seqZ.
      replace (Z.to_nat nUniform + Z.to_nat (k - 1) - Z.to_nat nUniform)%nat
        with (Z.to_nat (k - 1)) by lia.
      rewrite list_lookup_fmap, lookup_seqZ_lt by lia. simpl.
      replace (1 + Z.of_nat (Z.to_nat (k - 1)))%Z with k by lia. reflexivity.
    + simpl. rewrite length_app, !length_fmap, !length_seqZ. lia.
Qed.

End Sampling.

Lemma exactDivision_sign : DoubleDivisionSign exactDivision.
Proof.
  split. intros x y Hx Hy. simpl. apply Rlt_le, Rdiv_lt_0_compat; assumption.
Qed.

Lemma Int_part_5 : Int_part (0.5 / 0.1) = 5%Z.
Proof. replace (0.5 / 0.1) with (INR 5) by (simpl; lra). apply Int_part_INR. Qed.

Lemma twoStepSampling_sequence_witness :
  exists samplePoints : list R,
    @boss_sampling.twoStepSampling exactDivision 7 0.5 0.02 0.1
    = Ok samplePoints
    /\ samplePoints !! 0%nat = Some 0
    /\ samplePoints !! 5%nat = Some ((5 - 0.5) * 0.1)
    /\ samplePoints !! 6%nat
       = Some (0.5 * exp (ln ((0.5 + 0.02) / 0.5) * (1 - 0.5)))
    /\ length samplePoints = 7%nat.
Proof.
  destruct (@twoStepSampling_sequence exactDivision exactDivision_sign
              7 0.5 0.02 0.1)
    as (sp & Hboss & _ & _ & H0 & Hlin & Hlog & Hlen);
    [unfold int_max; lia | lra | lra | lra
    | simpl; rewrite Int_part_5; unfold int_max; lia |].
  simpl fdiv in Hlin, Hlog, Hlen. rewrite Int_part_5 in Hlin, Hlog, Hlen.
  exists sp. split; [exact Hboss|]. split; [exact H0|].
  split; [exact (Hlin 5%Z ltac:(lia))|].
  split; [exact (Hlog 1%Z ltac:(lia))|exact Hlen].
Defined.

(** Invalid parameters: one copy throws, the other fails its [assert]. *)
Lemma twoStepSampling_invalid {D : DoubleDivision} (nBins : Z)
    (breakpoint dlog dlin eps : R) :
  breakpoint <= 0 \/ dlog <= 0 \/ dlin <= 0 ->
  boss_sampling.twoStepSampling nBins breakpoint dlog dlin
  = Err (RuntimeError "twoStepSampling: invalid parameters.")
  /\ main_sampling.twoStepSampling nBins breakpoint dlog dlin eps
     = Err AssertionFailure.
Proof.
  intros H. unfold boss_sampling.twoStepSampling, main_sampling.twoStepSampling.
  assert (bool_decide (breakpoint > 0) && bool_decide (dlog > 0)
          && bool_decide (dlin > 0) = false) as ->; [|split; reflexivity].
  destruct H as [H|[H|H]].
  - rewrite (bool_decide_eq_false_2 (breakpoint > 0)) by lra. reflexivity.
  - rewrite (bool_decide_eq_false_2 (dlog > 0)) by lra.
    now rewrite andb_false_r.
  - rewrite (bool_decide_eq_false_2 (dlin > 0)) by lra.
    now rewrite andb_false_r.
Qed.

(** ** Coordinate transform *)

Lemma arcminToRad_PI : _arcminToRad = PI / (180 * 60).
Proof. unfold _arcminToRad. rewrite atan_1. field. Qed.

(** C5. For [sep <> 0], both transforms return [r = sqrt(los^2 +
    transverse^2)] and [mu = |los| / r], where [z1 = (z+1)/e^(ll/2) - 1],
    [z2 = (z+1)*e^(ll/2) - 1], [los] is the difference of the comoving
    distances to [z2] and [z1], and [transverse] is the transverse comoving
    scale at [z] times the area-weighted mean separation
    [sep + dsep^2/(12*sep)] taken from arc minutes to radians. *)
Theorem transform_formula {cosmology : AbsHomogeneousUniverse}
    (ll sep dsep z : R) :
  sep <> 0 ->
  let z1 := (z + 1) / exp (ll / 2) - 1 in
  let z2 := (z + 1) * exp (ll / 2) - 1 in
  let los :=
    getLineOfSightComovingDistance z2 - getLineOfSightComovingDistance z1 in
  let swgt := sep + dsep ^ 2 / (12 * sep) in
  let transverse := getTransverseComovingScale z * swgt * (PI / (180 * 60)) in
  let r := sqrt (los ^ 2 + transverse ^ 2) in
  transform ll sep dsep z = (r, Rabs los / r)
  /\ LyaData_transform ll sep z dsep = (r, Rabs los / r).
Proof.
  intros Hsep z1 z2 los swgt transverse r.
  assert (transform ll sep dsep z = (r, Rabs los / r)) as Ht.
  { unfold transform. rewrite arcminToRad_PI.
    replace (0.5 * ll) with (ll / 2) by lra.
    fold z1 z2 los.
    replace (sep + dsep * dsep / 12 / sep) with swgt
      by (unfold swgt; field; exact Hsep).
    replace (los * los
             + getTransverseComovingScale z * (swgt * (PI / (180 * 60)))
               * (getTransverseComovingScale z * (swgt * (PI / (180 * 60)))))
      with (los ^ 2 + transverse ^ 2) by (unfold transverse; ring).
    reflexivity. }
  split; [exact Ht|exact Ht].
Qed.

Lemma transform_formula_witness :
  1 <> 0 /\
  exists r : R,
    @transform unitUniverse 0 1 0 0
    = (r, Rabs ((0 + 1) * exp (0 / 2) - 1 - ((0 + 1) / exp (0 / 2) - 1)) / r).
Proof.
  split; [lra|].
  destruct (@transform_formula unitUniverse 0 1 0 0) as [Ht _]; [lra|].
  eexists. exact Ht.
Defined.

Section Lifecycle_facts.
Import LyaData Lifecycle.
Context {cosmology : AbsHomogeneousUniverse} {L : Lapack} {Sum : BinnedDataSum}.

Lemma new_Empty (ll sep z : AbsBinning) : Empty (new ll sep z).
Proof. repeat split. Qed.

Lemma reset_Empty (d : t) : Empty (reset d).
Proof. repeat split. Qed.

Lemma finalize_Finalized (fixCovariance : bool) (d d' : t) :
  finalize fixCovariance d = Ok d' -> Finalized d'.
Proof.
  unfold finalize. intros H.
  apply bind_Ok in H as (_ & _ & H).
  apply bind_Ok in H as (ct & _ & H).
  apply bind_Ok in H as (data & _ & H).
  apply bind_Ok in H as (d1 & _ & H).
  injection H as <-. split; reflexivity.
Qed.

(** C6. The aggregator's life cycle: [add] fails on a finalized dataset;
    [finalize] fails on a finalized dataset and on an empty one (a dataset
    that was only constructed or reset, whose [_covarianceTilde] is null);
    and a [finalize] that returns leaves the dataset finalized. *)
Theorem lifecycle_enforced :
  (forall (d other : t) (repeat : Z),
     Finalized d -> add other repeat d = Err AssertionFailure)
  /\ (forall (d : t) (fixCovariance : bool),
        Finalized d -> finalize fixCovariance d = Err AssertionFailure)
  /\ (forall (d : t) (fixCovariance : bool),
        Empty d -> finalize fixCovariance d = Err NullPointer)
  /\ (forall ll sep z, Empty (new ll sep z))
  /\ (forall d, Empty (reset d))
  /\ (forall (d d' : t) (fixCovariance : bool),
        finalize fixCovariance d = Ok d' -> Finalized d').
Proof.
  split; [|split; [|split; [|split; [|split]]]].
  - intros d other repeat [Hd _]. unfold add. rewrite Hd. reflexivity.
  - intros d fixCovariance [Hd _]. unfold finalize. rewrite Hd. reflexivity.
  - intros d fixCovariance (Hd & Hc & Hz & _ & _ & Ht).
    unfold finalize. rewrite Hd, Hc, Hz. simpl. rewrite Ht. reflexivity.
  - apply new_Empty.
  - apply reset_Empty.
  - intros d d' fixCovariance. apply finalize_Finalized.
Qed.

End Lifecycle_facts.

(** ** Packed symmetric storage *)

Lemma triangle_succ (c : nat) :
  ((S c * (S c + 1)) / 2 = (c * (c + 1)) / 2 + S c)%nat.
Proof.
  replace (S c * (S c + 1))%nat with (c * (c + 1) + S c * 2)%nat by lia.
  apply Nat.div_add. lia.
Qed.

Lemma triangle_mono (a b : nat) :
  (a <= b)%nat -> ((a * (a + 1)) / 2 <= (b * (b + 1)) / 2)%nat.
Proof. intros H. apply Nat.Div0.div_le_mono. nia. Qed.

Lemma symmetricIndex_sym (i j : nat) : symmetricIndex i j = symmetricIndex j i.
Proof.
  unfold symmetricIndex.
  destruct (decide (j <= i)%nat), (decide (i <= j)%nat); try reflexivity.
  - assert (i = j) as -> by lia. reflexivity.
  - lia.
Qed.

Lemma symmetricIndex_lt (n i j : nat) :
  (i < n)%nat -> (j < n)%nat -> (symmetricIndex i j < packedSize n)%nat.
Proof.
  assert (forall row col, (row <= col)%nat -> (col < n)%nat ->
            (row + (col * (col + 1)) / 2 < packedSize n)%nat) as Hle.
  { intros row col Hrc Hcn. unfold packedSize.
    pose proof (triangle_succ col) as Hs.
    pose proof (triangle_mono (S col) n ltac:(lia)) as Hm. lia. }
  intros Hi Hj. unfold symmetricIndex.
  destruct (decide (j <= i)%nat); apply Hle; lia.
Qed.

Lemma symmetricMultiply_length (n : nat) (m v : list R) :
  length (symmetricMultiply n m v) = n.
Proof. unfold symmetricMultiply. now rewrite length_fmap, length_seq. Qed.

(** ** [LyaData::add] *)

Section Add.
Import LyaData Lifecycle.
Context {cosmology : AbsHomogeneousUniverse} {L : Lapack} {Sum : BinnedDataSum}.

(** The loop [for(k = 0; k < nData; ++k) _icovData[k] += repeat*other._icovData[k]],
    started at [s] for [m] turns. *)
Lemma addWeighted_loop (repeat : Z) (other : list R) (m : nat) :
  forall (s : nat) (acc : list R),
    (s + m <= length acc)%nat -> (s + m <= length other)%nat ->
    exists acc',
      for_each (seq s m) (addWeighted repeat other) acc = Ok acc'
      /\ length acc' = length acc
      /\ (forall k a b, (s <= k < s + m)%nat ->
            acc !! k = Some a -> other !! k = Some b ->
            acc' !! k = Some (a + IZR repeat * b))
      /\ (forall k, ~ (s <= k < s + m)%nat -> acc' !! k = acc !! k).
Proof.
  induction m as [|m IH]; intros s acc Hacc Hother; simpl.
  - exists acc. repeat split; auto. intros; lia.
  - destruct (lookup_lt_is_Some_2 acc s ltac:(lia)) as [a Ha].
    destruct (lookup_lt_is_Some_2 other s ltac:(lia)) as [b Hb].
    unfold addWeighted at 1, at_, put. rewrite Ha, Hb. simpl.
    destruct (decide (s < length acc)%nat) as [_|]; [|lia].
    destruct (IH (S s) (<[s:=a + IZR repeat * b]> acc))
      as (acc' & Hrun & Hlen & Hin & Hout).
    { rewrite length_insert. lia. }
    { lia. }
    exists acc'. rewrite Hrun, Hlen, length_insert.
    split; [reflexivity|]. split; [reflexivity|]. split.
    + intros k a' b' Hk Ha' Hb'.
      destruct (decide (k = s)) as [->|Hne].
      * rewrite Hout by lia. rewrite list_lookup_insert_eq by lia. congruence.
      * apply Hin; [lia| |exact Hb'].
        rewrite list_lookup_insert_ne by lia. exact Ha'.
    + intros k Hk. destruct (decide (k = s)) as [->|Hne]; [lia|].
      rewrite Hout by lia. apply list_lookup_insert_ne. lia.
Qed.

Lemma getInverseCovariance_holds (n : nat) (c : CovarianceMatrix.t)
    (m : list R) (row col : nat) :
  holdsICov n c m -> (row < n)%nat -> (col < n)%nat ->
  exists a, m !! symmetricIndex row col = Some a
            /\ CovarianceMatrix.getInverseCovariance c row col = Ok a.
Proof.
  intros (Hsize & Hreads & Hlen) Hrow Hcol.
  pose proof (symmetricIndex_lt n row col Hrow Hcol) as Hidx.
  destruct (lookup_lt_is_Some_2 m (symmetricIndex row col) ltac:(lia)) as [a Ha].
  exists a. split; [exact Ha|].
  unfold CovarianceMatrix.getInverseCovariance, CovarianceMatrix.checkIndices.
  rewrite Hsize. destruct (decide (row < n /\ col < n)%nat); [|lia].
  simpl. rewrite Hreads. simpl. unfold at_. rewrite Ha. reflexivity.
Qed.

(** [addInverse] on two stores of the same size. *)
Lemma addInverse_holds (n : nat) (this other : CovarianceMatrix.t)
    (mine theirs : list R) (weight : R) :
  holdsICov n this mine -> holdsICov n other theirs ->
  exists c', CovarianceMatrix.addInverse this other weight = Ok c'
    /\ holdsICov n c' (zip_with (fun a b => a + weight * b) mine theirs).
Proof.
  intros (Hs1 & Hr1 & Hl1) (Hs2 & Hr2 & Hl2).
  unfold CovarianceMatrix.addInverse. rewrite Hs1, Hs2.
  destruct (decide (n = n)); [|congruence].
  rewrite Hr1, Hr2. simpl. eexists. split; [reflexivity|].
  split; [reflexivity|]. split; [reflexivity|].
  rewrite length_zip_with. lia.
Qed.

Lemma Plate_icovData_length (n : nat) (p : t) :
  Plate n p -> length (_icovData p) = n.
Proof.
  intros (_ & _ & _ & c & m & _ & _ & _ & ->).
  apply symmetricMultiply_length.
Qed.

(** The square of an [int] whose square is an [int]. *)
Lemma int_mul_small (repeat : Z) :
  (-46340 <= repeat <= 46340)%Z -> int_mul repeat repeat = (repeat * repeat)%Z.
Proof.
  intros H. unfold int_mul, int_wrap.
  rewrite Z.mod_small by nia. lia.
Qed.

(** C1. On a combined dataset that is accumulating [n]-bin plates, adding a
    finalized plate with [n] bins, [repeat] times with [repeat] an [int]
    whose square is an [int], returns, and: every [_icovData[k]] grows
    by [repeat] times the plate's; every element of the [icov] accumulator
    grows by [repeat^2] times the plate's inverse covariance; every element
    of the [icovTilde] accumulator grows by [repeat] times it. The dataset
    stays accumulating. [bd] is what [_binnedData += other._binnedData]
    leaves in the member that [add] also maintains. *)
Theorem add_accumulates (n : nat) (d other : t) (repeat : Z)
    (bd : BinnedData.t) :
  Accumulating n d -> Plate n other ->
  (-46340 <= repeat <= 46340)%Z ->
  plus_assign (_binnedData d) (_binnedData other) = Ok bd ->
  exists d',
    add other repeat d = Ok d'
    /\ Accumulating n d'
    /\ (forall k, (k < n)%nat ->
          exists a b, _icovData d !! k = Some a /\ _icovData other !! k = Some b
            /\ _icovData d' !! k = Some (a + IZR repeat * b))
    /\ (forall row col, (row < n)%nat -> (col < n)%nat ->
          exists a b, icov d row col = Ok a /\ icov other row col = Ok b
            /\ icov d' row col = Ok (a + IZR repeat ^ 2 * b))
    /\ (forall row col, (row < n)%nat -> (col < n)%nat ->
          exists a b, icovTilde d row col = Ok a /\ icov other row col = Ok b
            /\ icovTilde d' row col = Ok (a + IZR repeat * b)).
Proof.
  intros (Hdf & Hcf & Hz & Hn & Hdata & Hicov & (c & mc & Hc & Hmc)
          & (ct & mt & Hct & Hmt)) Hplate Hrepeat Hplus.
  pose proof (Plate_icovData_length n other Hplate) as Hlo.
  destruct Hplate as (Hodf & Hocf & Hodata & co & mo & Hco & Hmo & _ & _).
  destruct (addWeighted_loop repeat (_icovData other) n 0 (_icovData d))
    as (icovData & Hloop & Hlen & Hin & _); [lia|lia|].
  destruct (addInverse_holds n c co mc mo (IZR (repeat * repeat)) Hmc Hmo)
    as (c' & Hadd & Hc').
  destruct (addInverse_holds n ct co mt mo (IZR repeat) Hmt Hmo)
    as (ct' & Haddt & Hct').
  eexists. split.
  { unfold add. rewrite Hdf, Hcf, Hz, Hodf, Hocf. simpl.
    destruct (decide (0 = length (_data d))%nat) as [H0|_]; [lia|].
    unfold getNData. rewrite Hodata, Hdata.
    rewrite bool_decide_eq_true_2 by reflexivity. simpl.
    rewrite Hplus. simpl. rewrite Hloop. simpl.
    rewrite Hc, Hco. simpl. rewrite (int_mul_small repeat Hrepeat), Hadd. simpl.
    rewrite Hct. simpl. rewrite Haddt. simpl. reflexivity. }
  split.
  { repeat split; simpl; auto; try lia.
    - eexists c', _. split; [reflexivity|exact Hc'].
    - eexists ct', _. split; [reflexivity|exact Hct']. }
  split; [|split].
  - intros k Hk.
    destruct (lookup_lt_is_Some_2 (_icovData d) k ltac:(lia)) as [a Ha].
    destruct (lookup_lt_is_Some_2 (_icovData other) k ltac:(lia)) as [b Hb].
    exists a, b. split; [exact Ha|]. split; [exact Hb|].
    simpl. apply Hin; auto. lia.
  - intros row col Hrow Hcol.
    destruct (getInverseCovariance_holds n c mc row col Hmc Hrow Hcol)
      as (a & Ha & Hga).
    destruct (getInverseCovariance_holds n co mo row col Hmo Hrow Hcol)
      as (b & Hb & Hgb).
    destruct (getInverseCovariance_holds n c' _ row col Hc' Hrow Hcol)
      as (x & Hx & Hgx).
    exists a, b. unfold icov. simpl. rewrite Hc, Hco. simpl.
    split; [exact Hga|]. split; [exact Hgb|].
    rewrite Hgx. rewrite lookup_zip_with, Ha, Hb in Hx. simpl in Hx.
    injection Hx as <-. rewrite mult_IZR. f_equal. ring.
  - intros row col Hrow Hcol.
    destruct (getInverseCovariance_holds n ct mt row col Hmt Hrow Hcol)
      as (a & Ha & Hga).
    destruct (getInverseCovariance_holds n co mo row col Hmo Hrow Hcol)
      as (b & Hb & Hgb).
    destruct (getInverseCovariance_holds n ct' _ row col Hct' Hrow Hcol)
      as (x & Hx & Hgx).
    exists a, b. unfold icov, icovTilde. simpl. rewrite Hct, Hco. simpl.
    split; [exact Hga|]. split; [exact Hgb|].
    rewrite Hgx. rewrite lookup_zip_with, Ha, Hb in Hx. simpl in Hx.
    injection Hx as <-. reflexivity.
Qed.

End Add.

(** ** The first [add], and the combination of a single plate *)

Section Combination.
Import LyaData Lifecycle.
Context {cosmology : AbsHomogeneousUniverse} {L : Lapack} {Sum : BinnedDataSum}.

Lemma zip_with_zeros (f : R -> R -> R) (k : nat) (m : list R) :
  length m = k -> zip_with f (replicate k 0) m = f 0 <$> m.
Proof.
  intros <-. induction m as [|x m IH]; simpl; [reflexivity|].
  now rewrite IH.
Qed.

Lemma inverted_Ok (n : nat) (m m' : list R) :
  CovarianceMatrix.inverted n m = Ok m' <-> invert n m = Some m'.
Proof.
  unfold CovarianceMatrix.inverted.
  destruct (invert n m); split; intros H; congruence.
Qed.

(** The first plate added to an empty dataset: zeroed accumulators sized
    to the plate are allocated, and then updated like any other. *)
Lemma add_first (n : nat) (d p : t) (repeat : Z) :
  Empty d -> Plate n p ->
  exists d' c m,
    add p repeat d = Ok d'
    /\ _covariance p = Some c /\ holdsICov n c m
    /\ _dataFinalized d' = false /\ _covarianceFinalized d' = false
    /\ _compressed d' = false
    /\ _data d' = replicate n 0
    /\ _icovData d' = (fun b => 0 + IZR repeat * b) <$> _icovData p
    /\ _covariance d'
       = Some (CovarianceMatrix.mk n
                 (CovarianceMatrix.ICov
                    ((fun b => 0 + IZR (int_mul repeat repeat) * b) <$> m))
                 false)
    /\ _covarianceTilde d'
       = Some (CovarianceMatrix.mk n
                 (CovarianceMatrix.ICov ((fun b => 0 + IZR repeat * b) <$> m))
                 false).
Proof.
  intros (Hdf & Hcf & Hz & Hdata & _ & _) Hplate.
  pose proof (Plate_icovData_length n p Hplate) as Hlo.
  destruct Hplate as (Hodf & Hocf & Hodata & c & m & Hc & Hm & _ & _).
  destruct (addWeighted_loop repeat (_icovData p) n 0 (replicate n 0))
    as (icovData & Hloop & Hlen & Hin & _);
    [rewrite length_replicate; lia | lia |].
  rewrite length_replicate in Hlen.
  assert (icovData = (fun b => 0 + IZR repeat * b) <$> _icovData p) as ->.
  { apply list_eq. intros k. rewrite list_lookup_fmap.
    destruct (decide (k < n)%nat) as [Hk|Hk].
    - destruct (lookup_lt_is_Some_2 (_icovData p) k ltac:(lia)) as [b Hb].
      rewrite Hb. simpl. apply Hin; [lia| |exact Hb].
      apply lookup_replicate_2. exact Hk.
    - rewrite (lookup_ge_None_2 icovData) by lia.
      now rewrite (lookup_ge_None_2 (_icovData p)) by lia. }
  destruct Hm as (Hsize & Hreads & Hlm).
  eexists _, c, m. split.
  { unfold add. rewrite Hdf, Hcf, Hz, Hodf, Hocf, Hdata. simpl.
    unfold getNData. rewrite Hodata. rewrite Hloop. simpl.
    rewrite Hc. simpl.
    unfold CovarianceMatrix.addInverse. simpl. rewrite Hsize.
    destruct (decide (n = n)); [|congruence].
    rewrite Hreads. simpl. reflexivity. }
  unfold CovarianceMatrix.zeros.
  rewrite (zip_with_zeros (fun a b => a + IZR repeat * b) _ m Hlm).
  rewrite (zip_with_zeros (fun a b => a + IZR (int_mul repeat repeat) * b)
             _ m Hlm).
  split; [exact Hc|].
  split; [split; [exact Hsize|split; [exact Hreads|exact Hlm]]|].
  split; [exact Hdf|]. split; [exact Hcf|]. split; [exact Hz|].
  split; [reflexivity|]. split; [reflexivity|]. split; reflexivity.
Qed.


End Combination.

(** ** The small inverse is exact; the aggregator at one bin *)

Lemma smallInvert_Some (n : nat) (m m' : list R) :
  smallInvert n m = Some m' ->
  (n = 1%nat /\ exists a, m = [a] /\ 0 < a /\ m' = [/ a])
  \/ (n = 2%nat /\ exists a b c,
        m = [a; b; c] /\ 0 < a /\ 0 < a * c - b * b
        /\ m' = [c / (a * c - b * b); - b / (a * c - b * b);
                 a / (a * c - b * b)]).
Proof.
  unfold smallInvert. intros H.
  destruct n as [|[|[|n]]]; try discriminate.
  - destruct m as [|a [|b m]]; try discriminate.
    destruct (decide (0 < a)); [|discriminate]. injection H as <-.
    left. eauto.
  - destruct m as [|a [|b [|c [|x m]]]]; try discriminate.
    destruct (decide _) as [[Ha Hd]|]; [|discriminate]. injection H as <-.
    right. split; [reflexivity|]. exists a, b, c. auto.
Qed.

Lemma symmetricMultiply_1 (a x : R) :
  symmetricMultiply 1 [a] [x] = [a * x + 0].
Proof. reflexivity. Qed.

Lemma symmetricMultiply_2 (a b c x y : R) :
  symmetricMultiply 2 [a; b; c] [x; y]
  = [a * x + (b * y + 0); b * x + (c * y + 0)].
Proof. reflexivity. Qed.

Lemma smallLapack_exact : LapackExact smallLapack.
Proof.
  split; simpl.
  - intros n m m' v H Hv.
    destruct (smallInvert_Some n m m' H)
      as [(-> & a & -> & Ha & ->)|(-> & a & b & c & -> & Ha & Hd & ->)].
    + destruct v as [|x [|y v]]; try discriminate.
      rewrite !symmetricMultiply_1. f_equal. field. lra.
    + destruct v as [|x [|y [|z v]]]; try discriminate.
      rewrite !symmetricMultiply_2. f_equal; [|f_equal]; field; lra.
  - intros n m m' H.
    destruct (smallInvert_Some n m m' H)
      as [(-> & a & -> & Ha & ->)|(-> & a & b & c & -> & Ha & Hd & ->)].
    + simpl. pose proof (Rinv_0_lt_compat a Ha).
      destruct (decide (0 < / a)); [|lra]. now rewrite Rinv_inv.
    + simpl. set (det := a * c - b * b) in *.
      assert (0 < c) as Hc by (unfold det in Hd; nra).
      assert (c / det * (a / det) - - b / det * (- b / det) = / det) as Hdet
        by (unfold det; field; unfold det in Hd; lra).
      rewrite Hdet.
      pose proof (Rinv_0_lt_compat det Hd).
      pose proof (Rdiv_lt_0_compat c det Hc Hd).
      destruct (decide _) as [_|Hno]; [|exfalso; apply Hno; split; lra].
      f_equal. f_equal; [|f_equal; [|f_equal]]; unfold det; field;
        unfold det in Hd; lra.
  - intros n m m' H.
    destruct (smallInvert_Some n m m' H)
      as [(-> & a & -> & Ha & ->)|(-> & a & b & c & -> & Ha & Hd & ->)];
      reflexivity.
Qed.

Lemma plate1_Plate : @Lifecycle.Plate smallLapack 1 plate1.
Proof.
  split; [reflexivity|]. split; [reflexivity|]. split; [reflexivity|].
  exists (CovarianceMatrix.mk 1 (CovarianceMatrix.ICov [1]) true), [1].
  split; [reflexivity|]. split; [repeat split|].
  split; [discriminate|reflexivity].
Qed.


Lemma combined1_Accumulating : @Lifecycle.Accumulating smallLapack 1 combined1.
Proof.
  split; [reflexivity|]. split; [reflexivity|]. split; [reflexivity|].
  split; [lia|]. split; [reflexivity|]. split; [reflexivity|]. split.
  - exists (CovarianceMatrix.mk 1 (CovarianceMatrix.ICov [5]) false), [5].
    repeat split.
  - exists (CovarianceMatrix.mk 1 (CovarianceMatrix.ICov [3]) false), [3].
    repeat split.
Qed.

Lemma add_accumulates_witness :
  exists d',
    @LyaData.add smallLapack keepLeft plate1 2 combined1 = Ok d'
    /\ LyaData._icovData d' !! 0%nat
       = Some (7 + IZR 2 * (1 * 2 + 0)).
Proof.
  destruct (@add_accumulates smallLapack keepLeft 1 combined1 plate1 2
              (LyaData._binnedData combined1)
              combined1_Accumulating plate1_Plate ltac:(lia) eq_refl)
    as (d' & Hadd & _ & Hdata & _).
  exists d'. split; [exact Hadd|].
  destruct (Hdata 0%nat ltac:(lia)) as (a & b & Ha & Hb & Hk).
  injection Ha as <-. injection Hb as <-. exact Hk.
Defined.


(** ** Covariance entries of a binned dataset *)

Section Entries.
Context {L : Lapack}.

Lemma getOffsetForIndex_Ok (bd : BinnedData.t) (index : Z) (offset : nat) :
  BinnedData.getOffsetForIndex bd index = Ok offset ->
  BinnedData.bd_index bd !! offset = Some index.
Proof.
  unfold BinnedData.getOffsetForIndex.
  destruct (list_find _ _) as [[o i]|] eqn:Hfind; [|discriminate].
  intros H. injection H as <-.
  apply list_find_Some in Hfind as (Hlook & -> & _). exact Hlook.
Qed.

Lemma getOffsetForIndex_lookup (bd : BinnedData.t) (index : Z) (offset : nat) :
  NoDup (BinnedData.bd_index bd) ->
  BinnedData.bd_index bd !! offset = Some index ->
  BinnedData.getOffsetForIndex bd index = Ok offset.
Proof.
  intros Hnodup Hlook. unfold BinnedData.getOffsetForIndex.
  destruct (list_find _ _) as [[o i]|] eqn:Hfind.
  - apply list_find_Some in Hfind as (Hlook' & -> & _).
    now rewrite (NoDup_lookup _ _ _ _ Hnodup Hlook Hlook').
  - exfalso. apply list_find_None in Hfind.
    rewrite Forall_forall in Hfind.
    apply (Hfind index); [|reflexivity].
    apply list_elem_of_lookup. eauto.
Qed.

Lemma getOffsetForIndex_withStore (bd : BinnedData.t) (c : CovarianceMatrix.t)
    (index : Z) :
  BinnedData.getOffsetForIndex (BinnedData.withStore bd c) index
  = BinnedData.getOffsetForIndex bd index.
Proof. reflexivity. Qed.




End Entries.

(** ** Stores filled from one kind of file *)

Section Ready.
Context {L : Lapack}.

Lemma ready_reads (icov : bool) (n : nat) (c : CovarianceMatrix.t) :
  ready icov n c ->
  exists m, reads icov c = Ok m /\ length m = packedSize n.
Proof.
  intros [Hsize Helems]. unfold reads, CovarianceMatrix.readsICov,
    CovarianceMatrix.readsCov.
  destruct (CovarianceMatrix.elems c) as [|m|m].
  - exists (CovarianceMatrix.zeros n). rewrite Hsize.
    split; [destruct icov; reflexivity|].
    unfold CovarianceMatrix.zeros. apply length_replicate.
  - destruct Helems as [-> Hlen]. eauto.
  - destruct Helems as [-> Hlen]. eauto.
Qed.

Lemma ready_read (icov : bool) (n : nat) (c : CovarianceMatrix.t)
    (m : list R) (row col : nat) :
  CovarianceMatrix.size c = n -> reads icov c = Ok m ->
  length m = packedSize n -> (row < n)%nat -> (col < n)%nat ->
  exists a, m !! symmetricIndex row col = Some a /\ read icov c row col = Ok a.
Proof.
  intros Hsize Hreads Hlen Hrow Hcol.
  pose proof (symmetricIndex_lt n row col Hrow Hcol) as Hidx.
  destruct (lookup_lt_is_Some_2 m (symmetricIndex row col) ltac:(lia)) as [a Ha].
  exists a. split; [exact Ha|].
  unfold read, reads in *.
  unfold CovarianceMatrix.getInverseCovariance, CovarianceMatrix.getCovariance,
    CovarianceMatrix.checkIndices.
  rewrite Hsize. destruct (decide (row < n /\ col < n)%nat); [|lia].
  destruct icov; simpl; rewrite Hreads; simpl; unfold at_; now rewrite Ha.
Qed.

Lemma ready_write (icov : bool) (n : nat) (c : CovarianceMatrix.t)
    (m : list R) (row col : nat) (value : R) :
  CovarianceMatrix.size c = n -> reads icov c = Ok m ->
  length m = packedSize n -> (row < n)%nat -> (col < n)%nat ->
  write icov c row col value
  = Ok (CovarianceMatrix.mk n
          (holding icov (<[symmetricIndex row col:=value]> m)) false).
Proof.
  intros Hsize Hreads Hlen Hrow Hcol.
  pose proof (symmetricIndex_lt n row col Hrow Hcol) as Hidx.
  unfold write, reads in *.
  unfold CovarianceMatrix.setInverseCovariance, CovarianceMatrix.setCovariance,
    CovarianceMatrix.checkIndices.
  rewrite Hsize. destruct (decide (row < n /\ col < n)%nat); [|lia].
  destruct icov; simpl; rewrite Hreads; simpl; unfold put;
    (destruct (decide _); [|lia]); reflexivity.
Qed.

Lemma ready_holding (icov : bool) (n : nat) (m : list R) :
  length m = packedSize n ->
  ready icov n (CovarianceMatrix.mk n (holding icov m) false)
  /\ reads icov (CovarianceMatrix.mk n (holding icov m) false) = Ok m.
Proof.
  intros Hlen. destruct icov; repeat split; assumption.
Qed.

Lemma storeReady_ready (icov : bool) (bd : BinnedData.t) :
  storeReady icov bd
  <-> ready icov (BinnedData.getNBinsWithData bd) (BinnedData.store bd).
Proof.
  unfold storeReady, ready. split; intros [Hsize H]; (split; [exact Hsize|]);
    rewrite Hsize in *; exact H.
Qed.

(** A dataset with no covariance written yet is ready for either kind. *)
Lemma storeReady_fresh (icov : bool) (bd : BinnedData.t) :
  BinnedData.bd_covariance bd = None -> storeReady icov bd.
Proof.
  intros H. unfold storeReady, BinnedData.store. rewrite H. now split.
Qed.

Lemma symmetricIndex_diag_lt (a b : nat) :
  (a < b)%nat -> (symmetricIndex a a < symmetricIndex b b)%nat.
Proof.
  intros H. unfold symmetricIndex.
  destruct (decide (a <= a)%nat); [|lia]. destruct (decide (b <= b)%nat); [|lia].
  pose proof (triangle_mono a b ltac:(lia)). lia.
Qed.

Lemma symmetricIndex_diag_inj (a b : nat) :
  symmetricIndex a a = symmetricIndex b b -> a = b.
Proof.
  intros H. destruct (Nat.lt_trichotomy a b) as [Hlt|[Heq|Hgt]]; [|exact Heq|].
  - pose proof (symmetricIndex_diag_lt a b Hlt). lia.
  - pose proof (symmetricIndex_diag_lt b a Hgt). lia.
Qed.

(** Storing an entry succeeds on a ready store when both offsets name bins
    with data, and leaves the store ready. *)
Lemma addCovarianceEntry_ready (icov : bool) (offset1 offset2 : Z) (value : R)
    (bd : BinnedData.t) :
  NoDup (BinnedData.bd_index bd) -> storeReady icov bd ->
  (0 <= offset1 < Z.of_nat (BinnedData.getNBinsWithData bd))%Z ->
  (0 <= offset2 < Z.of_nat (BinnedData.getNBinsWithData bd))%Z ->
  exists bd',
    addCovarianceEntry icov offset1 offset2 value bd = Ok bd'
    /\ BinnedData.bd_index bd' = BinnedData.bd_index bd
    /\ BinnedData.bd_data bd' = BinnedData.bd_data bd
    /\ storeReady icov bd'.
Proof.
  intros Hnodup Hready H1 H2. unfold BinnedData.getNBinsWithData in *.
  destruct (lookup_lt_is_Some_2 (BinnedData.bd_index bd) (Z.to_nat offset1)
              ltac:(lia)) as [index1 Hi1].
  destruct (lookup_lt_is_Some_2 (BinnedData.bd_index bd) (Z.to_nat offset2)
              ltac:(lia)) as [index2 Hi2].
  apply storeReady_ready in Hready.
  destruct (ready_reads _ _ _ Hready) as (m & Hreads & Hlen).
  destruct Hready as [Hsize _].
  pose proof (ready_write icov _ _ m (Z.to_nat offset1) (Z.to_nat offset2)
                (if icov then - value else value) Hsize Hreads Hlen) as Hwrite.
  unfold BinnedData.getNBinsWithData in Hwrite.
  specialize (Hwrite ltac:(lia) ltac:(lia)).
  exists (BinnedData.withStore bd
            (CovarianceMatrix.mk (length (BinnedData.bd_index bd))
               (holding icov
                  (<[symmetricIndex (Z.to_nat offset1) (Z.to_nat offset2)
                     :=if icov then - value else value]> m)) false)).
  split.
  { unfold addCovarianceEntry, BinnedData.indexAt, at_.
    destruct (decide (0 <= offset1)%Z); [|lia].
    destruct (decide (0 <= offset2)%Z); [|lia].
    rewrite Hi1, Hi2. simpl.
    unfold write in Hwrite.
    unfold BinnedData.setInverseCovariance, BinnedData.setCovariance.
    rewrite (getOffsetForIndex_lookup bd index1 _ Hnodup Hi1).
    rewrite (getOffsetForIndex_lookup bd index2 _ Hnodup Hi2). simpl.
    destruct icov; rewrite Hwrite; simpl; reflexivity. }
  split; [reflexivity|]. split; [reflexivity|].
  apply storeReady_ready. simpl.
  apply ready_holding. rewrite length_insert. exact Hlen.
Qed.

End Ready.

(** ** Zeros on the diagonal *)

Section ZeroDiagonal.
Context {L : Lapack}.

Lemma stored_read (icov : bool) (bd : BinnedData.t) (index1 index2 : Z)
    (row col : nat) :
  BinnedData.getOffsetForIndex bd index1 = Ok row ->
  BinnedData.getOffsetForIndex bd index2 = Ok col ->
  stored icov bd index1 index2 = read icov (BinnedData.store bd) row col.
Proof.
  intros Hrow Hcol. unfold stored, read, BinnedData.getInverseCovariance,
    BinnedData.getCovariance.
  rewrite Hrow, Hcol. destruct icov; reflexivity.
Qed.

(** One turn of the loop, on the bin at offset [o]. *)
Lemma checkZeroDiagonal_turn (icov : bool) (bd : BinnedData.t) (m : list R)
    (o : nat) (i : Z) :
  NoDup (BinnedData.bd_index bd) -> storeReady icov bd ->
  reads icov (BinnedData.store bd) = Ok m ->
  BinnedData.bd_index bd !! o = Some i ->
  exists bd' v,
    m !! symmetricIndex o o = Some v
    /\ checkZeroDiagonal icov i bd = Ok bd'
    /\ BinnedData.bd_index bd' = BinnedData.bd_index bd
    /\ BinnedData.bd_data bd' = BinnedData.bd_data bd
    /\ storeReady icov bd'
    /\ reads icov (BinnedData.store bd')
       = Ok (if decide (0 = v)
             then <[symmetricIndex o o:=sentinel icov]> m else m).
Proof.
  intros Hnodup Hready Hreads Hlook.
  pose proof Hready as Hready'. apply storeReady_ready in Hready'.
  destruct (ready_reads _ _ _ Hready') as (m0 & Hreads0 & Hlen).
  rewrite Hreads in Hreads0. injection Hreads0 as <-.
  destruct Hready' as [Hsize _].
  assert (o < BinnedData.getNBinsWithData bd)%nat as Ho
    by (apply lookup_lt_Some in Hlook; exact Hlook).
  destruct (ready_read icov _ _ m o o Hsize Hreads Hlen Ho Ho) as (v & Hv & Hread).
  pose proof (getOffsetForIndex_lookup bd i o Hnodup Hlook) as Hoff.
  pose proof (stored_read icov bd i i o o Hoff Hoff) as Hstored.
  rewrite Hread in Hstored.
  pose proof (ready_write icov _ _ m o o (sentinel icov) Hsize Hreads Hlen Ho Ho)
    as Hwrite.
  destruct (decide (0 = v)) as [Hz|Hnz].
  - exists (BinnedData.withStore bd
              (CovarianceMatrix.mk (BinnedData.getNBinsWithData bd)
                 (holding icov (<[symmetricIndex o o:=sentinel icov]> m)) false)), v.
    split; [exact Hv|]. split.
    { unfold checkZeroDiagonal. unfold stored in Hstored.
      unfold write, sentinel in Hwrite.
      unfold BinnedData.setInverseCovariance, BinnedData.setCovariance.
      destruct icov; rewrite Hstored; simpl;
        (destruct (decide (0 = v)); [|contradiction]);
        rewrite Hoff; simpl; rewrite Hwrite; reflexivity. }
    split; [reflexivity|]. split; [reflexivity|].
    assert (length (<[symmetricIndex o o:=sentinel icov]> m)
            = packedSize (BinnedData.getNBinsWithData bd)) as Hlen'
      by (rewrite length_insert; exact Hlen).
    destruct (ready_holding icov _ _ Hlen') as [Hr Hrd].
    split; [apply storeReady_ready; exact Hr|].
    destruct (decide (0 = v)); [exact Hrd|contradiction].
  - exists bd, v. split; [exact Hv|]. split.
    { unfold checkZeroDiagonal. unfold stored in Hstored.
      destruct icov; rewrite Hstored; simpl;
        (destruct (decide (0 = v)); [contradiction|]); reflexivity. }
    split; [reflexivity|]. split; [reflexivity|].
    split; [exact Hready|].
    destruct (decide (0 = v)); [contradiction|exact Hreads].
Qed.

(** The loop over the bins of [todo]. *)
Lemma checkZeroDiagonal_loop (icov : bool) (todo : list Z) :
  forall (bd : BinnedData.t) (m : list R),
    NoDup (BinnedData.bd_index bd) -> storeReady icov bd ->
    reads icov (BinnedData.store bd) = Ok m ->
    (forall i, i ∈ todo -> i ∈ BinnedData.bd_index bd) -> NoDup todo ->
    exists bd' m',
      for_each todo (checkZeroDiagonal icov) bd = Ok bd'
      /\ BinnedData.bd_index bd' = BinnedData.bd_index bd
      /\ BinnedData.bd_data bd' = BinnedData.bd_data bd
      /\ storeReady icov bd'
      /\ reads icov (BinnedData.store bd') = Ok m'
      /\ length m' = length m
      /\ (forall o i v,
            BinnedData.bd_index bd !! o = Some i ->
            m !! symmetricIndex o o = Some v ->
            m' !! symmetricIndex o o
            = Some (if decide (i ∈ todo) then replaced icov v else v)).
Proof.
  induction todo as [|i0 rest IH]; intros bd m Hnodup Hready Hreads Hsub Htodo.
  - exists bd, m. simpl.
    split; [reflexivity|]. split; [reflexivity|]. split; [reflexivity|].
    split; [exact Hready|]. split; [exact Hreads|]. split; [reflexivity|].
    intros o i v _ Hv. destruct (decide (i ∈ [])) as [Hin|_]; [|exact Hv].
    inversion Hin.
  - apply NoDup_cons in Htodo as [Hnotin Hrest].
    destruct (proj1 (list_elem_of_lookup _ _) (Hsub i0 ltac:(left)))
      as [o0 Ho0].
    destruct (checkZeroDiagonal_turn icov bd m o0 i0 Hnodup Hready Hreads Ho0)
      as (bd1 & v0 & Hv0 & Hturn & Hidx1 & Hdata1 & Hready1 & Hreads1).
    destruct (IH bd1 _ ltac:(rewrite Hidx1; exact Hnodup) Hready1 Hreads1)
      as (bd' & m' & Hrun & Hidx' & Hdata' & Hready' & Hreads' & Hlen' & Hm');
      [intros i Hi; rewrite Hidx1; apply Hsub; right; exact Hi | exact Hrest |].
    exists bd', m'. simpl. rewrite Hturn.
    split; [exact Hrun|]. split; [congruence|]. split; [congruence|].
    split; [exact Hready'|]. split; [exact Hreads'|].
    split; [rewrite Hlen'; destruct (decide (0 = v0));
            [apply length_insert|reflexivity]|].
    intros o i v Ho Hv. rewrite Hidx1 in Hm'.
    destruct (decide (o = o0)) as [->|Hne].
    + assert (i = i0) as -> by congruence.
      assert (v = v0) as -> by congruence.
      rewrite (Hm' o0 i0 (replaced icov v0) Ho0).
      * destruct (decide (i0 ∈ rest)); [contradiction|].
        destruct (decide (i0 ∈ i0 :: rest)) as [_|Hno]; [reflexivity|].
        exfalso. apply Hno. left.
      * unfold replaced. destruct (decide (0 = v0)); [|exact Hv0].
        apply list_lookup_insert_eq. apply lookup_lt_Some in Hv0. exact Hv0.
    + assert (i <> i0) as Hi.
      { intros ->. apply Hne. apply (NoDup_lookup _ _ _ _ Hnodup Ho Ho0). }
      rewrite (Hm' o i v Ho).
      * destruct (decide (i ∈ rest)) as [Hin|Hout];
          destruct (decide (i ∈ i0 :: rest)) as [Hin'|Hout'];
          try reflexivity.
        -- exfalso. apply Hout'. right. exact Hin.
        -- exfalso. apply elem_of_cons in Hin' as [?|?]; contradiction.
      * destruct (decide (0 = v0)); [|exact Hv].
        rewrite list_lookup_insert_ne; [exact Hv|].
        intros Heq. apply Hne. symmetry.
        apply symmetricIndex_diag_inj. exact Heq.
Qed.


End ZeroDiagonal.

(** ** [LyaData::prune] *)

Section Prune.
Import LyaData.
Context {L : Lapack}.

Lemma getBinCenters_first (bd : BinnedData.t) (index : Z) :
  at_ (BinnedData.getBinCenters bd index) 0 = Ok (llCenter bd index).
Proof. reflexivity. Qed.

(** One turn of the loop at an offset that holds a bin and a radius. *)
Lemma pruneStep_turn (rmin rmax llmin : R) (d : t) (offset : nat)
    (keep : gset Z) (index : Z) (r : R) :
  BinnedData.bd_index (_binnedData d) !! offset = Some index ->
  _r3d d !! offset = Some r ->
  pruneStep rmin rmax llmin d offset keep
  = Ok (if decide (rmin <= r /\ r < rmax /\ llmin <= llCenter (_binnedData d) index)
        then {[index]} ∪ keep else keep).
Proof.
  intros Hindex Hr. unfold pruneStep, BinnedData.getIndexAtOffset, getRadius, at_.
  rewrite Hindex. simpl. rewrite Hr. simpl.
  unfold llCenter, BinnedData.getBinIndices. simpl.
  destruct (decide _) as [(H1 & H2 & H3)|Hno].
  - rewrite !bool_decide_eq_true_2 by lra. reflexivity.
  - destruct (decide (r >= rmin)) as [H1|H1];
      [|rewrite (bool_decide_eq_false_2 _ H1); reflexivity].
    destruct (decide (r < rmax)) as [H2|H2];
      [|rewrite (bool_decide_eq_false_2 _ H2), andb_false_r; reflexivity].
    match goal with |- context [bool_decide (?x >= llmin)] =>
      destruct (decide (x >= llmin)) as [H3|H3];
        [|rewrite (bool_decide_eq_false_2 _ H3), andb_false_r; reflexivity]
    end.
    exfalso. apply Hno. repeat split; lra.
Qed.

(** The loop, started at offset [s] for [m] turns. *)
Lemma pruneStep_loop (rmin rmax llmin : R) (d : t) (m : nat) :
  forall (s : nat) (keep : gset Z),
    (s + m <= length (BinnedData.bd_index (_binnedData d)))%nat ->
    (s + m <= length (_r3d d))%nat ->
    exists keep',
      for_each (seq s m) (pruneStep rmin rmax llmin d) keep = Ok keep'
      /\ forall b, b ∈ keep' <->
           b ∈ keep
           \/ exists offset, (s <= offset < s + m)%nat
                             /\ keptAt rmin rmax llmin d b offset.
Proof.
  induction m as [|m IH]; intros s keep Hidx Hr3d; simpl.
  - exists keep. split; [reflexivity|]. intros b. split; [auto|].
    intros [H|(offset & Ho & _)]; [exact H|lia].
  - destruct (lookup_lt_is_Some_2 (BinnedData.bd_index (_binnedData d)) s
                ltac:(lia)) as [index Hindex].
    destruct (lookup_lt_is_Some_2 (_r3d d) s ltac:(lia)) as [r Hr].
    rewrite (pruneStep_turn rmin rmax llmin d s keep index r Hindex Hr).
    destruct (IH (S s)
                (if decide (rmin <= r /\ r < rmax
                            /\ llmin <= llCenter (_binnedData d) index)
                 then {[index]} ∪ keep else keep))
      as (keep' & Hrun & Hkeep'); [lia|lia|].
    exists keep'. split; [exact Hrun|].
    intros b. rewrite Hkeep'. split.
    + intros [Hb|(offset & Ho & Hk)].
      * destruct (decide _) as [Hcut|_]; [|left; exact Hb].
        apply elem_of_union in Hb as [Hb|Hb]; [|left; exact Hb].
        apply elem_of_singleton in Hb as ->.
        right. exists s. split; [lia|]. exists r. tauto.
      * right. exists offset. split; [lia|exact Hk].
    + intros [Hb|(offset & Ho & Hk)].
      * left. destruct (decide _); [apply elem_of_union; right|]; exact Hb.
      * destruct (decide (offset = s)) as [->|Hne].
        -- left. destruct Hk as (r' & Hi' & Hr' & Hcut).
           rewrite Hindex in Hi'. injection Hi' as ->.
           rewrite Hr in Hr'. injection Hr' as ->.
           destruct (decide _) as [_|Hno]; [|tauto].
           apply elem_of_union. left. now apply elem_of_singleton.
        -- right. exists offset. split; [lia|exact Hk].
Qed.

Lemma kept_has_data (rmin rmax llmin : R) (d : t) (b : Z) :
  kept rmin rmax llmin d b -> b ∈ BinnedData.bd_index (_binnedData d).
Proof.
  intros (offset & r & Hindex & _). apply list_elem_of_lookup. eauto.
Qed.

Lemma prune_index (bd bd' : BinnedData.t) (keep : gset Z) :
  BinnedData.prune bd keep = Ok bd' ->
  BinnedData.bd_index bd'
  = filter (fun index => index ∈ keep) (BinnedData.bd_index bd).
Proof.
  unfold BinnedData.prune. intros H.
  apply bind_Ok in H as (c & _ & H). injection H as <-. reflexivity.
Qed.

(** [prune(rmin,rmax,llmin)] on a dataset that caches one radius per bin
    with data: the set [keep] it builds, and the bins with data it leaves,
    are the bins whose cached radius and wavelength-ratio center pass the
    cuts. *)
Lemma prune_cached_radii (rmin rmax llmin : R) (d : t) :
  length (_r3d d) = BinnedData.getNBinsWithData (_binnedData d) ->
  exists keep,
    pruneKeep rmin rmax llmin d = Ok keep
    /\ (forall b, b ∈ keep <-> kept rmin rmax llmin d b)
    /\ (forall d', prune rmin rmax llmin d = Ok d' ->
          forall b, b ∈ BinnedData.bd_index (_binnedData d')
                    <-> kept rmin rmax llmin d b)
    /\ ((forall c, BinnedData.bd_covariance (_binnedData d) = Some c ->
           exists m, CovarianceMatrix.readsCov c = Ok m) ->
        exists d', prune rmin rmax llmin d = Ok d')
    /\ (forall b offset, _r3d d !! offset = Some rmax ->
          ~ keptAt rmin rmax llmin d b offset)
    /\ (forall b offset,
          BinnedData.bd_index (_binnedData d) !! offset = Some b ->
          _r3d d !! offset = Some rmin -> rmin < rmax ->
          llmin <= llCenter (_binnedData d) b ->
          keptAt rmin rmax llmin d b offset)
    /\ (forall b offset r,
          BinnedData.bd_index (_binnedData d) !! offset = Some b ->
          _r3d d !! offset = Some r -> rmin <= r < rmax ->
          llCenter (_binnedData d) b = llmin ->
          keptAt rmin rmax llmin d b offset).
Proof.
  intros Hlen. unfold BinnedData.getNBinsWithData in Hlen.
  destruct (pruneStep_loop rmin rmax llmin d
              (length (BinnedData.bd_index (_binnedData d))) 0 ∅)
    as (keep & Hrun & Hkeep); [lia|lia|].
  assert (forall b, b ∈ keep <-> kept rmin rmax llmin d b) as Hiff.
  { intros b. rewrite Hkeep. split.
    - intros [Hb|(offset & _ & Hk)]; [inversion Hb|]. exists offset. exact Hk.
    - intros (offset & Hk). right. exists offset. split; [|exact Hk].
      destruct Hk as (r & Hindex & _). apply lookup_lt_Some in Hindex. lia. }
  exists keep. split; [exact Hrun|]. split; [exact Hiff|].
  split; [|split; [|split; [|split]]].
  - intros d' Hprune b. unfold prune in Hprune.
    unfold pruneKeep, BinnedData.getNBinsWithData in Hrun.
    unfold pruneKeep, BinnedData.getNBinsWithData in Hprune.
    rewrite Hrun in Hprune. simpl in Hprune.
    apply bind_Ok in Hprune as (bd' & Hbd' & Hd'). injection Hd' as <-.
    simpl. rewrite (prune_index _ _ _ Hbd'), list_elem_of_filter, Hiff.
    split; [tauto|]. intros Hk. split; [exact Hk|].
    apply (kept_has_data _ _ _ _ _ Hk).
  - intros Hcov. unfold prune.
    unfold pruneKeep, BinnedData.getNBinsWithData in Hrun.
    unfold pruneKeep, BinnedData.getNBinsWithData. rewrite Hrun. simpl.
    unfold BinnedData.prune, BinnedData.prunedStore.
    destruct (BinnedData.bd_covariance (_binnedData d)) as [c|] eqn:Hc.
    + destruct (Hcov c eq_refl) as [m Hm]. rewrite Hm. simpl. eauto.
    + simpl. eauto.
  - intros b offset Hr (r & _ & Hr' & _ & Hlt & _).
    rewrite Hr in Hr'. injection Hr' as <-. lra.
  - intros b offset Hindex Hr Hlt Hll. exists rmin. repeat split; auto; lra.
  - intros b offset r Hindex Hr Hcut Hll. exists r. repeat split; auto; lra.
Qed.

End Prune.




(** ** The errors of [boss::loadCosmolib] *)

Section LoaderErrors.
Context {L : Lapack} {G : LineGrammar}.

Lemma loadCosmolib_params_unopenable (fs : files) (dataName : string)
    (prototype : BinnedData.t) (verbose icov weighted checkPosDef : bool) :
  fs !! (dataName +:+ ".params") = None ->
  boss.loadCosmolib fs dataName prototype verbose icov weighted checkPosDef
  = Err (RuntimeError ("loadCosmolib: Unable to open " +:+ dataName +:+ ".params")).
Proof.
  intros H. unfold boss.loadCosmolib, openFile. rewrite H. reflexivity.
Qed.

Lemma loadCosmolib_cov_unopenable (fs : files) (dataName : string)
    (prototype : BinnedData.t) (verbose icov weighted checkPosDef : bool)
    (paramsIn : list string) (state : Z * BinnedData.t) :
  fs !! (dataName +:+ ".params") = Some paramsIn ->
  for_each paramsIn (boss.paramsLine (dataName +:+ ".params") weighted)
    (0%Z, boss.clonePrototype prototype) = Ok state ->
  fs !! (dataName +:+ (if icov then ".icov" else ".cov")) = None ->
  boss.loadCosmolib fs dataName prototype verbose icov weighted checkPosDef
  = Err (RuntimeError ("Unable to open " +:+ dataName +:+
                       (if icov then ".icov" else ".cov"))).
Proof.
  intros Hp Hloop Hc. unfold boss.loadCosmolib, openFile.
  rewrite Hp. simpl. rewrite Hloop. destruct state as [lines bd]. simpl.
  rewrite Hc. reflexivity.
Qed.

(** A malformed line of the parameters file: the message gives its number
    and the name of the parameters file. *)
Lemma paramsLine_malformed (paramsName : string) (weighted : bool)
    (line : string) (lines : Z) (bd : BinnedData.t) :
  parseParams line = None ->
  boss.paramsLine paramsName weighted line (lines, bd)
  = Err (RuntimeError ("loadCosmolib: error reading line " +:+
                       lexical_cast (lines + 1) +:+ " of " +:+ paramsName)).
Proof. intros H. unfold boss.paramsLine. rewrite H. reflexivity. Qed.

(** A malformed line of the covariance file: the message gives its number,
    and again the name of the parameters file. *)
Lemma covLine_malformed (paramsName : string) (icov : bool)
    (line : string) (lines : Z) (bd : BinnedData.t) :
  parseCov line = None ->
  boss.covLine paramsName icov line (lines, bd)
  = Err (RuntimeError ("loadCosmolib: error reading line " +:+
                       lexical_cast (lines + 1) +:+ " of " +:+ paramsName)).
Proof. intros H. unfold boss.covLine. rewrite H. reflexivity. Qed.

End LoaderErrors.

(** C7, at the failing input. The malformed line is line 1 of [demo.cov];
    the error that [loadCosmolib] raises names [demo.params]. *)
Theorem loadCosmolib_cov_error_names_params :
  @boss.loadCosmolib smallLapack matchNothing demoFiles "demo"
    (BinnedData.new oneBin oneBin oneBin) false false false false
  = Err (RuntimeError "loadCosmolib: error reading line 1 of demo.params").
Proof. reflexivity. Qed.

(** ** [QuasarCorrelationData::fixCovariance] *)

Lemma packed_position_inj (row col row' col' : nat) :
  (row <= col)%nat -> (row' <= col')%nat ->
  (row + (col * (col + 1)) / 2 = row' + (col' * (col' + 1)) / 2)%nat ->
  row = row' /\ col = col'.
Proof.
  intros Hrc Hrc' Heq.
  destruct (Nat.lt_trichotomy col col') as [Hlt|[->|Hgt]].
  - pose proof (triangle_succ col). pose proof (triangle_mono (S col) col').
    lia.
  - lia.
  - pose proof (triangle_succ col'). pose proof (triangle_mono (S col') col).
    lia.
Qed.

(** Two elements share a packed position only if they are the same element
    or mirror each other. *)
Lemma symmetricIndex_inj (a b a' b' : nat) :
  symmetricIndex a b = symmetricIndex a' b' ->
  (a = a' /\ b = b') \/ (a = b' /\ b = a').
Proof.
  unfold symmetricIndex.
  destruct (decide (b <= a)%nat), (decide (b' <= a')%nat); intros H;
    apply packed_position_inj in H; lia.
Qed.

Section FixCovariance.
Import QuasarCorrelationData.
Context {cosmology : AbsHomogeneousUniverse} {L : Lapack} {M : RawMemory}.

Lemma sameFrame_refl (bd : BinnedData.t) : sameFrame bd bd.
Proof. repeat split. Qed.

Lemma apart_sameFrame (bd0 bd : BinnedData.t) (i1 i2 : Z) :
  sameFrame bd0 bd -> apart bd i1 i2 <-> apart bd0 i1 i2.
Proof.
  intros (_ & _ & H2 & H3 & _).
  unfold apart, sepIndex, zIndex, BinnedData.getBinIndices.
  rewrite H2, H3. reflexivity.
Qed.

Lemma getOffsetForIndex_same (bd bd' : BinnedData.t) (index : Z) :
  BinnedData.bd_index bd' = BinnedData.bd_index bd ->
  BinnedData.getOffsetForIndex bd' index = BinnedData.getOffsetForIndex bd index.
Proof. intros H. unfold BinnedData.getOffsetForIndex. now rewrite H. Qed.

(** Writing the covariance between [i1] and [i2] changes it between no
    other two bins. *)
Lemma setCovariance_elsewhere (bd bd' : BinnedData.t) (i1 i2 : Z) (C C' : R)
    (j1 j2 : Z) :
  BinnedData.getCovariance bd i1 i2 = Ok C ->
  BinnedData.setCovariance bd i1 i2 C' = Ok bd' ->
  ~ ((j1 = i1 /\ j2 = i2) \/ (j1 = i2 /\ j2 = i1)) ->
  BinnedData.getCovariance bd' j1 j2 = BinnedData.getCovariance bd j1 j2.
Proof.
  unfold BinnedData.getCovariance, BinnedData.setCovariance.
  intros Hget Hset Hother.
  apply bind_Ok in Hget as (o1 & Ho1 & Hget).
  apply bind_Ok in Hget as (o2 & Ho2 & Hget).
  rewrite Ho1, Ho2 in Hset. simpl in Hset.
  apply bind_Ok in Hset as (c' & Hset & Hbd'). injection Hbd' as <-.
  rewrite !getOffsetForIndex_withStore.
  destruct (BinnedData.getOffsetForIndex bd j1) as [p1|] eqn:Hp1; [|reflexivity].
  destruct (BinnedData.getOffsetForIndex bd j2) as [p2|] eqn:Hp2; [|reflexivity].
  simpl.
  unfold CovarianceMatrix.getCovariance in Hget.
  apply bind_Ok in Hget as ([] & _ & Hget).
  apply bind_Ok in Hget as (m & Hm & _).
  unfold CovarianceMatrix.setCovariance in Hset.
  apply bind_Ok in Hset as ([] & _ & Hset).
  rewrite Hm in Hset. simpl in Hset.
  apply bind_Ok in Hset as (m' & Hput & Hc'). injection Hc' as <-.
  unfold put in Hput. destruct (decide _); [|discriminate].
  injection Hput as <-.
  unfold CovarianceMatrix.getCovariance, CovarianceMatrix.checkIndices. simpl.
  destruct (decide _); [|reflexivity]. simpl. rewrite Hm. simpl.
  unfold at_. rewrite list_lookup_insert_ne; [reflexivity|].
  intros Heq. apply Hother.
  apply getOffsetForIndex_Ok in Ho1, Ho2, Hp1, Hp2.
  apply symmetricIndex_inj in Heq as [[-> ->]|[-> ->]]; [left|right];
    split; congruence.
Qed.

(** One turn of the inner loop keeps the frame. *)
Lemma fixCovariancePair_frame (k1 k2 c : R) (dll : list R) (i1 i2 : Z)
    (bd0 bd bd' : BinnedData.t) :
  sameFrame bd0 bd ->
  fixCovariancePair k1 k2 c dll i1 (sepIndex bd i1) (zIndex bd i1) i2 bd = Ok bd' ->
  sameFrame bd0 bd'.
Proof.
  intros Hframe. unfold fixCovariancePair.
  fold (sepIndex bd i2). fold (zIndex bd i2).
  destruct (decide _) as [_|Hshare]; [intros H; injection H as <-; exact Hframe|].
  intros H. apply bind_Ok in H as (C & Hget & Hset).
  pose proof Hframe as (Hidx & Ha1 & Ha2 & Ha3 & Hcov).
  assert (BinnedData.bd_index bd' = BinnedData.bd_index bd
          /\ BinnedData.bd_axis1 bd' = BinnedData.bd_axis1 bd
          /\ BinnedData.bd_axis2 bd' = BinnedData.bd_axis2 bd
          /\ BinnedData.bd_axis3 bd' = BinnedData.bd_axis3 bd) as (E0 & E1 & E2 & E3).
  { unfold BinnedData.setCovariance in Hset.
    apply bind_Ok in Hset as (o1 & _ & Hset).
    apply bind_Ok in Hset as (o2 & _ & Hset).
    apply bind_Ok in Hset as (c' & _ & Hset). injection Hset as <-.
    repeat split. }
  split; [congruence|]. split; [congruence|]. split; [congruence|].
  split; [congruence|].
  intros j1 j2 Hapart. rewrite <- (Hcov j1 j2 Hapart).
  apply (setCovariance_elsewhere bd bd' i1 i2 C _ j1 j2 Hget Hset).
  apply (apart_sameFrame bd0 bd j1 j2 Hframe) in Hapart.
  intros [[-> ->]|[-> ->]]; apply Hshare; destruct Hapart as [Hs|Hz];
    [left|right|left|right]; congruence.
Qed.

Lemma sepIndex_sameFrame (bd0 bd : BinnedData.t) (index : Z) :
  sameFrame bd0 bd ->
  sepIndex bd index = sepIndex bd0 index /\ zIndex bd index = zIndex bd0 index.
Proof.
  intros (_ & _ & H2 & H3 & _).
  unfold sepIndex, zIndex, BinnedData.getBinIndices. rewrite H2, H3. now split.
Qed.

(** One turn of the outer loop keeps the frame. *)
Lemma fixCovarianceBin_frame (k1 k2 c : R) (indices : list Z) (p : nat * Z)
    (bd0 bd bd' : BinnedData.t) (dll dll' : list R) :
  sameFrame bd0 bd ->
  fixCovarianceBin k1 k2 c indices p (bd, dll) = Ok (bd', dll') ->
  sameFrame bd0 bd'.
Proof.
  intros Hframe. destruct p as [offset1 i1]. unfold fixCovarianceBin.
  intros H. apply bind_Ok in H as (bd1 & Hloop & H). injection H as <- _.
  revert Hloop. apply for_each_invariant; [|exact Hframe].
  intros i2 x x' _ Hx Hpair.
  destruct (sepIndex_sameFrame bd0 bd i1 Hframe) as [Es Ez].
  destruct (sepIndex_sameFrame bd0 x i1 Hx) as [Es' Ez'].
  apply (fixCovariancePair_frame k1 k2 c (dll ++ [getBinCenter
           (BinnedData.bd_axis1 bd) (BinnedData.getBinIndices bd i1).1.1])
           i1 i2 bd0 x x' Hx).
  rewrite Es', Ez', <- Es, <- Ez. exact Hpair.
Qed.

Lemma unweighted_sameFrame (bd bd' : BinnedData.t) :
  BinnedData.unweighted bd = Ok bd' -> sameFrame bd bd'.
Proof.
  unfold BinnedData.unweighted. destruct (BinnedData.bd_weighted bd).
  - intros H. apply bind_Ok in H as (data & _ & H). injection H as <-.
    repeat split.
  - intros H. injection H as <-. apply sameFrame_refl.
Qed.

(** The whole of [fixCovariance] keeps the frame. *)
Lemma fixCovariance_sameFrame (k1 k2 c : R) (d d' : t) :
  fixCovariance k1 k2 c d = Ok d' ->
  sameFrame (base d) (base d')
  /\ _llmin d' = _llmin d /\ _fixCov d' = _fixCov d
  /\ _rLookup d' = _rLookup d /\ _muLookup d' = _muLookup d
  /\ _zLookup d' = _zLookup d.
Proof.
  unfold fixCovariance. intros H.
  destruct (negb _); [discriminate|].
  apply bind_Ok in H as (first & _ & H).
  apply bind_Ok in H as ([bd1 value] & Hdata & H).
  apply bind_Ok in H as ([bd2 dll] & Hloop & H). injection H as <-. simpl.
  split; [|repeat split].
  assert (sameFrame (base d) bd1) as Hframe1.
  { unfold BinnedData.getData in Hdata.
    apply bind_Ok in Hdata as (bd & Hbd & Hdata).
    apply bind_Ok in Hdata as (o & _ & Hdata).
    apply bind_Ok in Hdata as (v & _ & Hdata). injection Hdata as <- _.
    apply unweighted_sameFrame. exact Hbd. }
  revert Hloop.
  apply (for_each_invariant
           (fun state : BinnedData.t * list R => sameFrame (base d) state.1)).
  - intros p [x xs] [x' xs'] _ Hx Hbin. simpl in *.
    apply (fixCovarianceBin_frame k1 k2 c _ p (base d) x x' xs xs' Hx Hbin).
  - exact Hframe1.
Qed.

(** C10. When [fixCovariance(k1,k2,c)] returns, the dataset has the same
    bins, and the covariance between any two bins whose separation bins
    differ or whose redshift bins differ reads as it did before the call:
    an entry that reads differently belongs to two bins that share both. *)
Theorem fixCovariance_frame (k1 k2 c : R) (d d' : t) :
  fixCovariance k1 k2 c d = Ok d' ->
  BinnedData.bd_index (base d') = BinnedData.bd_index (base d)
  /\ (forall i1 i2, apart (base d) i1 i2 ->
        BinnedData.getCovariance (base d') i1 i2
        = BinnedData.getCovariance (base d) i1 i2)
  /\ (forall i1 i2,
        BinnedData.getCovariance (base d') i1 i2
        <> BinnedData.getCovariance (base d) i1 i2 ->
        sepIndex (base d) i1 = sepIndex (base d) i2
        /\ zIndex (base d) i1 = zIndex (base d) i2).
Proof.
  intros H.
  destruct (fixCovariance_sameFrame k1 k2 c d d' H)
    as ((Hidx & _ & _ & _ & Hcov) & _).
  split; [exact Hidx|]. split; [exact Hcov|].
  intros i1 i2 Hne.
  destruct (decide (sepIndex (base d) i1 = sepIndex (base d) i2)) as [Hs|Hs];
    [|exfalso; apply Hne, Hcov; left; exact Hs].
  destruct (decide (zIndex (base d) i1 = zIndex (base d) i2)) as [Hz|Hz];
    [|exfalso; apply Hne, Hcov; right; exact Hz].
  split; assumption.
Qed.

End FixCovariance.

Lemma fixCovariance_frame_witness :
  exists d',
    @QuasarCorrelationData.fixCovariance smallLapack zeroMemory 150 300 1e-3
      threeLLFix = Ok d'
    /\ BinnedData.bd_index (QuasarCorrelationData.base d') = [0%Z; 3%Z; 4%Z]
    /\ @BinnedData.getCovariance smallLapack (QuasarCorrelationData.base d') 3 4
       = Ok 2.
Proof.
  eexists. split; [reflexivity|].
  match goal with
  | |- BinnedData.bd_index (QuasarCorrelationData.base ?d') = _ /\ _ =>
      destruct (@fixCovariance_frame smallLapack zeroMemory 150 300 1e-3
                  threeLLFix d' eq_refl) as (Hindex & Hframe & _)
  end.
  split; [exact Hindex|].
  rewrite Hframe; [reflexivity|]. left. vm_compute. discriminate.
Defined.

(** ** How the states of the aggregator are reached *)

Section Reached.
Import LyaData Lifecycle.
Context {cosmology : AbsHomogeneousUniverse} {L : Lapack} {Sum : BinnedDataSum}.

(** The first plate takes an empty dataset to an accumulating one. *)
Lemma add_first_Accumulating (n : nat) (d p : t) (repeat : Z) :
  Empty d -> Plate n p -> (0 < n)%nat ->
  exists d', add p repeat d = Ok d' /\ Accumulating n d'.
Proof.
  intros Hempty Hplate Hn.
  destruct (add_first n d p repeat Hempty Hplate)
    as (d' & c & m & Hadd & _ & (_ & _ & Hlen) & Hdf & Hcf & Hz & Hdata
        & Hicov & Hcov & Htilde).
  pose proof (Plate_icovData_length n p Hplate) as Hlo.
  exists d'. split; [exact Hadd|].
  split; [exact Hdf|]. split; [exact Hcf|]. split; [exact Hz|].
  split; [exact Hn|].
  split; [rewrite Hdata; apply length_replicate|].
  split; [rewrite Hicov, length_fmap; exact Hlo|].
  split; eexists _, _; (split; [eassumption|]);
    (split; [reflexivity|]); (split; [reflexivity|]);
    rewrite length_fmap; exact Hlen.
Qed.

(** One turn of the loop of [finalizeCovariance] keeps the data and the
    flag, keeps the store ready, and leaves it written. *)
Lemma fixZeroDiagonal_turn (cov_is_icov : bool) (n k : nat) (d d' : t)
    (c : CovarianceMatrix.t) :
  _covariance d = Some c -> ready cov_is_icov n c -> (k < n)%nat ->
  fixZeroDiagonal cov_is_icov k d = Ok d' ->
  _data d' = _data d /\ _dataFinalized d' = _dataFinalized d
  /\ exists c', _covariance d' = Some c' /\ ready cov_is_icov n c'
                /\ CovarianceMatrix.elems c' <> CovarianceMatrix.Unset.
Proof.
  intros Hc Hready Hk. unfold fixZeroDiagonal. rewrite Hc. simpl.
  destruct (ready_reads _ _ _ Hready) as (m & Hreads & Hlen).
  pose proof Hready as [Hsize Helems].
  destruct (ready_read cov_is_icov n c m k k Hsize Hreads Hlen Hk Hk)
    as (a & Ha & Hread).
  pose proof (ready_write cov_is_icov n c m k k (sentinel cov_is_icov)
                Hsize Hreads Hlen Hk Hk) as Hwrite.
  assert (exists c', (if decide (0 = a)
                      then write cov_is_icov c k k (sentinel cov_is_icov)
                      else Ok c) = Ok c'
                     /\ ready cov_is_icov n c'
                     /\ CovarianceMatrix.elems c' <> CovarianceMatrix.Unset)
    as (c' & Hc' & Hready' & Hset).
  { destruct (decide (0 = a)) as [Hz|Hnz].
    - rewrite Hwrite. eexists. split; [reflexivity|].
      split; [apply ready_holding; rewrite length_insert; exact Hlen|].
      destruct cov_is_icov; discriminate.
    - exists c. split; [reflexivity|]. split; [exact Hready|].
      intros Hunset. rewrite Hunset in Helems.
      unfold reads, CovarianceMatrix.readsICov, CovarianceMatrix.readsCov in Hreads.
      rewrite Hunset in Hreads.
      assert (m = CovarianceMatrix.zeros (CovarianceMatrix.size c)) as ->
        by (destruct cov_is_icov; congruence).
      unfold CovarianceMatrix.zeros in Ha.
      apply lookup_replicate in Ha as [Ha _]. congruence. }
  unfold read, write, sentinel in *.
  destruct cov_is_icov; rewrite Hread; simpl; rewrite Hc'; simpl;
    intros H; apply bind_Ok in H as (index & _ & H);
    apply bind_Ok in H as (diag & _ & H);
    apply bind_Ok in H as (bd & _ & H); injection H as <-;
    (split; [reflexivity|]); (split; [reflexivity|]);
    exists c'; auto.
Qed.

(** What [finalizeData] and then [finalizeCovariance] leave is a plate:
    [Plate] holds of the dataset that a successful load produces. *)
Lemma finalizeCovariance_Plate {E : LapackExact L} (cov_is_icov : bool)
    (p0 p : t) (c0 : CovarianceMatrix.t) :
  _covariance p0 = Some c0 ->
  ready cov_is_icov (length (_data p0)) c0 ->
  (0 < length (_data p0))%nat ->
  finalizeCovariance cov_is_icov p0 = Ok p ->
  Plate (length (_data p0)) p.
Proof.
  intros Hc0 Hready0 Hn. unfold finalizeCovariance. intros H.
  apply bind_Ok in H as ([] & Hassert & H).
  assert (_dataFinalized p0 = true) as Hdf
    by (destruct (_dataFinalized p0); [reflexivity|discriminate]).
  apply bind_Ok in H as (d1 & Hloop & H).
  set (n := length (_data p0)) in *.
  assert (_data d1 = _data p0 /\ _dataFinalized d1 = true
          /\ exists c, _covariance d1 = Some c /\ ready cov_is_icov n c
                /\ CovarianceMatrix.elems c <> CovarianceMatrix.Unset)
    as (Hdata & Hdf1 & c & Hc & Hready & Hset).
  { unfold getNData in Hloop. fold n in Hloop.
    destruct n as [|n']; [lia|]. simpl in Hloop.
    destruct (fixZeroDiagonal cov_is_icov 0 p0) as [x|] eqn:Hfirst;
      [|discriminate].
    destruct (fixZeroDiagonal_turn cov_is_icov (S n') 0 p0 x c0 Hc0 Hready0
                ltac:(lia) Hfirst) as (Hx1 & Hx2 & cx & Hcx & Hrx & Hsx).
    revert Hloop.
    apply (for_each_invariant
             (fun y => _data y = _data p0 /\ _dataFinalized y = true
                 /\ exists c, _covariance y = Some c
                      /\ ready cov_is_icov (S n') c
                      /\ CovarianceMatrix.elems c <> CovarianceMatrix.Unset)).
    - intros k y y' Hk (Hy1 & Hy2 & cy & Hcy & Hry & _) Hturn.
      apply elem_of_seq in Hk.
      destruct (fixZeroDiagonal_turn cov_is_icov (S n') k y y' cy Hcy Hry
                  ltac:(lia) Hturn) as (Hy1' & Hy2' & cy' & Hcy' & Hry' & Hsy').
      split; [congruence|]. split; [congruence|]. eauto.
    - split; [exact Hx1|]. split; [congruence|]. eauto. }
  simpl in H. rewrite Hc in H. simpl in H.
  apply bind_Ok in H as (icovData & Hmul & H). injection H as <-.
  unfold CovarianceMatrix.multiplyByInverseCovariance in Hmul.
  apply bind_Ok in Hmul as ([] & _ & Hmul).
  apply bind_Ok in Hmul as (m & Hm & Hmul). injection Hmul as <-.
  destruct Hready as [Hsize Helems].
  split; [exact Hdf1|]. split; [reflexivity|].
  split; [simpl; rewrite Hdata; reflexivity|].
  exists c, m. split; [exact Hc|]. split.
  { split; [exact Hsize|]. split; [exact Hm|].
    unfold CovarianceMatrix.readsICov in Hm.
    destruct (CovarianceMatrix.elems c) as [|m0|m0]; [contradiction| |].
    - apply inverted_Ok in Hm. rewrite Hsize in Hm.
      apply (invert_length _ _ _ Hm).
    - destruct Helems as [_ Hlen]. congruence. }
  split; [exact Hset|]. simpl. rewrite Hsize, Hdata. reflexivity.
Qed.

End Reached.

(** ** [QuasarCorrelationData::finalize] *)

Section QuasarFinalize.
Import QuasarCorrelationData.
Context {cosmology : AbsHomogeneousUniverse} {L : Lapack} {M : RawMemory}
  {cuts : FinalCuts}.

Lemma _setIndex_base (index : Z) (d d' : t) :
  _setIndex index d = Ok d' ->
  base d' = base d /\ _llmin d' = _llmin d
  /\ _rLookup d' = _rLookup d /\ _muLookup d' = _muLookup d
  /\ _zLookup d' = _zLookup d.
Proof.
  unfold _setIndex. destruct (decide _).
  - intros H. injection H as <-. repeat split.
  - intros H. apply bind_Ok in H as (z & _ & H).
    apply bind_Ok in H as (ll & _ & H). apply bind_Ok in H as (sep & _ & H).
    apply bind_Ok in H as (dsep & _ & H).
    destruct (transform ll sep dsep z) as [r mu]. injection H as <-.
    repeat split.
Qed.

Lemma cached_read_base (read_ : Z -> t -> result (t * R)) (index : Z)
    (d d' : t) (x : R) :
  read_ = getRadius \/ read_ = getCosAngle \/ read_ = getRedshift ->
  read_ index d = Ok (d', x) ->
  base d' = base d /\ _llmin d' = _llmin d
  /\ _rLookup d' = _rLookup d /\ _muLookup d' = _muLookup d
  /\ _zLookup d' = _zLookup d.
Proof.
  intros [-> | [-> | ->]]; unfold getRadius, getCosAngle, getRedshift;
    (destruct (isFinalized d);
     [ intros H; apply bind_Ok in H as (o & _ & H);
       apply bind_Ok in H as (v & _ & H); injection H as <- _; repeat split
     | intros H; apply bind_Ok in H as (d1 & Hset & H); injection H as <- _;
       apply (_setIndex_base index d d1 Hset) ]).
Qed.

(** One turn of the loop of [finalize]: the bin leaves [keep] exactly when
    its wavelength-ratio center is below [_llmin]. *)
Lemma finalizeBin_keep (index : Z) (d d' : t) (keep keep' : gset Z) :
  finalizeBin index (d, keep) = Ok (d', keep') ->
  base d' = base d /\ _llmin d' = _llmin d
  /\ forall b, b ∈ keep' <->
       b ∈ keep /\ (b = index -> _llmin d <= llCenter (base d) b).
Proof.
  unfold finalizeBin.
  destruct (decide (index ∉ keep)) as [Hout|Hin].
  { simpl. intros H. inversion H; subst. split; [reflexivity|].
    split; [reflexivity|]. intros b. split; [|tauto].
    intros Hb. split; [exact Hb|]. intros ->. contradiction. }
  simpl.
  match goal with
  | |- context [decide (?x < ?y)] =>
      assert (x = llCenter (base d) index) as Hx by reflexivity;
      destruct (decide (x < y)) as [Hlt|Hge]; rewrite Hx in *; clear Hx
  end.
  { simpl. intros H. inversion H; subst. split; [reflexivity|].
    split; [reflexivity|]. intros b.
    rewrite elem_of_difference, elem_of_singleton. split.
    - intros [Hb Hne]. split; [exact Hb|]. intros ->. contradiction.
    - intros [Hb Hll]. split; [exact Hb|]. intros ->.
      specialize (Hll eq_refl). lra. }
  intros H.
  apply bind_Ok in H as ([d1 r] & Hr & H).
  apply bind_Ok in H as ([d2 mu] & Hmu & H).
  apply bind_Ok in H as ([d3 z] & Hz & H). inversion H; subst.
  destruct (cached_read_base getRadius index _ d1 r ltac:(auto) Hr)
    as (E1 & F1 & _).
  destruct (cached_read_base getCosAngle index d1 d2 mu ltac:(auto) Hmu)
    as (E2 & F2 & _).
  destruct (cached_read_base getRedshift index d2 d3 z ltac:(auto) Hz)
    as (E3 & F3 & _).
  simpl in *. split; [congruence|]. split; [congruence|].
  intros b. split; [|tauto]. intros Hb. split; [exact Hb|].
  intros ->. lra.
Qed.

Lemma finalizeBin_loop (todo : list Z) :
  forall (d d' : t) (keep keep' : gset Z),
    for_each todo finalizeBin (d, keep) = Ok (d', keep') ->
    base d' = base d /\ _llmin d' = _llmin d
    /\ forall b, b ∈ keep' <->
         b ∈ keep /\ (b ∈ todo -> _llmin d <= llCenter (base d) b).
Proof.
  induction todo as [|index todo IH]; intros d d' keep keep' H.
  - inversion H; subst. split; [reflexivity|]. split; [reflexivity|].
    intros b. split; [|tauto]. intros Hb. split; [exact Hb|].
    intros Hin. inversion Hin.
  - change (for_each (index :: todo) finalizeBin (d, keep))
      with (match finalizeBin index (d, keep) with
            | Ok s' => for_each todo finalizeBin s'
            | Err e => Err e
            end) in H.
    destruct (finalizeBin index (d, keep)) as [[d1 keep1]|] eqn:Hturn;
      [|discriminate].
    apply finalizeBin_keep in Hturn as (E1 & F1 & K1).
    apply IH in H as (E2 & F2 & K2).
    split; [congruence|]. split; [congruence|].
    intros b. rewrite K2, K1, E1, F1, elem_of_cons. split.
    + intros [[Hb Hhead] Htail]. split; [exact Hb|].
      intros [-> | Hin]; auto.
    + intros [Hb Hall]. split; [split; [exact Hb|]|]; auto.
Qed.

(** The bins that [finalize] leaves: those that [_applyFinalCuts] keeps
    and whose wavelength-ratio center is at least [_llmin]; a center equal
    to [_llmin] stays. *)
Lemma finalize_keeps (d d' : t) :
  finalize d = Ok d' ->
  exists d1 keep,
    _applyFinalCuts d1 = Ok keep
    /\ BinnedData.bd_index (base d1) = BinnedData.bd_index (base d)
    /\ forall b, b ∈ BinnedData.bd_index (base d') <->
         b ∈ BinnedData.bd_index (base d) /\ b ∈ keep
         /\ _llmin d <= llCenter (base d) b.
Proof.
  unfold finalize. intros H.
  apply bind_Ok in H as (d1 & Hfix & H).
  assert (sameFrame (base d) (base d1) /\ _llmin d1 = _llmin d) as [Hframe Hll].
  { destruct (_fixCov d).
    - apply fixCovariance_sameFrame in Hfix as (Hf & Hl & _). now split.
    - injection Hfix as <-. split; [apply sameFrame_refl|reflexivity]. }
  apply bind_Ok in H as (keep & Hcuts & H).
  apply bind_Ok in H as ([d2 keep2] & Hloop & H).
  apply bind_Ok in H as (bd & Hprune & H). injection H as <-.
  apply finalizeBin_loop in Hloop as (E & F & K).
  destruct Hframe as (Hidx & Ha1 & Ha2 & Ha3 & _).
  exists d1, keep. split; [exact Hcuts|]. split; [exact Hidx|].
  intros b. simpl. rewrite (prune_index _ _ _ Hprune), E.
  rewrite list_elem_of_filter, K, Hidx, Hll.
  assert (llCenter (base d1) b = llCenter (base d) b) as ->.
  { unfold llCenter, BinnedData.getBinIndices. now rewrite Ha1, Ha2, Ha3. }
  tauto.
Qed.

End QuasarFinalize.

(** ** The diagonal of a loaded dataset *)

Section LoadedDiagonal.
Context {L : Lapack}.

Lemma setData_loading (icov : bool) (bd bd' : BinnedData.t) (index : Z)
    (value : R) (weighted : bool) :
  NoDup (BinnedData.bd_index bd) -> BinnedData.bd_covariance bd = None ->
  BinnedData.setData bd index value weighted = Ok bd' ->
  NoDup (BinnedData.bd_index bd') /\ BinnedData.bd_covariance bd' = None.
Proof.
  intros Hnodup Hnone. unfold BinnedData.setData, BinnedData.hasData.
  destruct (bool_decide _) eqn:Hhas; [discriminate|].
  apply bool_decide_eq_false in Hhas.
  intros H. injection H as <-. simpl. split; [|exact Hnone].
  apply NoDup_app. split; [exact Hnodup|]. split; [|apply NoDup_singleton].
  intros x Hx Hx'. apply list_elem_of_singleton in Hx' as ->. contradiction.
Qed.

Lemma indexAt_range (bd : BinnedData.t) (offset index : Z) :
  BinnedData.indexAt bd offset = Ok index ->
  (0 <= offset < Z.of_nat (BinnedData.getNBinsWithData bd))%Z.
Proof.
  unfold BinnedData.indexAt, at_, BinnedData.getNBinsWithData.
  destruct (decide (0 <= offset)%Z); [|discriminate].
  destruct (_ !! _) eqn:Hlook; [|discriminate].
  apply lookup_lt_Some in Hlook. lia.
Qed.

Lemma addCovarianceEntry_loading (icov : bool) (offset1 offset2 : Z)
    (value : R) (bd bd' : BinnedData.t) :
  loading icov bd ->
  addCovarianceEntry icov offset1 offset2 value bd = Ok bd' ->
  loading icov bd'.
Proof.
  intros [Hnodup Hready] Hrun.
  pose proof Hrun as Hrun'. unfold addCovarianceEntry in Hrun'.
  apply bind_Ok in Hrun' as (index1 & H1 & Hrun').
  apply bind_Ok in Hrun' as (index2 & H2 & _).
  apply indexAt_range in H1, H2.
  destruct (addCovarianceEntry_ready icov offset1 offset2 value bd
              Hnodup Hready H1 H2) as (bd'' & Hrun'' & Hidx & _ & Hready').
  rewrite Hrun in Hrun''. injection Hrun'' as <-.
  split; [rewrite Hidx; exact Hnodup|exact Hready'].
Qed.

Lemma stored_compress (icov : bool) (bd : BinnedData.t) (index1 index2 : Z) :
  stored icov (BinnedData.compress bd) index1 index2
  = stored icov bd index1 index2.
Proof.
  unfold BinnedData.compress.
  destruct (BinnedData.bd_covariance bd) as [c|] eqn:Hc; [|reflexivity].
  unfold stored, BinnedData.getInverseCovariance, BinnedData.getCovariance.
  rewrite !getOffsetForIndex_withStore.
  destruct (BinnedData.getOffsetForIndex bd index1) as [row|]; [|now destruct icov].
  destruct (BinnedData.getOffsetForIndex bd index2) as [col|]; [|now destruct icov].
  unfold BinnedData.store. simpl. rewrite Hc. destruct icov; reflexivity.
Qed.

Lemma sentinel_nonzero (icov : bool) (v : R) :
  (if decide (0 = v) then (if icov then 1e-30 else 1e40) else v) <> 0.
Proof.
  destruct (decide (0 = v)) as [_|Hv]; [destruct icov; lra|].
  intros ->. now apply Hv.
Qed.

(** After the loop over the diagonal, no bin with data has a zero on the
    diagonal. *)
Lemma checkZeroDiagonals_nonzero (icov : bool) (bd bd' : BinnedData.t) :
  loading icov bd -> checkZeroDiagonals icov bd = Ok bd' ->
  NoDup (BinnedData.bd_index bd')
  /\ forall index, index ∈ BinnedData.bd_index bd' ->
       exists v, stored icov bd' index index = Ok v /\ v <> 0.
Proof.
  intros [Hnodup Hready] Hrun.
  pose proof Hready as Hr. apply storeReady_ready in Hr.
  destruct (ready_reads _ _ _ Hr) as (m & Hreads & Hlen).
  destruct (checkZeroDiagonal_loop icov (BinnedData.bd_index bd) bd m
              Hnodup Hready Hreads ltac:(auto) Hnodup)
    as (bd'' & m' & Hrun' & Hidx & _ & Hready' & Hreads' & Hlen' & Hm').
  unfold checkZeroDiagonals in Hrun. rewrite Hrun in Hrun'.
  injection Hrun' as <-.
  split; [rewrite Hidx; exact Hnodup|].
  intros index Hin. rewrite Hidx in Hin.
  destruct (proj1 (list_elem_of_lookup _ _) Hin) as [o Ho].
  assert (o < BinnedData.getNBinsWithData bd)%nat as Hlt
    by (apply lookup_lt_Some in Ho; exact Ho).
  destruct Hr as [Hsize _].
  destruct (ready_read icov _ _ m o o Hsize Hreads Hlen Hlt Hlt)
    as (v & Hv & _).
  specialize (Hm' o index v Ho Hv).
  destruct (decide (index ∈ BinnedData.bd_index bd)); [|contradiction].
  assert (BinnedData.getOffsetForIndex bd' index = Ok o) as Hoff
    by (apply getOffsetForIndex_lookup; rewrite Hidx; assumption).
  rewrite (stored_read icov bd' index index o o Hoff Hoff).
  apply storeReady_ready in Hready'. destruct Hready' as [Hsize' _].
  unfold BinnedData.getNBinsWithData in *. rewrite Hidx in Hsize'.
  rewrite Hlen in Hlen'.
  destruct (ready_read icov _ _ m' o o Hsize' Hreads' Hlen' Hlt Hlt)
    as (v' & Hv' & Hread').
  exists v'. split; [exact Hread'|].
  rewrite Hm' in Hv'. injection Hv' as <-.
  unfold replaced, sentinel. apply sentinel_nonzero.
Qed.

Context {G : LineGrammar}.

(** The dataset that [boss::loadCosmolib] returns has distinct bins and no
    zero on its diagonal. *)
Lemma loadCosmolib_diagonal (fs : files) (dataName : string)
    (prototype : BinnedData.t) (verbose icov weighted checkPosDef : bool)
    (bd : BinnedData.t) :
  boss.loadCosmolib fs dataName prototype verbose icov weighted checkPosDef
  = Ok bd ->
  NoDup (BinnedData.bd_index bd)
  /\ forall index, index ∈ BinnedData.bd_index bd ->
       exists v, stored icov bd index index = Ok v /\ v <> 0.
Proof.
  unfold boss.loadCosmolib. intros H.
  apply bind_Ok in H as (paramsIn & _ & H).
  apply bind_Ok in H as ([lines1 bd1] & Hparams & H).
  apply bind_Ok in H as (covIn & _ & H).
  apply bind_Ok in H as ([lines2 bd2] & Hcov & H).
  apply bind_Ok in H as (bd3 & Hdiag & H). injection H as <-.
  assert (NoDup (BinnedData.bd_index bd1)
          /\ BinnedData.bd_covariance bd1 = None) as [Hnodup1 Hnone1].
  { revert Hparams.
    apply (for_each_invariant
             (fun s : Z * BinnedData.t =>
                NoDup (BinnedData.bd_index s.2)
                /\ BinnedData.bd_covariance s.2 = None)).
    - intros line [k x] [k' x'] _ [Hx1 Hx2] Hline. simpl in *.
      unfold boss.paramsLine in Hline.
      destruct (parseParams line) as [[[data cinvData] bin]|]; [|discriminate].
      apply bind_Ok in Hline as (index & _ & Hline).
      apply bind_Ok in Hline as (x'' & Hset & Hline). inversion Hline; subst.
      apply (setData_loading icov _ _ _ _ _ Hx1 Hx2 Hset).
    - split; [apply NoDup_nil_2|reflexivity]. }
  assert (loading icov bd2) as Hloading.
  { revert Hcov.
    apply (for_each_invariant
             (fun s : Z * BinnedData.t => loading icov s.2)).
    - intros line [k x] [k' x'] _ Hx Hline. simpl in *.
      unfold boss.covLine in Hline.
      destruct (parseCov line) as [[[offset1 offset2] value]|]; [|discriminate].
      apply bind_Ok in Hline as (x'' & Hentry & Hline). inversion Hline; subst.
      apply (addCovarianceEntry_loading icov _ _ _ _ _ Hx Hentry).
    - split; [exact Hnodup1|apply storeReady_fresh; exact Hnone1]. }
  destruct (checkZeroDiagonals_nonzero icov bd2 bd3 Hloading Hdiag)
    as [Hnodup3 Hnonzero].
  assert (BinnedData.bd_index (BinnedData.compress bd3)
          = BinnedData.bd_index bd3) as Hidx.
  { unfold BinnedData.compress.
    destruct (BinnedData.bd_covariance bd3); reflexivity. }
  rewrite Hidx. split; [exact Hnodup3|].
  intros index Hin. rewrite stored_compress. apply Hnonzero. exact Hin.
Qed.

End LoadedDiagonal.

(** ** More on the loops *)

Lemma for_each_cons {K S} (k : K) (ks : list K) (body : K -> S -> result S)
    (s : S) :
  for_each (k :: ks) body s
  = match body k s with
    | Ok s' => for_each ks body s'
    | Err e => Err e
    end.
Proof. reflexivity. Qed.

(** ** The sample points increase *)

Section SamplingOrder.
Context {D : DoubleDivision}.








End SamplingOrder.


(** ** The coordinate getters of [QuasarCorrelationData] *)

Lemma list_filter_iff_in {A} (P1 P2 : A -> Prop)
    `{!forall x, Decision (P1 x)} `{!forall x, Decision (P2 x)} (l : list A) :
  (forall x, x ∈ l -> (P1 x <-> P2 x)) -> filter P1 l = filter P2 l.
Proof.
  induction l as [|a l IH]; intros Hiff; [reflexivity|].
  rewrite !filter_cons.
  rewrite IH by (intros x Hx; apply Hiff; right; exact Hx).
  destruct (decide (P1 a)) as [H1|H1], (decide (P2 a)) as [H2|H2];
    try reflexivity; exfalso;
    [apply H2|apply H1]; apply (Hiff a); try left; assumption.
Qed.

Section Cache.
Import QuasarCorrelationData.
Context {cosmology : AbsHomogeneousUniverse} {L : Lapack} {M : RawMemory}.
#[local] Arguments binCoordinates : simpl never.

Lemma _setIndex_coherent (index : Z) (d : t) :
  index <> (-1)%Z -> cacheCoherent d ->
  exists d',
    _setIndex index d = Ok d'
    /\ base d' = base d /\ _llmin d' = _llmin d
    /\ _rLookup d' = _rLookup d /\ _muLookup d' = _muLookup d
    /\ _zLookup d' = _zLookup d
    /\ _lastIndex d' = index
    /\ (_rLast d', _muLast d', _zLast d') = binCoordinates (base d) index.
Proof.
  intros Hindex Hcache. unfold _setIndex.
  destruct (decide (index = _lastIndex d)) as [->|Hne].
  - exists d. destruct Hcache as [Hfresh|Hheld]; [contradiction|].
    repeat (split; [reflexivity|]). exact Hheld.
  - unfold BinnedData.getBinCenters, BinnedData.getBinWidths, binCoordinates,
      BinnedData.getBinIndices. simpl.
    eexists. split; [reflexivity|]. simpl.
    repeat (split; [reflexivity|]). reflexivity.
Qed.

Lemma cached_getters (index : Z) (d : t) :
  isFinalized d = false -> index <> (-1)%Z -> cacheCoherent d ->
  exists d' r mu z,
    binCoordinates (base d) index = (r, mu, z)
    /\ getRadius index d = Ok (d', r)
    /\ getCosAngle index d = Ok (d', mu)
    /\ getRedshift index d = Ok (d', z)
    /\ base d' = base d /\ cacheCoherent d'.
Proof.
  intros Hfin Hindex Hcache.
  destruct (_setIndex_coherent index d Hindex Hcache)
    as (d' & Hset & Hbase & _ & _ & _ & _ & Hlast & Hval).
  exists d', (_rLast d'), (_muLast d'), (_zLast d').
  split; [symmetry; exact Hval|].
  unfold getRadius, getCosAngle, getRedshift. rewrite Hfin, Hset. simpl.
  repeat (split; [reflexivity|]). split; [exact Hbase|].
  right. rewrite Hlast, Hbase. exact Hval.
Qed.

(** X2. Before [finalize], the three getters answer with the coordinates of the
    bin they are asked about, whatever bin the cache held, and leave the
    cache holding that bin: [_lastIndex] is the bin asked about and
    [_rLast], [_muLast], [_zLast] are its coordinates. *)
Theorem getters_read_through_cache (index : Z) (d : t) :
  isFinalized d = false -> validIndex (base d) index -> cacheCoherent d ->
  exists d' r mu z,
    binCoordinates (base d) index = (r, mu, z)
    /\ getRadius index d = Ok (d', r)
    /\ getCosAngle index d = Ok (d', mu)
    /\ getRedshift index d = Ok (d', z)
    /\ base d' = base d /\ cacheCoherent d'
    /\ _lastIndex d' = index
    /\ (_rLast d', _muLast d', _zLast d') = (r, mu, z).
Proof.
  intros Hfin [Hindex _] Hcache.
  destruct (_setIndex_coherent index d ltac:(lia) Hcache)
    as (d' & Hset & Hbase & _ & _ & _ & _ & Hlast & Hval).
  exists d', (_rLast d'), (_muLast d'), (_zLast d').
  split; [symmetry; exact Hval|].
  unfold getRadius, getCosAngle, getRedshift. rewrite Hfin, Hset. simpl.
  repeat (split; [reflexivity|]). split; [exact Hbase|].
  split; [|split; [exact Hlast|reflexivity]].
  right. rewrite Hlast, Hbase. exact Hval.
Qed.

Context {cuts : FinalCuts}.

Lemma tabulated_without (bd : BinnedData.t) (llmin : R) (keep : gset Z)
    (index : Z) (todo : list Z) :
  index ∉ todo ->
  tabulated bd llmin (keep ∖ {[index]}) todo = tabulated bd llmin keep todo.
Proof.
  intros Hout. unfold tabulated. apply list_filter_iff_in.
  intros b Hb.
  rewrite elem_of_difference, elem_of_singleton.
  assert (b <> index) by (intros ->; contradiction). tauto.
Qed.

Lemma finalizeBin_tabulates (index : Z) (d d' : t) (keep keep' : gset Z) :
  isFinalized d = false -> index <> (-1)%Z -> cacheCoherent d ->
  finalizeBin index (d, keep) = Ok (d', keep') ->
  base d' = base d /\ _llmin d' = _llmin d /\ cacheCoherent d'
  /\ (keep' = keep \/ keep' = keep ∖ {[index]})
  /\ _rLookup d'
     = _rLookup d ++ ((fun b => (binCoordinates (base d) b).1.1)
                       <$> tabulated (base d) (_llmin d) keep [index])
  /\ _muLookup d'
     = _muLookup d ++ ((fun b => (binCoordinates (base d) b).1.2)
                        <$> tabulated (base d) (_llmin d) keep [index])
  /\ _zLookup d'
     = _zLookup d ++ ((fun b => (binCoordinates (base d) b).2)
                       <$> tabulated (base d) (_llmin d) keep [index]).
Proof.
  intros Hfin Hindex Hcache. unfold finalizeBin, tabulated.
  rewrite filter_cons, filter_nil.
  pose proof (cached_getters index) as Hread.
  remember (binCoordinates (base d)) as coords eqn:Hcoords.
  destruct (decide (index ∉ keep)) as [Hout|Hin].
  { simpl. intros H. inversion H; subst.
    rewrite decide_False by tauto. simpl. rewrite !app_nil_r.
    repeat (split; [reflexivity|]). repeat split; auto. }
  simpl.
  match goal with
  | |- context [decide (?x < ?y)] =>
      assert (x = llCenter (base d) index) as Hx by reflexivity;
      destruct (decide (x < y)) as [Hlt|Hge]; rewrite Hx in *; clear Hx
  end.
  { simpl. intros H. inversion H; subst.
    rewrite decide_False by (intros [_ Hle]; simpl in *; lra).
    simpl. rewrite !app_nil_r.
    repeat (split; [reflexivity|]). repeat split; auto. }
  intros H.
  rewrite decide_True by (split; [now apply dec_stable|lra]).
  set (d0 := set_binCenter (BinnedData.getBinCenters (base d) index) d) in *.
  assert (cacheCoherent d0) as Hcache0 by exact Hcache.
  assert (isFinalized d0 = false) as Hfin0 by exact Hfin.
  destruct (Hread d0 Hfin0 Hindex Hcache0)
    as (d1 & r & mu & z & Hval & Hr & Hmu & Hz & Hbase1 & Hcache1).
  rewrite Hr in H. simpl in H.
  assert (isFinalized d1 = false) as Hfin1
    by (unfold isFinalized; rewrite Hbase1; exact Hfin).
  destruct (Hread d1 Hfin1 Hindex Hcache1)
    as (d2 & r2 & mu2 & z2 & Hval2 & _ & Hmu2 & _ & Hbase2 & Hcache2).
  rewrite Hmu2 in H. simpl in H.
  assert (isFinalized d2 = false) as Hfin2
    by (unfold isFinalized; rewrite Hbase2, Hbase1; exact Hfin).
  destruct (Hread d2 Hfin2 Hindex Hcache2)
    as (d3 & r3 & mu3 & z3 & Hval3 & _ & _ & Hz3 & Hbase3 & Hcache3).
  rewrite Hz3 in H. simpl in H. inversion H as [[Hd' Hk']]. clear H.
  subst keep'. clear Hd'.
  rewrite Hbase1 in Hval2. rewrite Hbase2, Hbase1 in Hval3.
  change (base d0) with (base d) in *.
  rewrite <- Hcoords in Hval, Hval2, Hval3.
  rewrite Hval in Hval2, Hval3.
  injection Hval2 as <- <- <-. injection Hval3 as <- <- <-.
  destruct (cached_read_base getRadius index d0 d1 r ltac:(auto) Hr)
    as (_ & F1 & R1 & M1 & Z1).
  destruct (cached_read_base getCosAngle index d1 d2 mu ltac:(auto) Hmu2)
    as (_ & F2 & R2 & M2 & Z2).
  destruct (cached_read_base getRedshift index d2 d3 z ltac:(auto) Hz3)
    as (_ & F3 & R3 & M3 & Z3).
  change (_llmin d0) with (_llmin d) in *.
  change (_rLookup d0) with (_rLookup d) in *.
  change (_muLookup d0) with (_muLookup d) in *.
  change (_zLookup d0) with (_zLookup d) in *.
  simpl. rewrite Hval. simpl.
  split; [congruence|]. split; [congruence|].
  split; [exact Hcache3|]. split; [left; reflexivity|].
  split; [congruence|]. split; congruence.
Qed.

Lemma finalizeBin_loop_tabulates (todo : list Z) :
  forall (d d' : t) (keep keep' : gset Z),
    isFinalized d = false -> (-1)%Z ∉ todo -> NoDup todo -> cacheCoherent d ->
    for_each todo finalizeBin (d, keep) = Ok (d', keep') ->
    cacheCoherent d'
    /\ _rLookup d'
       = _rLookup d ++ ((fun b => (binCoordinates (base d) b).1.1)
                         <$> tabulated (base d) (_llmin d) keep todo)
    /\ _muLookup d'
       = _muLookup d ++ ((fun b => (binCoordinates (base d) b).1.2)
                          <$> tabulated (base d) (_llmin d) keep todo)
    /\ _zLookup d'
       = _zLookup d ++ ((fun b => (binCoordinates (base d) b).2)
                         <$> tabulated (base d) (_llmin d) keep todo).
Proof.
  induction todo as [|index todo IH];
    intros d d' keep keep' Hfin Hvalid Hnodup Hcache H.
  - inversion H; subst. unfold tabulated. rewrite filter_nil. simpl.
    rewrite !app_nil_r. auto.
  - change (for_each (index :: todo) finalizeBin (d, keep))
      with (match finalizeBin index (d, keep) with
            | Ok s' => for_each todo finalizeBin s'
            | Err e => Err e
            end) in H.
    destruct (finalizeBin index (d, keep)) as [[d1 keep1]|] eqn:Hturn;
      [|discriminate].
    apply NoDup_cons in Hnodup as [Hfresh Hnodup].
    rewrite not_elem_of_cons in Hvalid. destruct Hvalid as [Hindex Hvalid].
    apply finalizeBin_tabulates in Hturn
      as (E1 & F1 & C1 & K1 & R1 & M1 & Z1); auto.
    assert (isFinalized d1 = false) as Hfin1
      by (unfold isFinalized; rewrite E1; exact Hfin).
    apply IH in H as (C2 & R2 & M2 & Z2); auto.
    assert (tabulated (base d) (_llmin d) keep1 todo
            = tabulated (base d) (_llmin d) keep todo) as Hsame.
    { destruct K1 as [->| ->]; [reflexivity|].
      now apply tabulated_without. }
    rewrite E1, F1, Hsame in R2, M2, Z2.
    assert (tabulated (base d) (_llmin d) keep (index :: todo)
            = tabulated (base d) (_llmin d) keep [index]
              ++ tabulated (base d) (_llmin d) keep todo) as ->.
    { unfold tabulated. rewrite !filter_cons, filter_nil.
      destruct (decide _); reflexivity. }
    rewrite !fmap_app, !app_assoc, <- R1, <- M1, <- Z1. auto.
Qed.

(** [fixCovariance] changes the base dataset only, and not its finalized
    flag. *)
Lemma fixCovariance_base (k1 k2 c : R) (d d' : t) :
  fixCovariance k1 k2 c d = Ok d' ->
  exists bd, d' = set_base bd d
    /\ BinnedData.bd_finalized bd = BinnedData.bd_finalized (base d).
Proof.
  unfold fixCovariance. intros H.
  destruct (negb _); [discriminate|].
  apply bind_Ok in H as (first & _ & H).
  apply bind_Ok in H as ([bd1 value] & Hdata & H).
  apply bind_Ok in H as ([bd2 dll] & Hloop & H). injection H as <-.
  exists bd2. split; [reflexivity|].
  assert (BinnedData.bd_finalized bd1 = BinnedData.bd_finalized (base d)) as H1.
  { unfold BinnedData.getData in Hdata.
    apply bind_Ok in Hdata as (bd & Hbd & Hdata).
    apply bind_Ok in Hdata as (o & _ & Hdata).
    apply bind_Ok in Hdata as (v & _ & Hdata). injection Hdata as <- _.
    unfold BinnedData.unweighted in Hbd.
    destruct (BinnedData.bd_weighted (base d)).
    - apply bind_Ok in Hbd as (data & _ & Hbd). injection Hbd as <-.
      reflexivity.
    - injection Hbd as <-. reflexivity. }
  revert Hloop.
  apply (for_each_invariant
           (fun state : BinnedData.t * list R =>
              BinnedData.bd_finalized state.1
              = BinnedData.bd_finalized (base d))); [|exact H1].
  intros [offset1 i1] [x xs] [x' xs'] _ Hx Hbin. simpl in *.
  unfold fixCovarianceBin in Hbin.
  apply bind_Ok in Hbin as (bd & Hpairs & Hbin). injection Hbin as <- _.
  revert Hpairs.
  apply (for_each_invariant
           (fun y : BinnedData.t =>
              BinnedData.bd_finalized y = BinnedData.bd_finalized (base d)));
    [|exact Hx].
  intros i2 y y' _ Hy Hpair. unfold fixCovariancePair in Hpair.
  destruct (decide _); [injection Hpair as <-; exact Hy|].
  apply bind_Ok in Hpair as (C & _ & Hset).
  unfold BinnedData.setCovariance in Hset.
  apply bind_Ok in Hset as (o1 & _ & Hset).
  apply bind_Ok in Hset as (o2 & _ & Hset).
  apply bind_Ok in Hset as (c' & _ & Hset). injection Hset as <-.
  exact Hy.
Qed.

(** X3. After [finalize], the getters of every bin that is left answer from
    the tables with the coordinates of that bin. *)
Theorem finalize_tabulates (d d' : t) :
  isFinalized d = false -> cacheCoherent d ->
  _rLookup d = [] -> _muLookup d = [] -> _zLookup d = [] ->
  NoDup (BinnedData.bd_index (base d)) ->
  (forall b, b ∈ BinnedData.bd_index (base d) -> validIndex (base d) b) ->
  finalize d = Ok d' ->
  isFinalized d' = true
  /\ forall b, b ∈ BinnedData.bd_index (base d') ->
       exists r mu z,
         binCoordinates (base d) b = (r, mu, z)
         /\ getRadius b d' = Ok (d', r)
         /\ getCosAngle b d' = Ok (d', mu)
         /\ getRedshift b d' = Ok (d', z).
Proof.
  intros Hfin Hcache Hr0 Hmu0 Hz0 Hnodup Hbins. unfold finalize. intros H.
  assert ((-1)%Z ∉ BinnedData.bd_index (base d)) as Hvalid.
  { intros Hin. apply Hbins in Hin as [Hneg _]. lia. }
  apply bind_Ok in H as (d1 & Hfix & H).
  assert (sameFrame (base d) (base d1) /\ _llmin d1 = _llmin d
          /\ _rLookup d1 = [] /\ _muLookup d1 = [] /\ _zLookup d1 = []
          /\ cacheCoherent d1 /\ isFinalized d1 = false)
    as (Hframe & Hll & Hr1 & Hmu1 & Hz1 & Hcache1 & Hfin1).
  { destruct (_fixCov d).
    - destruct (fixCovariance_base _ _ _ _ _ Hfix) as (bd1 & -> & Hf1).
      apply fixCovariance_sameFrame in Hfix as (Hf & Hl & _).
      split; [exact Hf|]. split; [exact Hl|].
      repeat (split; [assumption|]).
      destruct Hf as (_ & Ha1 & Ha2 & Ha3 & _).
      split; [|exact (eq_trans Hf1 Hfin)].
      destruct Hcache as [Hfresh|Hheld]; [left; exact Hfresh|right].
      simpl in *. rewrite Hheld.
      unfold binCoordinates, BinnedData.getBinIndices.
      now rewrite Ha1, Ha2, Ha3.
    - injection Hfix as <-. split; [apply sameFrame_refl|]. auto 10. }
  apply bind_Ok in H as (keep & Hcuts & H).
  apply bind_Ok in H as ([d2 keep2] & Hloop & H).
  apply bind_Ok in H as (bd & Hprune & H). injection H as <-.
  destruct Hframe as (Hidx & Ha1 & Ha2 & Ha3 & _).
  pose proof Hloop as Hkeep.
  apply finalizeBin_loop in Hkeep as (E & F & K).
  apply finalizeBin_loop_tabulates in Hloop as (C2 & R2 & M2 & Z2);
    [|assumption|rewrite Hidx; assumption|rewrite Hidx; assumption|assumption].
  rewrite Hr1 in R2. rewrite Hmu1 in M2. rewrite Hz1 in Z2. simpl in R2, M2, Z2.
  split; [reflexivity|].
  pose proof (prune_index _ _ _ Hprune) as Hleft. rewrite E, Hidx in Hleft.
  assert (BinnedData.bd_index bd
          = tabulated (base d1) (_llmin d1) keep (BinnedData.bd_index (base d)))
    as Hidx'.
  { rewrite Hleft. unfold tabulated. apply list_filter_iff_in.
    intros b Hb. rewrite K, Hidx. tauto. }
  assert (forall b, binCoordinates (base d1) b = binCoordinates (base d) b)
    as Hsame.
  { intros b. unfold binCoordinates, BinnedData.getBinIndices.
    now rewrite Ha1, Ha2, Ha3. }
  intros b Hb. simpl in Hb.
  destruct (binCoordinates (base d) b) as [[r mu] z] eqn:Hval.
  exists r, mu, z. split; [reflexivity|].
  apply list_elem_of_lookup in Hb as [o Ho].
  assert (NoDup (BinnedData.bd_index bd)) as Hnodup'.
  { rewrite Hleft. apply NoDup_filter. exact Hnodup. }
  assert (BinnedData.getOffsetForIndex bd b = Ok o) as Hoff
    by (apply getOffsetForIndex_lookup; assumption).
  assert (tabulated (base d1) (_llmin d1) keep (BinnedData.bd_index (base d1))
            !! o = Some b) as Ho'
    by (rewrite Hidx, <- Hidx'; exact Ho).
  assert (_rLookup d2 !! o = Some r) as HR.
  { rewrite R2, list_lookup_fmap, Ho'.
    change (Some (binCoordinates (base d1) b).1.1 = Some r).
    now rewrite Hsame, Hval. }
  assert (_muLookup d2 !! o = Some mu) as HM.
  { rewrite M2, list_lookup_fmap, Ho'.
    change (Some (binCoordinates (base d1) b).1.2 = Some mu).
    now rewrite Hsame, Hval. }
  assert (_zLookup d2 !! o = Some z) as HZ.
  { rewrite Z2, list_lookup_fmap, Ho'.
    change (Some (binCoordinates (base d1) b).2 = Some z).
    now rewrite Hsame, Hval. }
  unfold getRadius, getCosAngle, getRedshift, isFinalized. simpl.
  change (BinnedData.getOffsetForIndex (baseFinalize bd) b)
    with (BinnedData.getOffsetForIndex bd b).
  rewrite Hoff. simpl. unfold at_. rewrite HR, HM, HZ. auto.
Qed.

End Cache.

Ltac compute_IZR_in H :=
  repeat match type of H with
         | context [IZR ?z] =>
             lazymatch z with
             | Z0 => fail
             | Zpos _ => fail
             | Zneg _ => fail
             | _ => let z' := eval vm_compute in z in change z with z' in H
             end
         end.

Ltac run_cuts :=
  repeat (match goal with
          | |- context [decide (?i ∉ ?s)] =>
              let H := fresh in
              destruct (decide (i ∉ s)) as [H|_];
              [exfalso; apply H; set_solver|]
          | |- context [decide (?x < ?y)] =>
              let H := fresh in
              destruct (decide (x < y)) as [H|H];
              compute_IZR_in H; try (exfalso; lra)
          end; simpl).

Lemma threeLLFix_finalize :
  exists d',
    @QuasarCorrelationData.finalize unitUniverse smallLapack zeroMemory keepAll
      threeLLFix = Ok d'
    /\ BinnedData.bd_index (QuasarCorrelationData.base d') = [3%Z; 4%Z].
Proof.
  unfold QuasarCorrelationData.finalize. simpl. run_cuts.
  eexists. split; [reflexivity|]. reflexivity.
Qed.

Lemma threeLLFix_NoDup :
  NoDup (BinnedData.bd_index (QuasarCorrelationData.base threeLLFix)).
Proof.
  simpl.
  repeat (apply NoDup_cons; split;
          [let H := fresh in
           intros H; repeat (apply elem_of_cons in H as [H|H]; [lia|]);
           inversion H|]).
  apply NoDup_nil_2.
Qed.

Lemma threeLLFix_valid (b : Z) :
  b ∈ BinnedData.bd_index (QuasarCorrelationData.base threeLLFix) ->
  validIndex (QuasarCorrelationData.base threeLLFix) b.
Proof.
  intros Hb. unfold validIndex, BinnedData.getNBinsTotal. simpl in *.
  repeat (apply elem_of_cons in Hb as [->|Hb]; [lia|]). inversion Hb.
Qed.

Lemma threeLLData_valid (b : Z) :
  b ∈ BinnedData.bd_index (QuasarCorrelationData.base threeLLData) ->
  validIndex (QuasarCorrelationData.base threeLLData) b.
Proof.
  intros Hb. unfold validIndex, BinnedData.getNBinsTotal. simpl in *.
  repeat (apply elem_of_cons in Hb as [->|Hb]; [lia|]). inversion Hb.
Qed.

Lemma finalize_tabulates_witness :
  exists d' r mu z,
    @QuasarCorrelationData.finalize unitUniverse smallLapack zeroMemory keepAll
      threeLLFix = Ok d'
    /\ @binCoordinates unitUniverse (QuasarCorrelationData.base threeLLFix) 3
       = (r, mu, z)
    /\ @QuasarCorrelationData.getRadius unitUniverse 3 d' = Ok (d', r)
    /\ @QuasarCorrelationData.getCosAngle unitUniverse 3 d' = Ok (d', mu)
    /\ @QuasarCorrelationData.getRedshift unitUniverse 3 d' = Ok (d', z).
Proof.
  destruct threeLLFix_finalize as (d' & Hrun & Hleft).
  destruct (@finalize_tabulates unitUniverse smallLapack zeroMemory keepAll
              threeLLFix d'
              eq_refl (or_introl eq_refl) eq_refl eq_refl eq_refl
              threeLLFix_NoDup threeLLFix_valid Hrun)
    as [_ Hall].
  destruct (Hall 3%Z ltac:(rewrite Hleft; set_solver))
    as (r & mu & z & Hval & Hr & Hmu & Hz).
  exists d', r, mu, z. auto.
Defined.

Lemma getters_read_through_cache_witness :
  exists d0 r0 d' r mu z,
    @QuasarCorrelationData.getRadius unitUniverse 0 threeLLData = Ok (d0, r0)
    /\ QuasarCorrelationData._lastIndex d0 = 0%Z
    /\ @binCoordinates unitUniverse (QuasarCorrelationData.base threeLLData) 3
       = (r, mu, z)
    /\ @QuasarCorrelationData.getRadius unitUniverse 3 d0 = Ok (d', r)
    /\ @QuasarCorrelationData.getCosAngle unitUniverse 3 d0 = Ok (d', mu)
    /\ @QuasarCorrelationData.getRedshift unitUniverse 3 d0 = Ok (d', z)
    /\ QuasarCorrelationData._lastIndex d' = 3%Z
    /\ QuasarCorrelationData._rLast d' = r.
Proof.
  destruct (@getters_read_through_cache unitUniverse 0 threeLLData eq_refl
              (threeLLData_valid 0 ltac:(simpl; constructor))
              (or_introl eq_refl))
    as (d0 & r0 & mu0 & z0 & _ & Hr0 & _ & _ & Hbase0 & Hcache0 & Hlast0 & _).
  assert (QuasarCorrelationData.isFinalized d0 = false) as Hfin0.
  { unfold QuasarCorrelationData.isFinalized. rewrite Hbase0. reflexivity. }
  assert (validIndex (QuasarCorrelationData.base d0) 3) as Hvalid.
  { rewrite Hbase0. apply threeLLData_valid. simpl.
    apply elem_of_cons. right. constructor. }
  destruct (@getters_read_through_cache unitUniverse 3 d0 Hfin0 Hvalid Hcache0)
    as (d' & r & mu & z & Hval & Hr & Hmu & Hz & _ & _ & Hlast & Hcached).
  rewrite Hbase0 in Hval. injection Hcached as Hrl _ _.
  exists d0, r0, d', r, mu, z. auto 10.
Defined.

(** ** [ComovingCorrelationData] *)

Section Comoving.
Import ComovingCorrelationData.
Context {L : Lapack} {cuts : FinalCuts}.

(** X7. The three getters of a co-moving dataset answer with the centers
    of the bin they are asked about along the three axes, whatever bin the
    cache held, and leave the cache holding the centers of that bin. *)
Theorem comoving_getters (index : Z) (d : t) :
  validIndex (base d) index -> centersCached d ->
  exists d',
    let '(i1, i2, i3) := BinnedData.getBinIndices (base d) index in
    getRadius index d = Ok (d', getBinCenter (BinnedData.bd_axis1 (base d)) i1)
    /\ getCosAngle index d
       = Ok (d', getBinCenter (BinnedData.bd_axis2 (base d)) i2)
    /\ getRedshift index d
       = Ok (d', getBinCenter (BinnedData.bd_axis3 (base d)) i3)
    /\ base d' = base d /\ _lastIndex d' = index /\ centersCached d'.
Proof.
  intros Hindex Hcache. exists (_setIndex index d).
  assert (index <> (-1)%Z) as Hne1 by (unfold validIndex in Hindex; lia).
  unfold getRadius, getCosAngle, getRedshift, _setIndex.
  destruct (decide (index = _lastIndex d)) as [->|Hne].
  - destruct Hcache as [Hfresh|Hheld]; [contradiction|].
    rewrite Hheld. unfold BinnedData.getBinCenters, BinnedData.getBinIndices.
    simpl. repeat (split; [reflexivity|]). right; exact Hheld.
  - unfold BinnedData.getBinCenters, BinnedData.getBinIndices. simpl.
    repeat (split; [reflexivity|]). right; reflexivity.
Qed.


End Comoving.

Lemma comoving_getters_witness :
  exists d',
    ComovingCorrelationData.getCosAngle 1 twoComoving = Ok (d', 5 + 10 * 1)
    /\ ComovingCorrelationData._lastIndex d' = 1%Z.
Proof.
  destruct (comoving_getters 1 twoComoving) as (d' & H).
  - unfold validIndex, BinnedData.getNBinsTotal. simpl. lia.
  - left. reflexivity.
  - exists d'. simpl in H. destruct H as (_ & Hmu & _ & _ & Hlast & _).
    split; [exact Hmu|exact Hlast].
Defined.


(** ** Filling a plate *)

Section AddData.
Import LyaData.
Context {cosmology : AbsHomogeneousUniverse} {L : Lapack} {Sum : BinnedDataSum}.

Lemma at_Z_put_Z {A} (v v' : list A) (k : Z) (a : A) :
  put_Z v k a = Ok v' -> at_Z v' k = Ok a.
Proof.
  unfold put_Z, at_Z, put, at_. destruct (decide (0 <= k)%Z); [|discriminate].
  destruct (decide _) as [Hlt|]; [|discriminate].
  intros H. injection H as <-. now rewrite list_lookup_insert_eq.
Qed.

Lemma assert_Ok (b : bool) (u : unit) : assert b = Ok u -> b = true.
Proof. destruct b; [reflexivity|discriminate]. Qed.

(** What a call of [addData] that returns has done. *)
Lemma addData_Ok (value logLambda separation redshift : R) (d d' : t) :
  addData value logLambda separation redshift d = Ok d' ->
  exists llBin sepBin zBin initialized binnedData,
    let index := ((llBin * _nsep d + sepBin) * _nz d + zBin)%Z in
    let ds := getBinWidth (_separationBinning d) sepBin in
    getBinIndex (_logLambdaBinning d) logLambda = Ok llBin
    /\ getBinIndex (_separationBinning d) separation = Ok sepBin
    /\ getBinIndex (_redshiftBinning d) redshift = Ok zBin
    /\ Rabs (logLambda - getBinCenter (_logLambdaBinning d) llBin) < 1e-6
    /\ Rabs (separation - getBinCenter (_separationBinning d) sepBin) < 1e-6
    /\ Rabs (redshift - getBinCenter (_redshiftBinning d) zBin) < 1e-6
    /\ at_Z (_initialized d) index = Ok false
    /\ put_Z (_initialized d) index true = Ok initialized
    /\ BinnedData.getIndex (_binnedData d) [logLambda; separation; redshift]
       = Ok index
    /\ BinnedData.setData (_binnedData d) index value false = Ok binnedData
    /\ d' = set_mu (_mu d ++ [(LyaData_transform logLambda separation redshift ds).2])
              (set_r3d (_r3d d ++ [(LyaData_transform logLambda separation redshift ds).1])
                 (set_binnedData binnedData
                    (set_index (_index d ++ [index])
                       (set_initialized initialized
                          (set_data (_data d ++ [value]) d))))).
Proof.
  unfold addData. intros H.
  apply bind_Ok in H as (llBin & Hll & H).
  apply bind_Ok in H as (sepBin & Hsep & H).
  apply bind_Ok in H as (zBin & Hz & H).
  apply bind_Ok in H as ([] & Hc1 & H). apply assert_Ok in Hc1.
  apply bind_Ok in H as ([] & Hc2 & H). apply assert_Ok in Hc2.
  apply bind_Ok in H as ([] & Hc3 & H). apply assert_Ok in Hc3.
  apply bool_decide_eq_true_1 in Hc1, Hc2, Hc3.
  apply bind_Ok in H as (filled & Hfilled & H).
  apply bind_Ok in H as ([] & Hfresh & H). apply assert_Ok in Hfresh.
  destruct filled; [discriminate|].
  apply bind_Ok in H as (initialized & Hput & H).
  apply bind_Ok in H as (index' & Hindex' & H).
  apply bind_Ok in H as ([] & Hsame & H). apply assert_Ok in Hsame.
  apply bool_decide_eq_true_1 in Hsame. subst index'.
  apply bind_Ok in H as (binnedData & Hset & H).
  exists llBin, sepBin, zBin, initialized, binnedData.
  repeat (split; [assumption|]).
  destruct (LyaData_transform _ _ _ _) as [r3d mu] eqn:Ht.
  injection H as <-. reflexivity.
Qed.

Lemma setData_Ok (bd bd' : BinnedData.t) (index : Z) (value : R) (weighted : bool) :
  BinnedData.setData bd index value weighted = Ok bd' ->
  (index ∉ BinnedData.bd_index bd)
  /\ BinnedData.bd_index bd' = BinnedData.bd_index bd ++ [index]
  /\ BinnedData.bd_data bd' = BinnedData.bd_data bd ++ [value].
Proof.
  unfold BinnedData.setData, BinnedData.hasData.
  destruct (bool_decide _) eqn:Hhas; [discriminate|].
  apply bool_decide_eq_false_1 in Hhas.
  intros H. injection H as <-. auto.
Qed.

Lemma addData_appends (value logLambda separation redshift : R) (d d' : t) :
  Filling d ->
  addData value logLambda separation redshift d = Ok d' ->
  Filling d'
  /\ getNData d' = S (getNData d)
  /\ getData d' (getNData d) = Ok value
  /\ exists llBin sepBin zBin,
       getBinIndex (_logLambdaBinning d) logLambda = Ok llBin
       /\ getBinIndex (_separationBinning d) separation = Ok sepBin
       /\ getBinIndex (_redshiftBinning d) redshift = Ok zBin
       /\ getIndex d' (getNData d)
          = Ok ((llBin * _nsep d + sepBin) * _nz d + zBin)%Z
       /\ getRadius d' (getNData d)
          = Ok (LyaData_transform logLambda separation redshift
                  (getBinWidth (_separationBinning d) sepBin)).1
       /\ getCosAngle d' (getNData d)
          = Ok (LyaData_transform logLambda separation redshift
                  (getBinWidth (_separationBinning d) sepBin)).2.
Proof.
  intros (Hidx & Hdata & Hli & Hlr & Hlm & Hnodup) H.
  apply addData_Ok in H
    as (llBin & sepBin & zBin & initialized & binnedData & Hll & Hsep & Hz
        & _ & _ & _ & _ & _ & _ & Hset & ->).
  apply setData_Ok in Hset as (Hfresh & Hidx' & Hdata').
  unfold Filling, getNData, getData, getIndex, getRadius, getCosAngle, at_.
  simpl. rewrite Hidx', Hdata', <- Hidx, <- Hdata.
  rewrite !length_app. simpl.
  split.
  { repeat (split; [first [reflexivity | lia]|]).
    apply NoDup_app. split; [exact Hnodup|]. split.
    - intros x Hx Hx'. apply list_elem_of_singleton in Hx' as ->.
      apply Hfresh. rewrite <- Hidx. exact Hx.
    - apply NoDup_singleton. }
  split; [lia|].
  split; [now rewrite list_lookup_middle|].
  exists llBin, sepBin, zBin. repeat (split; [assumption|]).
  rewrite !list_lookup_middle by congruence. auto.
Qed.

(** X9. Each call of [addData] that returns appends one entry to the data,
    to the bin indices and to the cached radii and cosines of the plate,
    and one bin to its binned dataset: the vectors stay aligned, and the
    new entry holds the value, the index of the bin of the three
    coordinates, and the transform of the coordinates with the width of
    the separation bin. *)
Theorem addData_fills (value logLambda separation redshift : R) (d d' : t) :
  Filling d ->
  addData value logLambda separation redshift d = Ok d' ->
  Filling d'
  /\ getNData d' = S (getNData d)
  /\ getData d' (getNData d) = Ok value
  /\ exists llBin sepBin zBin,
       getBinIndex (_logLambdaBinning d) logLambda = Ok llBin
       /\ getBinIndex (_separationBinning d) separation = Ok sepBin
       /\ getBinIndex (_redshiftBinning d) redshift = Ok zBin
       /\ getIndex d' (getNData d)
          = Ok ((llBin * _nsep d + sepBin) * _nz d + zBin)%Z
       /\ getRadius d' (getNData d)
          = Ok (LyaData_transform logLambda separation redshift
                  (getBinWidth (_separationBinning d) sepBin)).1
       /\ getCosAngle d' (getNData d)
          = Ok (LyaData_transform logLambda separation redshift
                  (getBinWidth (_separationBinning d) sepBin)).2.
Proof. apply addData_appends. Qed.

(** X10. The redshift that [getRedshift] decodes from the index of a bin is
    the center of the redshift bin that [addData] filed the bin under, so
    it is within [1e-6] of the redshift that was given, provided the
    redshift binning answers with a bin index in [0, _nz). *)
Theorem getRedshift_decodes (value logLambda separation redshift : R)
    (d d' : t) :
  length (_index d) = length (_data d) ->
  (forall zBin, getBinIndex (_redshiftBinning d) redshift = Ok zBin ->
                (0 <= zBin < _nz d)%Z) ->
  addData value logLambda separation redshift d = Ok d' ->
  exists zBin z,
    getBinIndex (_redshiftBinning d) redshift = Ok zBin
    /\ getRedshift d' (getNData d) = Ok z
    /\ z = getBinCenter (_redshiftBinning d) zBin
    /\ Rabs (redshift - z) < 1e-6.
Proof.
  intros Hli Hrange H.
  apply addData_Ok in H
    as (llBin & sepBin & zBin & initialized & binnedData & _ & _ & Hz
        & _ & _ & Hclose & Hfilled & _ & _ & _ & ->).
  specialize (Hrange zBin Hz).
  exists zBin, (getBinCenter (_redshiftBinning d) zBin).
  split; [exact Hz|]. split; [|split; [reflexivity|exact Hclose]].
  unfold getRedshift, getNData, at_. simpl.
  rewrite list_lookup_middle by congruence. simpl.
  do 2 f_equal.
  assert (0 <= (llBin * _nsep d + sepBin) * _nz d + zBin)%Z as Hnonneg.
  { unfold at_Z in Hfilled. destruct (decide _); [assumption|discriminate]. }
  rewrite Z.rem_mod_nonneg by lia.
  rewrite Z.add_comm, Z.mod_add by lia. apply Z.mod_small. exact Hrange.
Qed.

(** X11. A bin is filled once: after a call of [addData] that returned, a
    second call with the same coordinates fails its assertion, and so
    does one that follows [reset], which clears the data but not the
    record of the bins that were filled. *)
Theorem addData_once (value logLambda separation redshift : R) (d d' : t) :
  addData value logLambda separation redshift d = Ok d' ->
  forall value',
    addData value' logLambda separation redshift d' = Err AssertionFailure
    /\ addData value' logLambda separation redshift (reset d')
       = Err AssertionFailure.
Proof.
  intros H value'.
  apply addData_Ok in H
    as (llBin & sepBin & zBin & initialized & binnedData & Hll & Hsep & Hz
        & Hc1 & Hc2 & Hc3 & _ & Hput & _ & _ & ->).
  apply at_Z_put_Z in Hput.
  split; unfold addData; simpl; rewrite Hll, Hsep, Hz; simpl;
    rewrite !bool_decide_eq_true_2 by assumption; simpl;
    rewrite Hput; reflexivity.
Qed.

Lemma count_insert_true (v : list bool) (k : nat) :
  v !! k = Some false ->
  length (filter (fun seen => seen = true) (<[k:=true]> v))
  = S (length (filter (fun seen => seen = true) v)).
Proof.
  revert k. induction v as [|b v IH]; intros k Hk; [discriminate|].
  destruct k as [|k]; simpl in *.
  - injection Hk as ->.
    rewrite (filter_cons_False _ false) by discriminate. reflexivity.
  - rewrite !filter_cons. destruct (decide (b = true)); simpl;
      rewrite (IH k Hk); reflexivity.
Qed.

(** What a call of [addCovariance] that returns has done to the flags. *)
Lemma addCovariance_Ok (i j : Z) (value : R) (cov_is_icov : bool) (d d' : t) :
  addCovariance i j value cov_is_icov d = Ok d' ->
  let row := if decide (i >= j)%Z then j else i in
  let col := if decide (i >= j)%Z then i else j in
  let index := (row + (col * (col + 1)) `div` 2)%Z in
  _dataFinalized d = true
  /\ (0 <= row)%Z /\ (0 <= col < Z.of_nat (getNData d))%Z
  /\ (0 <= index)%Z
  /\ _hasCov d !! Z.to_nat index = Some false
  /\ _hasCov d' = <[Z.to_nat index := true]> (_hasCov d)
  /\ _dataFinalized d' = true /\ _data d' = _data d.
Proof.
  unfold addCovariance.
  destruct (decide (i >= j)%Z) as [Hge|Hlt]; simpl; intros H;
    apply bind_Ok in H as ([] & Hfin & H); apply assert_Ok in Hfin;
    apply bind_Ok in H as ([] & Hrange & H); apply assert_Ok in Hrange;
    apply andb_true_iff in Hrange as [Hrange Hcol];
    apply andb_true_iff in Hrange as [Hrow Hcol0];
    apply bool_decide_eq_true_1 in Hrow, Hcol0, Hcol;
    apply bind_Ok in H as (seen & Hseen & H);
    apply bind_Ok in H as ([] & Hfresh & H); apply assert_Ok in Hfresh;
    apply bool_decide_eq_true_1 in Hfresh; subst seen;
    apply bind_Ok in H as (ii & _ & H);
    apply bind_Ok in H as (jj & _ & H);
    apply bind_Ok in H as (covariance & _ & H);
    apply bind_Ok in H as (d1 & Hd1 & H);
    apply bind_Ok in H as (hasCov & Hput & H); injection H as <-;
    (assert (_hasCov d1 = _hasCov d /\ _dataFinalized d1 = true
             /\ _data d1 = _data d) as (E1 & E2 & E3);
     [destruct cov_is_icov;
      apply bind_Ok in Hd1 as (c & _ & Hd1);
      apply bind_Ok in Hd1 as (bd & _ & Hd1); injection Hd1 as <-;
      auto|]);
    rewrite E1 in Hput; unfold at_Z, at_ in Hseen; unfold put_Z, put in Hput;
    (destruct (decide _) as [Hnonneg|]; [|discriminate]);
    (destruct (_ !! _) as [seen|] eqn:Hlook; [|discriminate]);
    injection Hseen as ->;
    (destruct (decide _); [|discriminate]); injection Hput as <-;
    simpl; repeat (split; [first [assumption | lia]|]); auto.
Qed.

(** X12. A covariance element is given once: after a call of
    [addCovariance(i,j,...)] that returned, a second call for [(i,j)] or
    for [(j,i)] fails its assertion, and the number of elements that
    [getNCov] counts has grown by one. *)
Theorem addCovariance_once (i j : Z) (value : R) (cov_is_icov : bool)
    (d d' : t) :
  addCovariance i j value cov_is_icov d = Ok d' ->
  getNCov d' = S (getNCov d)
  /\ forall value' cov_is_icov',
       addCovariance i j value' cov_is_icov' d' = Err AssertionFailure
       /\ addCovariance j i value' cov_is_icov' d' = Err AssertionFailure.
Proof.
  intros H. apply addCovariance_Ok in H as Hdone. simpl in Hdone.
  destruct Hdone as (Hfin & Hrow & Hcol & Hindex & Hseen & Hflags & Hfin' & Hdata').
  split.
  { unfold getNCov. rewrite Hflags. now apply count_insert_true. }
  assert (forall a b value' cov_is_icov',
            (if decide (a >= b)%Z then (b, a) else (a, b))
            = (if decide (i >= j)%Z then (j, i) else (i, j)) ->
            addCovariance a b value' cov_is_icov' d' = Err AssertionFailure)
    as Hagain.
  { intros a b value' cov_is_icov' Hsame. unfold addCovariance.
    rewrite Hsame.
    destruct (decide (i >= j)%Z); rewrite Hfin'; simpl;
      unfold getNData; rewrite Hdata';
      rewrite !bool_decide_eq_true_2 by (unfold getNData in Hcol; lia); simpl;
      unfold at_Z, at_; rewrite decide_True by lia;
      rewrite Hflags, list_lookup_insert_eq
        by (apply lookup_lt_Some in Hseen; exact Hseen);
      reflexivity. }
  intros value' cov_is_icov'. split; apply Hagain; [reflexivity|].
  destruct (decide (j >= i)%Z), (decide (i >= j)%Z); try reflexivity; try lia.
  assert (i = j) as -> by lia. reflexivity.
Qed.

End AddData.

(** ** [finalize] without repetitions *)

(** ** Packed products *)

Lemma Rsum_cons (x : R) (l : list R) : Rsum (x :: l) = x + Rsum l.
Proof. reflexivity. Qed.

Lemma Rsum_scale {A} (c : R) (f : A -> R) (l : list A) :
  Rsum ((fun x => c * f x) <$> l) = c * Rsum (f <$> l).
Proof.
  induction l as [|x l IH]; [simpl; lra|].
  rewrite !fmap_cons, !Rsum_cons, IH. lra.
Qed.

Lemma Rsum_ext {A} (f g : A -> R) (l : list A) :
  (forall x, x ∈ l -> f x = g x) -> Rsum (f <$> l) = Rsum (g <$> l).
Proof.
  induction l as [|x l IH]; intros H; [reflexivity|].
  rewrite !fmap_cons, !Rsum_cons, (H x) by left. rewrite IH; [reflexivity|].
  intros y Hy. apply H. now right.
Qed.

Lemma Rsum_zero {A} (f : A -> R) (l : list A) :
  (forall x, x ∈ l -> f x = 0) -> Rsum (f <$> l) = 0.
Proof.
  induction l as [|x l IH]; intros H; [reflexivity|].
  rewrite fmap_cons, Rsum_cons, (H x) by left. rewrite IH; [lra|].
  intros y Hy. apply H. now right.
Qed.

(** A sum against the unit vector [e_j] picks the term [j]. *)
Lemma Rsum_unit (f : nat -> R) (j : nat) (s n : nat) :
  (s <= j < s + n)%nat ->
  Rsum ((fun k => f k * (if decide (k = j) then 1 else 0)) <$> seq s n) = f j.
Proof.
  revert s. induction n as [|n IH]; intros s Hj; [lia|].
  rewrite <- cons_seq, fmap_cons, Rsum_cons.
  destruct (decide (s = j)) as [->|Hne].
  - rewrite Rsum_zero; [lra|].
    intros k Hk. apply elem_of_seq in Hk.
    rewrite decide_False by lia. lra.
  - rewrite IH by lia. lra.
Qed.

Lemma unitVector_lookup (n j k : nat) :
  (j < n)%nat -> (k < n)%nat ->
  default 0 (unitVector n j !! k) = if decide (k = j) then 1 else 0.
Proof.
  intros Hj Hk. unfold unitVector.
  destruct (decide (k = j)) as [->|Hne].
  - now rewrite list_lookup_insert_eq by (rewrite length_replicate; lia).
  - rewrite list_lookup_insert_ne by congruence.
    now rewrite lookup_replicate_2.
Qed.

Lemma symmetricMultiply_lookup (n : nat) (m v : list R) (i : nat) :
  (i < n)%nat ->
  symmetricMultiply n m v !! i
  = Some (Rsum ((fun j => packedGet m i j * default 0 (v !! j)) <$> seq 0 n)).
Proof.
  intros Hi. unfold symmetricMultiply.
  rewrite list_lookup_fmap, lookup_seq_lt by exact Hi. reflexivity.
Qed.

(** Column [j] of a packed matrix is its product with [e_j]. *)
Lemma symmetricMultiply_unit (n : nat) (m : list R) (j i : nat) :
  (j < n)%nat -> (i < n)%nat ->
  symmetricMultiply n m (unitVector n j) !! i = Some (packedGet m i j).
Proof.
  intros Hj Hi. rewrite symmetricMultiply_lookup by exact Hi. f_equal.
  rewrite (Rsum_ext _ (fun k => packedGet m i k
                                * (if decide (k = j) then 1 else 0))).
  - apply Rsum_unit. lia.
  - intros k Hk. apply elem_of_seq in Hk.
    rewrite unitVector_lookup by lia. reflexivity.
Qed.

(** The rows of an exact inverse against the columns of the matrix. *)
Lemma inverse_row_column {L : Lapack} {E : LapackExact L} (n : nat)
    (m m' : list R) (k j : nat) :
  invert n m = Some m' -> (k < n)%nat -> (j < n)%nat ->
  Rsum ((fun l => packedGet m' k l * packedGet m l j) <$> seq 0 n)
  = if decide (k = j) then 1 else 0.
Proof.
  intros Hinv Hk Hj.
  pose proof (invert_left_inverse n m m' (unitVector n j) Hinv) as Hleft.
  specialize (Hleft ltac:(unfold unitVector;
                          now rewrite length_insert, length_replicate)).
  apply (f_equal (fun v => default 0 (v !! k))) in Hleft.
  rewrite unitVector_lookup in Hleft by assumption.
  rewrite symmetricMultiply_lookup in Hleft by exact Hk. simpl in Hleft.
  rewrite <- Hleft. apply Rsum_ext. intros l Hl. apply elem_of_seq in Hl.
  now rewrite symmetricMultiply_unit by lia.
Qed.

Lemma packedOf_S (n : nat) (f : nat -> nat -> R) :
  packedOf (S n) f = packedOf n f ++ packedColumn f n.
Proof.
  unfold packedOf. rewrite seq_S, fmap_app. simpl.
  rewrite join_app. simpl. now rewrite app_nil_r.
Qed.

Lemma packedOf_length (n : nat) (f : nat -> nat -> R) :
  length (packedOf n f) = packedSize n.
Proof.
  induction n as [|n IH]; [reflexivity|].
  rewrite packedOf_S, length_app, IH. unfold packedColumn, packedSize.
  rewrite length_fmap, length_seq, triangle_succ. reflexivity.
Qed.

Lemma packedOf_lookup (n : nat) (f : nat -> nat -> R) (row col : nat) :
  (row <= col)%nat -> (col < n)%nat ->
  packedOf n f !! (row + (col * (col + 1)) / 2)%nat = Some (f row col).
Proof.
  intros Hrc. induction n as [|n IH]; intros Hcol; [lia|].
  rewrite packedOf_S.
  destruct (decide (col < n)%nat) as [Hlt|Hge].
  - rewrite lookup_app_l; [now apply IH|].
    rewrite packedOf_length. apply (symmetricIndex_lt n row col) in Hlt; [|lia].
    unfold symmetricIndex in Hlt.
    destruct (decide (col <= row)%nat); [|exact Hlt].
    assert (row = col) as -> by lia. exact Hlt.
  - assert (col = n) as -> by lia.
    rewrite lookup_app_r; rewrite packedOf_length; unfold packedSize; [|lia].
    replace (row + n * (n + 1) / 2 - n * (n + 1) / 2)%nat with row by lia.
    unfold packedColumn. rewrite list_lookup_fmap, lookup_seq_lt by lia.
    reflexivity.
Qed.

(** A packed matrix is determined by its elements. *)
Lemma packedOf_elements (n : nat) (f : nat -> nat -> R) (m : list R) :
  length m = packedSize n ->
  (forall row col, (row <= col)%nat -> (col < n)%nat ->
     f row col = packedGet m row col) ->
  packedOf n f = m.
Proof.
  revert m. induction n as [|n IH]; intros m Hlen Hf.
  - destruct m; [reflexivity|discriminate].
  - rewrite packedOf_S.
    unfold packedSize in Hlen. rewrite triangle_succ in Hlen.
    fold (packedSize n) in Hlen.
    rewrite <- (take_drop (packedSize n) m). f_equal.
    + apply IH.
      * rewrite length_take. lia.
      * intros row col Hrc Hcol. rewrite Hf by lia.
        unfold packedGet. rewrite lookup_take_lt; [reflexivity|].
        apply symmetricIndex_lt; lia.
    + apply list_eq. intros row. unfold packedColumn.
      rewrite list_lookup_fmap, lookup_drop.
      destruct (decide (row < S n)%nat) as [Hrow|Hrow].
      * rewrite lookup_seq_lt by exact Hrow. simpl.
        rewrite Hf by lia. unfold packedGet, symmetricIndex.
        destruct (decide (n <= row)%nat) as [Hnr|Hnr].
        -- assert (row = n) as -> by lia. unfold packedSize in *.
           rewrite (Nat.add_comm n).
           destruct (m !! _) eqn:Hm; [reflexivity|].
           apply lookup_ge_None_1 in Hm. lia.
        -- unfold packedSize in *. rewrite (Nat.add_comm row).
           destruct (m !! _) eqn:Hm; [reflexivity|].
           apply lookup_ge_None_1 in Hm. lia.
      * rewrite lookup_seq_ge by lia. simpl. symmetry.
        apply lookup_ge_None_2. unfold packedSize in *. lia.
Qed.

(** [a * a^-1 * a = a]. *)
Lemma tripleProduct_inverse {L : Lapack} {E : LapackExact L} (n : nat)
    (m m' : list R) :
  invert n m = Some m' -> length m = packedSize n ->
  tripleProduct n m m' = m.
Proof.
  intros Hinv Hlen. unfold tripleProduct.
  apply packedOf_elements; [exact Hlen|].
  intros row col Hrc Hcol.
  rewrite (Rsum_ext _ (fun k => packedGet m row k
                                * (if decide (k = col) then 1 else 0))).
  - apply Rsum_unit. lia.
  - intros k Hk. apply elem_of_seq in Hk.
    rewrite <- (inverse_row_column n m m' k col Hinv) by lia.
    rewrite <- Rsum_scale. apply Rsum_ext. intros l _. lra.
Qed.

Section FixWithoutRepetition.
Import LyaData Lifecycle.
Context {cosmology : AbsHomogeneousUniverse} {L : Lapack} {Sum : BinnedDataSum}.

Lemma add_first_Unrepeated (n : nat) (d p d' : t) :
  Empty d -> Plate n p -> (0 < n)%nat -> add p 1 d = Ok d' ->
  Unrepeated n d'.
Proof.
  intros Hempty Hplate Hn Hadd.
  destruct (add_first n d p 1 Hempty Hplate)
    as (d1 & c & m & Hadd1 & _ & (_ & _ & Hlen) & Hdf & Hcf & Hz & Hdata
        & Hicov & Hcov & Htilde).
  rewrite Hadd in Hadd1. injection Hadd1 as <-.
  pose proof (Plate_icovData_length n p Hplate) as Hlo.
  split; [exact Hdf|]. split; [exact Hcf|]. split; [exact Hz|].
  split; [exact Hn|].
  split; [rewrite Hdata; apply length_replicate|].
  split; [rewrite Hicov, length_fmap; exact Hlo|].
  eexists. split; [exact Hcov|]. split; [rewrite Htilde, Hcov; reflexivity|].
  rewrite length_fmap. exact Hlen.
Qed.

Lemma add_next_Unrepeated (n : nat) (d p d' : t) :
  Unrepeated n d -> Plate n p -> add p 1 d = Ok d' -> Unrepeated n d'.
Proof.
  intros (Hdf & Hcf & Hz & Hn & Hdata & Hicov & m & Hc & Ht & Hlen) Hplate.
  pose proof (Plate_icovData_length n p Hplate) as Hlo.
  destruct Hplate as (Hodf & Hocf & Hodata & co & mo & Hco & Hmo & _ & _).
  unfold add. rewrite Hdf, Hcf, Hz, Hodf, Hocf. simpl.
  destruct (decide (0 = length (_data d))%nat) as [H0|_]; [lia|].
  unfold getNData. rewrite Hodata, Hdata.
  rewrite bool_decide_eq_true_2 by reflexivity. simpl. intros H.
  apply bind_Ok in H as (d1 & Hd1 & H).
  apply bind_Ok in Hd1 as (bd & _ & Hd1). injection Hd1 as <-.
  apply bind_Ok in H as (icovData & Hloop & H). simpl in *.
  destruct (addWeighted_loop 1 (_icovData p) n 0 (_icovData d))
    as (acc & Hrun & Hacc & _); [lia|lia|].
  rewrite Hrun in Hloop. injection Hloop as <-.
  rewrite Hc, Hco in H. simpl in H.
  apply bind_Ok in H as (c1 & Hadd1 & H). simpl in H.
  rewrite Ht, Hc in H. simpl in H.
  change (IZR (int_mul 1 1)) with (IZR 1) in Hadd1. rewrite Hadd1 in H.
  simpl in H.
  injection H as <-. simpl.
  destruct Hmo as (Hs & Hr & Hl).
  unfold CovarianceMatrix.addInverse in Hadd1. simpl in Hadd1.
  rewrite Hs in Hadd1. destruct (decide (n = n)); [|congruence].
  rewrite Hr in Hadd1. simpl in Hadd1. injection Hadd1 as <-.
  unfold Unrepeated. simpl.
  repeat (split; [first [assumption | reflexivity | lia]|]).
  eexists. split; [reflexivity|]. split; [reflexivity|].
  rewrite length_zip_with. lia.
Qed.

Lemma adds_Unrepeated (n : nat) (ps : list t) :
  forall d d', Unrepeated n d -> Forall (Plate n) ps ->
    for_each ps (fun p d => add p 1 d) d = Ok d' -> Unrepeated n d'.
Proof.
  induction ps as [|p ps IH]; intros d d' Hd Hps H.
  - injection H as <-. exact Hd.
  - simpl in H. destruct (add p 1 d) as [d1|] eqn:Hadd; [|discriminate].
    apply Forall_cons in Hps as [Hp Hps].
    apply (IH d1 d'); [|exact Hps|exact H].
    now apply (add_next_Unrepeated n d p d1).
Qed.

(** X15. With no repetitions, [fixCovariance = false] gives the same answer:
    when every plate was added once, [finalize(true)] returns whenever
    [finalize(false)] does and the final covariance can be read, with the
    same data and the same covariance. *)
Theorem finalize_fix_without_repetition {E : LapackExact L} (n : nat)
    (d0 : t) (ps : list t) (d d2 : t) (C : list R) :
  Empty d0 -> (0 < n)%nat -> ps <> [] -> Forall (Plate n) ps ->
  for_each ps (fun p d => add p 1 d) d0 = Ok d ->
  finalize false d = Ok d2 ->
  covarianceElements d2 = Ok C ->
  exists d1,
    finalize true d = Ok d1
    /\ Finalized d1
    /\ _data d1 = _data d2
    /\ covarianceElements d1 = Ok C.
Proof.
  intros Hempty Hn Hne Hps Hadds Hfalse HC.
  assert (Unrepeated n d) as Hd.
  { destruct ps as [|p ps]; [congruence|]. simpl in Hadds.
    destruct (add p 1 d0) as [d1|] eqn:Hadd; [|discriminate].
    apply Forall_cons in Hps as [Hp Hps].
    apply (adds_Unrepeated n ps d1 d); [|exact Hps|exact Hadds].
    now apply (add_first_Unrepeated n d0 p d1). }
  destruct Hd as (Hdf & Hcf & Hz & _ & Hdata & Hicov & m & Hc & Ht & Hlen).
  unfold finalize in *. rewrite Hdf, Hcf, Hz in *. simpl in *.
  rewrite Ht, Hc in *. simpl in *.
  apply bind_Ok in Hfalse as (data & Hmul & Hfalse). injection Hfalse as <-.
  rewrite Hmul. simpl.
  unfold covarianceElements in HC. simpl in HC.
  apply inverted_Ok in HC as Hinv.
  unfold CovarianceMatrix.replaceWithTripleProduct. simpl.
  destruct (decide (n = n)); [|congruence].
  rewrite HC. simpl. eexists. split; [reflexivity|].
  split; [split; reflexivity|]. split; [reflexivity|].
  unfold covarianceElements. simpl.
  rewrite (tripleProduct_inverse n m C Hinv Hlen). exact HC.
Qed.

End FixWithoutRepetition.

Lemma plate1_combined :
  exists d d2 C,
    for_each [plate1] (fun p d => @LyaData.add smallLapack keepLeft p 1 d)
      (LyaData.new oneBin oneBin oneBin) = Ok d
    /\ @LyaData.finalize smallLapack false d = Ok d2
    /\ @Lifecycle.covarianceElements smallLapack d2 = Ok C.
Proof.
  eexists. eexists. eexists. split; [reflexivity|].
  unfold LyaData.finalize, Lifecycle.covarianceElements. simpl.
  unfold CovarianceMatrix.multiplyByCovariance, CovarianceMatrix.checkLength.
  simpl. unfold CovarianceMatrix.readsCov, CovarianceMatrix.inverted. simpl.
  destruct (decide (0 < 0 + 1 * 1)) as [_|Hno]; [|exfalso; lra].
  simpl. split; [reflexivity|]. simpl.
  destruct (decide (0 < 0 + 1 * 1)) as [_|Hno]; [|exfalso; lra].
  reflexivity.
Qed.

Lemma finalize_fix_without_repetition_witness :
  exists d d1 d2,
    for_each [plate1] (fun p d => @LyaData.add smallLapack keepLeft p 1 d)
      (LyaData.new oneBin oneBin oneBin) = Ok d
    /\ @LyaData.finalize smallLapack false d = Ok d2
    /\ @LyaData.finalize smallLapack true d = Ok d1
    /\ LyaData._data d1 = LyaData._data d2.
Proof.
  destruct plate1_combined as (d & d2 & C & Hadds & Hfalse & HC).
  destruct (finalize_fix_without_repetition (L:=smallLapack) (Sum:=keepLeft)
              (E:=smallLapack_exact) 1
              (LyaData.new oneBin oneBin oneBin) [plate1] d d2 C
              (new_Empty oneBin oneBin oneBin) ltac:(lia) ltac:(discriminate)
              ltac:(apply Forall_cons; split;
                    [exact plate1_Plate|apply Forall_nil_2])
              Hadds Hfalse HC)
    as (d1 & Htrue & _ & Hdata & _).
  exists d, d1, d2. auto.
Defined.

(** ** [LyaData::load] *)

Section LoadPlate.
Import LyaData LyaDataLoad Lifecycle.
Context {cosmology : AbsHomogeneousUniverse} {L : Lapack} {Sum : BinnedDataSum}
  {P : LinePatterns}.

Lemma sameBins_refl (d : t) : sameBins d d.
Proof. repeat split. Qed.

Lemma sameBins_trans (d1 d2 d3 : t) :
  sameBins d1 d2 -> sameBins d2 d3 -> sameBins d1 d3.
Proof.
  intros (A1 & A2 & A3 & A4 & A5 & A6) (B1 & B2 & B3 & B4 & B5 & B6).
  repeat split; congruence.
Qed.

Lemma sameBins_Filling (d d' : t) : sameBins d d' -> Filling d -> Filling d'.
Proof.
  intros (A1 & A2 & A3 & A4 & A5 & A6) (F1 & F2 & F3 & F4 & F5 & F6).
  unfold Filling. rewrite A1, A2, A3, A4, A5, A6. auto 10.
Qed.

Lemma write_bins (icov : bool) (bd bd' : BinnedData.t) (i1 i2 : Z) (v : R) :
  (if icov then BinnedData.setInverseCovariance bd i1 i2 v
   else BinnedData.setCovariance bd i1 i2 v) = Ok bd' ->
  BinnedData.bd_index bd' = BinnedData.bd_index bd
  /\ BinnedData.bd_data bd' = BinnedData.bd_data bd.
Proof.
  unfold BinnedData.setInverseCovariance, BinnedData.setCovariance.
  destruct icov; intros H;
    apply bind_Ok in H as (o1 & _ & H); apply bind_Ok in H as (o2 & _ & H);
    apply bind_Ok in H as (c & _ & H); injection H as <-; auto.
Qed.

(** A covariance element that [addCovariance] stores leaves the bins as
    they are and the store ready for the next. *)
Lemma addCovariance_keeps (i j : Z) (value : R) (icov : bool) (n : nat)
    (d d' : t) (c : CovarianceMatrix.t) :
  _covariance d = Some c -> ready icov n c -> n = length (_data d) ->
  addCovariance i j value icov d = Ok d' ->
  sameBins d d' /\ _dataFinalized d' = _dataFinalized d
  /\ exists c', _covariance d' = Some c' /\ ready icov n c'.
Proof.
  intros Hc Hready Hn H.
  pose proof (addCovariance_Ok _ _ _ _ _ _ H) as Hdone. simpl in Hdone.
  destruct Hdone as (_ & Hrow & Hcol & _).
  assert (Z.to_nat i < n /\ Z.to_nat j < n)%nat as [Hi Hj].
  { unfold getNData in Hcol. destruct (decide (i >= j)%Z); lia. }
  destruct (ready_reads _ _ _ Hready) as (m & Hreads & Hlen).
  pose proof Hready as [Hsize _].
  unfold addCovariance in H.
  destruct (if decide (i >= j)%Z then (j, i) else (i, j)) as [row col].
  apply bind_Ok in H as ([] & _ & H). apply bind_Ok in H as ([] & _ & H).
  apply bind_Ok in H as (seen & _ & H). apply bind_Ok in H as ([] & _ & H).
  apply bind_Ok in H as (ii & _ & H). apply bind_Ok in H as (jj & _ & H).
  rewrite Hc in H. simpl in H.
  apply bind_Ok in H as (d1 & Hd1 & H).
  apply bind_Ok in H as (hasCov & _ & H). injection H as <-.
  pose proof (ready_write icov n c m (Z.to_nat i) (Z.to_nat j) value
                Hsize Hreads Hlen Hi Hj) as Hwrite.
  unfold write in Hwrite.
  assert (exists bd, d1 = set_binnedData bd
                          (set_covariance
                             (Some (CovarianceMatrix.mk n
                                      (holding icov
                                         (<[symmetricIndex (Z.to_nat i)
                                              (Z.to_nat j):=value]> m))
                                      false)) d)
                     /\ BinnedData.bd_index bd
                        = BinnedData.bd_index (_binnedData d)
                     /\ BinnedData.bd_data bd
                        = BinnedData.bd_data (_binnedData d))
    as (bd & -> & Hbi & Hbd).
  { destruct icov; rewrite Hwrite in Hd1; simpl in Hd1;
      apply bind_Ok in Hd1 as (bd & Hset & Hd1); injection Hd1 as <-;
      exists bd; (split; [reflexivity|]).
    - apply (write_bins true _ _ _ _ _ Hset).
    - apply (write_bins false _ _ _ _ _ Hset). }
  split; [repeat split; assumption|]. split; [reflexivity|].
  eexists. split; [reflexivity|].
  apply ready_holding. rewrite length_insert. exact Hlen.
Qed.

Lemma fixZeroDiagonal_bins (icov : bool) (k : nat) (d d' : t) :
  fixZeroDiagonal icov k d = Ok d' -> sameBins d d'.
Proof.
  unfold fixZeroDiagonal. intros H.
  apply bind_Ok in H as (c & _ & H).
  destruct icov;
    apply bind_Ok in H as (diag & _ & H);
    apply bind_Ok in H as (c' & _ & H); simpl in H;
    apply bind_Ok in H as (index & _ & H);
    apply bind_Ok in H as (diag' & _ & H);
    apply bind_Ok in H as (bd & Hbd & H); injection H as <-;
    (assert (BinnedData.bd_index bd = BinnedData.bd_index (_binnedData d)
             /\ BinnedData.bd_data bd = BinnedData.bd_data (_binnedData d))
       as [Hbi Hbdata];
     [destruct (decide (0 = diag'));
      [|injection Hbd as <-; auto]|repeat split; assumption]).
  - apply (write_bins true _ _ _ _ _ Hbd).
  - apply (write_bins false _ _ _ _ _ Hbd).
Qed.

Lemma finalizeCovariance_bins (icov : bool) (d d' : t) :
  finalizeCovariance icov d = Ok d' -> sameBins d d'.
Proof.
  unfold finalizeCovariance. intros H.
  apply bind_Ok in H as ([] & _ & H).
  apply bind_Ok in H as (d1 & Hloop & H).
  apply bind_Ok in H as (c & _ & H).
  apply bind_Ok in H as (icovData & _ & H). injection H as <-.
  assert (sameBins d d1) as Hsame.
  { revert Hloop. apply (for_each_invariant (sameBins d)).
    - intros k x x' _ Hx Hturn.
      apply (sameBins_trans d x x' Hx).
      apply (fixZeroDiagonal_bins icov k x x' Hturn).
    - apply sameBins_refl. }
  exact Hsame.
Qed.

Lemma new_Filling (ll sep z : AbsBinning) : Filling (new ll sep z).
Proof. repeat split. apply NoDup_nil_2. Qed.

(** The stages of a [load] that returns. *)
Lemma load_stages (fs : files) (dataName : string)
    (verbose icov fast : bool) (d0 p : t) :
  Filling d0 ->
  load fs dataName verbose icov fast d0 = Ok p ->
  exists paramsIn covIn k1 d1 k2 d2 c2,
    fs !! (dataName +:+ ".params") = Some paramsIn
    /\ for_each paramsIn (loadParamsLine fast) (0%Z, d0) = Ok (k1, d1)
    /\ Filling d1
    /\ fs !! (dataName +:+ (if icov then ".icov" else ".cov")) = Some covIn
    /\ for_each covIn (loadCovLine fast icov) (0%Z, finalizeData d1)
       = Ok (k2, d2)
    /\ sameBins d1 d2
    /\ _covariance d2 = Some c2 /\ ready icov (length (_data d1)) c2
    /\ finalizeCovariance icov d2 = Ok p
    /\ sameBins d1 p.
Proof.
  intros Hfill0 H. unfold load, openFile in H.
  destruct (fs !! (dataName +:+ ".params")) as [paramsIn|] eqn:Hp;
    [|discriminate]. simpl in H.
  apply bind_Ok in H as ([k1 d1] & Hparams & H).
  destruct (fs !! (dataName +:+ (if icov then ".icov" else ".cov")))
    as [covIn|] eqn:Hc; [|discriminate]. simpl in H.
  apply bind_Ok in H as ([k2 d2] & Hcov & H).
  assert (Filling d1) as Hfill1.
  { revert Hparams.
    apply (for_each_invariant (fun s : Z * t => Filling s.2));
      [|exact Hfill0].
    intros line [k x] [k' x'] _ Hx Hline. simpl in *.
    unfold loadParamsLine in Hline.
    destruct (matchParams fast line) as [[|v [|v2 [|ll [|sep [|z [|]]]]]]|];
      try discriminate.
    apply bind_Ok in Hline as (x'' & Hadd & Hline). inversion Hline; subst.
    apply (addData_appends _ _ _ _ _ _ Hx Hadd). }
  set (n := length (_data d1)) in *.
  assert (sameBins (finalizeData d1) d2
          /\ exists c, _covariance d2 = Some c /\ ready icov n c)
    as (Hsame2 & c2 & Hc2 & Hready2).
  { revert Hcov.
    apply (for_each_invariant
             (fun s : Z * t =>
                sameBins (finalizeData d1) s.2
                /\ exists c, _covariance s.2 = Some c /\ ready icov n c)).
    - intros line [k x] [k' x'] _ (Hx & c & Hc' & Hready) Hline. simpl in *.
      unfold loadCovLine in Hline.
      destruct (matchCov fast line) as [[[index1 index2] value]|];
        [|discriminate].
      apply bind_Ok in Hline as (x'' & Hadd & Hline). inversion Hline; subst.
      assert (n = length (_data x)) as Hnx
        by (destruct Hx as (-> & _); reflexivity).
      destruct (addCovariance_keeps _ _ _ _ n _ _ c Hc' Hready Hnx Hadd)
        as (Hsame & _ & c' & Hc'' & Hready').
      split; [exact (sameBins_trans _ _ _ Hx Hsame)|]. eauto.
    - split; [apply sameBins_refl|]. eexists. split; [reflexivity|].
      split; [reflexivity|exact I]. }
  pose proof (finalizeCovariance_bins _ _ _ H) as Hsame3.
  assert (sameBins d1 d2) as Hsame12.
  { apply (sameBins_trans d1 (finalizeData d1) d2); [|exact Hsame2].
    repeat split. }
  exists paramsIn, covIn, k1, d1, k2, d2, c2.
  repeat (split; [first [reflexivity | assumption]|]).
  exact (sameBins_trans _ _ _ Hsame12 Hsame3).
Qed.

Lemma compress_Plate (n : nat) (p p' : t) :
  Plate n p -> compress p = Ok p' -> Plate n p'.
Proof.
  intros (Hdf & Hcf & Hlen & c & m & Hc & (Hs & Hr & Hl) & Hset & Hicov).
  unfold compress. simpl. rewrite Hc. simpl. intros H. injection H as <-.
  split; [exact Hdf|]. split; [exact Hcf|]. split; [exact Hlen|].
  exists (CovarianceMatrix.compress c), m.
  split; [reflexivity|]. split; [split; [exact Hs|split; [exact Hr|exact Hl]]|].
  split; [exact Hset|exact Hicov].
Qed.

(** X13. A plate that [load] has filled is one that [add] accepts, and stays
    one when it is compressed: its vectors are aligned with the bins of its
    binned dataset, its store is written and sized to its data, and
    [_icovData] is the data multiplied by the inverse covariance. *)
Theorem load_plate {E : LapackExact L} (fs : files) (dataName : string)
    (verbose icov fast : bool) (d0 p : t) :
  Filling d0 ->
  load fs dataName verbose icov fast d0 = Ok p ->
  (0 < getNData p)%nat ->
  Plate (getNData p) p
  /\ Filling p
  /\ length (_r3d p) = BinnedData.getNBinsWithData (_binnedData p)
  /\ exists p', compress p = Ok p' /\ Plate (getNData p) p'.
Proof.
  intros Hfill0 H Hn.
  destruct (load_stages _ _ _ _ _ _ _ Hfill0 H)
    as (paramsIn & covIn & k1 & d1 & k2 & d2 & c2 & _ & _ & Hfill1 & _ & _
        & Hsame12 & Hc2 & Hready2 & Hfin & Hsame).
  pose proof (sameBins_Filling _ _ Hsame Hfill1) as Hfill.
  assert (getNData p = length (_data d1)) as Hnp
    by (unfold getNData; destruct Hsame as (-> & _); reflexivity).
  assert (length (_data d2) = length (_data d1)) as Hn2
    by (destruct Hsame12 as (-> & _); reflexivity).
  rewrite Hnp in *.
  assert (Plate (length (_data d1)) p) as Hplate.
  { rewrite <- Hn2. apply (finalizeCovariance_Plate icov d2 p c2 Hc2).
    - rewrite Hn2. exact Hready2.
    - rewrite Hn2. exact Hn.
    - exact Hfin. }
  split; [exact Hplate|]. split; [exact Hfill|]. split.
  { destruct Hfill as (Hi & _ & Hli & Hlr & _).
    unfold BinnedData.getNBinsWithData. rewrite <- Hi. congruence. }
  destruct Hplate as (Hdf & Hcf & Hlen & c & m & Hc & Hrest).
  eexists. split.
  - unfold compress. simpl. rewrite Hc. reflexivity.
  - apply (compress_Plate _ p).
    + split; [exact Hdf|]. split; [exact Hcf|]. split; [exact Hlen|]. eauto.
    + unfold compress. simpl. rewrite Hc. reflexivity.
Qed.

End LoadPlate.

(** ** The two loaders of [src/baofit.cc] agree *)

(** Two loops over the same keys, the second following the first. *)
Lemma for_each_simulates {K S T} (R : S -> T -> Prop) (ks : list K)
    (body1 : K -> S -> result S) (body2 : K -> T -> result T) :
  (forall k s s' t, R s t -> body1 k s = Ok s' ->
                    exists t', body2 k t = Ok t' /\ R s' t') ->
  forall s s' t, R s t -> for_each ks body1 s = Ok s' ->
                 exists t', for_each ks body2 t = Ok t' /\ R s' t'.
Proof.
  intros Hstep. induction ks as [|k ks IH]; intros s s' t HR H.
  - injection H as <-. exists t. split; [reflexivity|exact HR].
  - rewrite for_each_cons in H.
    destruct (body1 k s) as [s1|] eqn:H1; [|discriminate].
    destruct (Hstep k s s1 t HR H1) as (t1 & H2 & HR1).
    rewrite for_each_cons, H2. apply (IH s1 s' t1 HR1 H).
Qed.

Section Agreement.
Import LyaData LyaDataLoad Lifecycle.
Context {cosmology : AbsHomogeneousUniverse} {L : Lapack} {Sum : BinnedDataSum}
  {P : LinePatterns}.

Lemma addCovariance_entry (i j : Z) (value : R) (icov : bool) (d d' : t) :
  addCovariance i j value icov d = Ok d' ->
  exists ii jj,
    BinnedData.indexAt (_binnedData d) i = Ok ii
    /\ BinnedData.indexAt (_binnedData d) j = Ok jj
    /\ (if icov
        then BinnedData.setInverseCovariance (_binnedData d) ii jj value
        else BinnedData.setCovariance (_binnedData d) ii jj value)
       = Ok (_binnedData d').
Proof.
  intros H.
  pose proof (addCovariance_Ok _ _ _ _ _ _ H) as Hdone. simpl in Hdone.
  destruct Hdone as (_ & Hrow & Hcol & _).
  assert (0 <= i /\ 0 <= j)%Z as [Hi Hj]
    by (destruct (decide (i >= j)%Z); lia).
  unfold addCovariance in H.
  destruct (if decide (i >= j)%Z then (j, i) else (i, j)) as [row col].
  apply bind_Ok in H as ([] & _ & H). apply bind_Ok in H as ([] & _ & H).
  apply bind_Ok in H as (seen & _ & H). apply bind_Ok in H as ([] & _ & H).
  apply bind_Ok in H as (ii & Hii & H). apply bind_Ok in H as (jj & Hjj & H).
  apply bind_Ok in H as (covariance & _ & H).
  apply bind_Ok in H as (d1 & Hd1 & H).
  apply bind_Ok in H as (hasCov & _ & H). injection H as <-.
  exists ii, jj.
  assert (forall k kk, (0 <= k)%Z ->
            BinnedData.getIndexAtOffset (_binnedData d) (Z.to_nat k) = Ok kk ->
            BinnedData.indexAt (_binnedData d) k = Ok kk) as Hat.
  { intros k kk Hk. unfold BinnedData.getIndexAtOffset, BinnedData.indexAt, at_.
    rewrite decide_True by exact Hk.
    destruct (_ !! _); [auto|discriminate]. }
  split; [apply Hat; assumption|]. split; [apply Hat; assumption|].
  destruct icov;
    apply bind_Ok in Hd1 as (c & _ & Hd1);
    apply bind_Ok in Hd1 as (bd & Hset & Hd1); injection Hd1 as <-;
    exact Hset.
Qed.

Lemma fixZeroDiagonal_check (icov : bool) (k : nat) (index : Z) (d d' : t) :
  BinnedData.bd_index (_binnedData d) !! k = Some index ->
  fixZeroDiagonal icov k d = Ok d' ->
  checkZeroDiagonal icov index (_binnedData d) = Ok (_binnedData d').
Proof.
  intros Hk. unfold fixZeroDiagonal, checkZeroDiagonal. intros H.
  apply bind_Ok in H as (c & _ & H).
  destruct icov;
    apply bind_Ok in H as (diag & _ & H);
    apply bind_Ok in H as (c' & _ & H); simpl in H;
    unfold BinnedData.getIndexAtOffset in H; rewrite Hk in H; simpl in H;
    apply bind_Ok in H as (diag' & Hdiag & H);
    apply bind_Ok in H as (bd & Hbd & H); injection H as <-;
    rewrite Hdiag; simpl; exact Hbd.
Qed.

Lemma fixZeroDiagonal_loop_check (icov : bool) (l : list Z) :
  forall (s : nat) (d d' : t),
    drop s (BinnedData.bd_index (_binnedData d)) = l ->
    for_each (seq s (length l)) (fixZeroDiagonal icov) d = Ok d' ->
    for_each l (checkZeroDiagonal icov) (_binnedData d) = Ok (_binnedData d').
Proof.
  induction l as [|index l IH]; intros s d d' Hdrop H.
  - injection H as <-. reflexivity.
  - simpl length in H. rewrite <- cons_seq, for_each_cons in H.
    destruct (fixZeroDiagonal icov s d) as [d1|] eqn:Hturn; [|discriminate].
    assert (BinnedData.bd_index (_binnedData d) !! s = Some index) as Hs.
    { rewrite <- (Nat.add_0_r s), <- lookup_drop, Hdrop. reflexivity. }
    rewrite for_each_cons, (fixZeroDiagonal_check icov s index d d1 Hs Hturn).
    apply (IH (S s) d1 d'); [|exact H].
    destruct (fixZeroDiagonal_bins _ _ _ _ Hturn) as (_ & _ & _ & _ & -> & _).
    replace (S s) with (s + 1)%nat by lia.
    rewrite <- drop_drop, Hdrop. reflexivity.
Qed.

(** X14. The two loaders of [src/baofit.cc] agree: when [LyaData::load]
    returns for a dataset that was just constructed, [loadCosmolib] on
    the same files and binning returns the binned dataset that the loaded
    plate carries. *)
Theorem load_agrees_with_loadCosmolib (fs : files) (dataName : string)
    (llBins sepBins zBins : AbsBinning) (verbose icov fast : bool) (p : t) :
  load fs dataName verbose icov fast (new llBins sepBins zBins) = Ok p ->
  main.loadCosmolib fs dataName llBins sepBins zBins verbose icov fast
  = Ok (_binnedData p).
Proof.
  intros H.
  destruct (load_stages _ _ _ _ _ _ _ (new_Filling _ _ _) H)
    as (paramsIn & covIn & k1 & d1 & k2 & d2 & c2 & Hp & Hloop1 & Hfill1 & Hc
        & Hloop2 & Hsame12 & _ & _ & Hfin & _).
  unfold main.loadCosmolib, openFile. rewrite Hp. simpl.
  destruct (for_each_simulates
              (fun (s : Z * t) (b : Z * BinnedData.t) =>
                 s.1 = b.1 /\ _binnedData s.2 = b.2)
              paramsIn (loadParamsLine fast) (main.paramsLine fast))
    with (s := (0%Z, new llBins sepBins zBins)) (s' := (k1, d1))
         (t := (0%Z, BinnedData.new llBins sepBins zBins))
    as ([k1' bd1] & Hmain1 & Hk1 & Hbd1); [|split; reflexivity|exact Hloop1|].
  { intros line [k x] [k' x'] [kb b] [Hk Hb] Hline. simpl in Hk, Hb. subst kb b.
    unfold loadParamsLine in Hline. unfold main.paramsLine.
    destruct (matchParams fast line) as [[|v [|v2 [|ll [|sep [|z [|]]]]]]|];
      try discriminate.
    apply bind_Ok in Hline as (x'' & Hadd & Hline). inversion Hline; subst.
    apply addData_Ok in Hadd
      as (llBin & sepBin & zBin & initialized & binnedData & _ & _ & _
          & _ & _ & _ & _ & _ & Hindex & Hset & ->).
    cbv zeta in Hindex, Hset. rewrite Hindex. simpl. rewrite Hset. simpl.
    eexists. split; [reflexivity|]. split; reflexivity. }
  simpl in Hk1, Hbd1. subst k1' bd1. rewrite Hmain1. simpl.
  rewrite Hc. simpl.
  destruct (for_each_simulates
              (fun (s : Z * t) (b : Z * BinnedData.t) =>
                 s.1 = b.1 /\ _binnedData s.2 = b.2)
              covIn (loadCovLine fast icov) (main.covLine fast icov))
    with (s := (0%Z, finalizeData d1)) (s' := (k2, d2))
         (t := (0%Z, _binnedData d1))
    as ([k2' bd2] & Hmain2 & Hk2 & Hbd2); [|split; reflexivity|exact Hloop2|].
  { intros line [k x] [k' x'] [kb b] [Hk Hb] Hline. simpl in Hk, Hb. subst kb b.
    unfold loadCovLine in Hline. unfold main.covLine.
    destruct (matchCov fast line) as [[[index1 index2] value]|];
      [|discriminate].
    apply bind_Ok in Hline as (x'' & Hadd & Hline). inversion Hline; subst.
    apply addCovariance_entry in Hadd as (ii & jj & Hii & Hjj & Hset).
    unfold addCovarianceEntry. rewrite Hii. simpl. rewrite Hjj. simpl.
    rewrite Hset. simpl.
    eexists. split; [reflexivity|]. split; reflexivity. }
  simpl in Hk2, Hbd2. subst k2' bd2. rewrite Hmain2. simpl.
  unfold finalizeCovariance in Hfin.
  apply bind_Ok in Hfin as ([] & _ & Hfin).
  apply bind_Ok in Hfin as (d3 & Hloop3 & Hfin).
  apply bind_Ok in Hfin as (c & _ & Hfin).
  apply bind_Ok in Hfin as (icovData & _ & Hfin). injection Hfin as <-.
  simpl. unfold checkZeroDiagonals.
  apply (fixZeroDiagonal_loop_check icov _ 0 d2 d3); [reflexivity|].
  assert (length (BinnedData.bd_index (_binnedData d2)) = getNData d2) as ->;
    [|exact Hloop3].
  pose proof (sameBins_Filling _ _ Hsame12 Hfill1) as (Hi & _ & Hli & _).
  unfold getNData. rewrite <- Hi. exact Hli.
Qed.

End Agreement.

(** ** Plates to run the loaders on *)

Lemma twoSep_addData :
  exists d',
    @LyaData.addData unitUniverse 2 0 5 0 (LyaData.new oneBin twoSep oneBin)
    = Ok d'.
Proof.
  unfold LyaData.addData. simpl.
  rewrite !bool_decide_eq_true_2 by (apply Rabs_def1; lra).
  simpl. eexists. reflexivity.
Qed.

Lemma addData_fills_witness :
  exists d',
    @LyaData.addData unitUniverse 2 0 5 0 (LyaData.new oneBin twoSep oneBin)
    = Ok d'
    /\ LyaData.getNData d' = 1%nat
    /\ LyaData.getData d' 0 = Ok 2.
Proof.
  destruct twoSep_addData as (d' & Hrun). exists d'.
  destruct (addData_fills (cosmology:=unitUniverse) 2 0 5 0 _ d'
              (new_Filling oneBin twoSep oneBin) Hrun)
    as (_ & Hn & Hdata & _).
  auto.
Defined.

Lemma getRedshift_decodes_witness :
  exists d',
    @LyaData.addData unitUniverse 2 0 5 0 (LyaData.new oneBin twoSep oneBin)
    = Ok d'
    /\ LyaData.getRedshift d' 0 = Ok 0.
Proof.
  destruct twoSep_addData as (d' & Hrun). exists d'.
  split; [exact Hrun|].
  destruct (getRedshift_decodes (cosmology:=unitUniverse) 2 0 5 0
              (LyaData.new oneBin twoSep oneBin) d' eq_refl) as (zBin & z & HzBin & Hz & -> & _).
  - simpl. intros zBin H. injection H as <-. lia.
  - exact Hrun.
  - exact Hz.
Defined.

Lemma addData_once_witness :
  exists d',
    @LyaData.addData unitUniverse 2 0 5 0 (LyaData.new oneBin twoSep oneBin)
    = Ok d'
    /\ @LyaData.addData unitUniverse 3 0 5 0 (LyaData.reset d')
       = Err AssertionFailure.
Proof.
  destruct twoSep_addData as (d' & Hrun). exists d'.
  split; [exact Hrun|].
  apply (addData_once (cosmology:=unitUniverse) 2 0 5 0 _ d' Hrun 3).
Defined.

Lemma oneBinPlate_addCovariance :
  exists d', @LyaData.addCovariance smallLapack 0 0 4 false oneBinPlate = Ok d'.
Proof. eexists. reflexivity. Qed.

Lemma addCovariance_once_witness :
  exists d',
    @LyaData.addCovariance smallLapack 0 0 4 false oneBinPlate = Ok d'
    /\ LyaData.getNCov d' = 1%nat
    /\ @LyaData.addCovariance smallLapack 0 0 5 true d' = Err AssertionFailure.
Proof.
  destruct oneBinPlate_addCovariance as (d' & Hrun). exists d'.
  split; [exact Hrun|].
  destruct (addCovariance_once (L:=smallLapack) 0 0 4 false
              oneBinPlate d' Hrun) as (Hn & Honce).
  split; [exact Hn|]. apply (Honce 5 true).
Defined.

Lemma onePlateFiles_params :
  openFile onePlateFiles ("one" +:+ ".params")
    ("Unable to open " +:+ "one" +:+ ".params")
  = Ok ["2 0 0 5 0"%string].
Proof. vm_compute. reflexivity. Qed.

Lemma onePlateFiles_icov :
  openFile onePlateFiles ("one" +:+ ".icov")
    ("Unable to open " +:+ "one" +:+ ".icov")
  = Ok ["0 0 -4"%string].
Proof. vm_compute. reflexivity. Qed.

Lemma onePlate_load :
  exists p,
    @LyaDataLoad.load unitUniverse smallLapack onePlatePatterns onePlateFiles
      "one" false true false (LyaData.new oneBin twoSep oneBin) = Ok p
    /\ LyaData.getNData p = 1%nat.
Proof.
  unfold LyaDataLoad.load. cbv zeta.
  rewrite onePlateFiles_params, onePlateFiles_icov. simpl.
  unfold LyaData.addData. simpl.
  rewrite !bool_decide_eq_true_2 by (apply Rabs_def1; lra).
  simpl.
  repeat (destruct (decide (0 = - (-4))) as [Hz|_]; [exfalso; lra|]; simpl).
  eexists. split; reflexivity.
Qed.




Lemma load_plate_witness :
  exists p p',
    @LyaDataLoad.load unitUniverse smallLapack onePlatePatterns onePlateFiles
      "one" false true false (LyaData.new oneBin twoSep oneBin) = Ok p
    /\ LyaData.compress p = Ok p'
    /\ @Lifecycle.Plate smallLapack 1 p'.
Proof.
  destruct onePlate_load as (p & Hrun & Hn).
  destruct (load_plate (cosmology:=unitUniverse) (E:=smallLapack_exact)
              onePlateFiles "one" false true false
              (LyaData.new oneBin twoSep oneBin) p
              (new_Filling oneBin twoSep oneBin) Hrun ltac:(rewrite Hn; lia))
    as (_ & _ & _ & p' & Hcompress & Hplate).
  rewrite Hn in Hplate. exists p, p'. auto.
Defined.

Lemma load_agrees_with_loadCosmolib_witness :
  exists p,
    @LyaDataLoad.load unitUniverse smallLapack onePlatePatterns onePlateFiles
      "one" false true false (LyaData.new oneBin twoSep oneBin) = Ok p
    /\ @main.loadCosmolib smallLapack onePlatePatterns onePlateFiles "one"
         oneBin twoSep oneBin false true false
       = Ok (LyaData._binnedData p).
Proof.
  destruct onePlate_load as (p & Hrun & _). exists p. split; [exact Hrun|].
  apply (load_agrees_with_loadCosmolib (cosmology:=unitUniverse)
           onePlateFiles "one" oneBin twoSep oneBin false true false p Hrun).
Defined.

(** ** The loops that read a file *)

Section StreamLoops.
Import Stream.

Lemma upToNewline_line (line rest : string) :
  noNewline line ->
  upToNewline (line +:+ String newline rest) = (line, Some rest).
Proof.
  unfold noNewline. induction line as [|ch line IH]; simpl; intros Hno.
  - reflexivity.
  - apply not_elem_of_cons in Hno as [Hch Hno].
    rewrite decide_False by congruence. now rewrite IH.
Qed.

Lemma upToNewline_last (last : string) :
  noNewline last -> upToNewline last = (last, None).
Proof.
  unfold noNewline. induction last as [|ch last IH]; simpl; intros Hno.
  - reflexivity.
  - apply not_elem_of_cons in Hno as [Hch Hno].
    rewrite decide_False by congruence. now rewrite IH.
Qed.

Lemma getline_line (l rest line : string) :
  noNewline l ->
  getline (open (l +:+ String newline rest)) line = (open rest, l).
Proof.
  intros Hl. unfold getline, open, good. simpl.
  now rewrite (upToNewline_line l rest Hl).
Qed.

Lemma getline_last (last line : string) :
  noNewline last ->
  getline (open last) line
  = ({| pending := EmptyString; eofbit := true;
        failbit := bool_decide (last = EmptyString) |}, last).
Proof.
  intros Hl. unfold getline, open, good. simpl.
  now rewrite (upToNewline_last last Hl).
Qed.

Section Loops.
Context {S : Type} (unreadable : S -> error) (body : string -> S -> result S).

Lemma whileGetline_S (fuel : nat) (input : ifstream) (line : string) (s : S) :
  whileGetline (Datatypes.S fuel) body input line s
  = let '(input, line) := getline input line in
    if succeeded input then
      match body line s with
      | Ok s => whileGetline fuel body input line s
      | Err e => Some (Err e)
      end
    else Some (Ok s).
Proof. reflexivity. Qed.

Lemma whileNotEof_S (fuel : nat) (input : ifstream) (line : string) (s : S) :
  whileNotEof (Datatypes.S fuel) unreadable body input line s
  = if good input && negb (eof input) then
      let '(input, line) := getline input line in
      if eof input then Some (Ok s)
      else if negb (good input) then Some (Err (unreadable s))
      else
        match body line s with
        | Ok s => whileNotEof fuel unreadable body input line s
        | Err e => Some (Err e)
        end
    else Some (Ok s).
Proof. reflexivity. Qed.

Lemma whileGetline_lines (lines : list string) (last : string) :
  Forall noNewline lines -> noNewline last ->
  forall (fuel : nat) (line : string) (s : S),
    (length lines + 2 <= fuel)%nat ->
    whileGetline fuel body (open (textOf lines last)) line s
    = Some (for_each (lines ++ (if decide (last = EmptyString) then []
                                else [last])) body s).
Proof.
  intros Hlines Hlast. induction Hlines as [|l lines Hl Hlines IH];
    intros fuel line s Hfuel.
  - destruct fuel as [|[|fuel]]; [simpl in Hfuel; lia..|].
    rewrite whileGetline_S. simpl textOf. rewrite (getline_last _ _ Hlast).
    unfold succeeded. cbn [failbit].
    destruct (decide (last = EmptyString)) as [->|Hne].
    + reflexivity.
    + rewrite bool_decide_eq_false_2 by exact Hne. simpl negb. cbn iota.
      rewrite app_nil_l, for_each_cons.
      destruct (body last s) as [s'|e]; [|reflexivity].
      rewrite whileGetline_S. reflexivity.
  - destruct fuel as [|fuel]; [simpl in Hfuel; lia|].
    rewrite whileGetline_S. simpl textOf. rewrite (getline_line _ _ _ Hl).
    unfold succeeded at 1. cbn [failbit open negb]. cbn iota.
    rewrite <- app_comm_cons, for_each_cons.
    destruct (body l s) as [s'|e]; [|reflexivity].
    apply (IH fuel l s'). simpl in Hfuel. lia.
Qed.

Lemma whileNotEof_lines (lines : list string) (last : string) :
  Forall noNewline lines -> noNewline last ->
  forall (fuel : nat) (line : string) (s : S),
    (length lines + 1 <= fuel)%nat ->
    whileNotEof fuel unreadable body (open (textOf lines last)) line s
    = Some (for_each lines body s).
Proof.
  intros Hlines Hlast. induction Hlines as [|l lines Hl Hlines IH];
    intros fuel line s Hfuel.
  - destruct fuel as [|fuel]; [simpl in Hfuel; lia|].
    rewrite whileNotEof_S. simpl textOf.
    change (good (open last) && negb (eof (open last))) with true. cbn iota.
    rewrite (getline_last _ _ Hlast). reflexivity.
  - destruct fuel as [|fuel]; [simpl in Hfuel; lia|].
    rewrite whileNotEof_S. simpl textOf.
    match goal with
    | |- context [good (open ?t) && negb (eof (open ?t))] =>
        change (good (open t) && negb (eof (open t))) with true
    end.
    cbn iota. rewrite (getline_line _ _ _ Hl).
    change (eof (open (textOf lines last))) with false.
    change (negb (good (open (textOf lines last)))) with false. cbn iota.
    rewrite for_each_cons.
    destruct (body l s) as [s'|e]; [|reflexivity].
    apply (IH fuel l s'). simpl in Hfuel. lia.
Qed.

End Loops.

(** X25. On a text whose lines each end in a newline, the loop of
    [baofit/boss.cc] and the loop of [src/baofit.cc] run their body on the
    same lines. On a text whose last line has no newline, the loop of
    [baofit/boss.cc] runs its body on that line too, and the loop of
    [src/baofit.cc] returns without it and without an error. *)
Theorem last_line_without_newline {S : Type} (unreadable : S -> error)
    (body : string -> S -> result S) (lines : list string) (last : string)
    (fuel : nat) (line : string) (s : S) :
  Forall noNewline lines -> noNewline last ->
  (length lines + 2 <= fuel)%nat ->
  whileNotEof fuel unreadable body (open (textOf lines last)) line s
  = Some (for_each lines body s)
  /\ whileGetline fuel body (open (textOf lines last)) line s
     = Some (for_each (if decide (last = EmptyString) then lines
                       else lines ++ [last]) body s).
Proof.
  intros Hlines Hlast Hfuel. split.
  - apply whileNotEof_lines; [assumption..|lia].
  - rewrite (whileGetline_lines body lines last Hlines Hlast fuel line s Hfuel).
    destruct (decide (last = EmptyString)); [now rewrite app_nil_r|reflexivity].
Qed.

Lemma noNewline_ab : Forall noNewline ["a"%string] /\ noNewline "b".
Proof.
  unfold noNewline. simpl. split; [apply Forall_cons; split; [|apply Forall_nil_2]|];
    intros H; apply elem_of_cons in H as [H|H]; try discriminate; inversion H.
Qed.

Lemma last_line_without_newline_witness :
  whileNotEof 3 (fun _ => OutOfBounds) (fun l s => Ok (l :: s))
    (open (textOf ["a"%string] "b")) EmptyString []
  = Some (Ok ["a"%string])
  /\ whileGetline 3 (fun l s => Ok (l :: s))
       (open (textOf ["a"%string] "b")) EmptyString []
     = Some (Ok ["b"%string; "a"%string]).
Proof.
  apply (last_line_without_newline (fun _ => OutOfBounds)
           (fun l s => Ok (l :: s)) ["a"%string] "b" 3 EmptyString []
           (proj1 noNewline_ab) (proj2 noNewline_ab)).
  simpl. lia.
Defined.

End StreamLoops.

(** ** [boss::loadFrench] *)

Lemma rfind_absent (ch : ascii) (s : string) :
  ch ∉ String.list_ascii_of_string s -> StdString.rfind ch s = (-1)%Z.
Proof.
  induction s as [|c s IH]; simpl; intros Hno; [reflexivity|].
  apply not_elem_of_cons in Hno as [Hc Hno]. rewrite (IH Hno).
  rewrite decide_False by lia. now rewrite decide_False by congruence.
Qed.

Lemma rfind_nonneg_or (ch : ascii) (s : string) : (-1 <= StdString.rfind ch s)%Z.
Proof.
  induction s as [|c s IH]; simpl; [lia|].
  destruct (decide _); [lia|]. destruct (decide _); lia.
Qed.

Lemma rfind_last (ch : ascii) (dir base : string) :
  ch ∉ String.list_ascii_of_string base ->
  StdString.rfind ch (dir +:+ String ch base) = Z.of_nat (String.length dir).
Proof.
  intros Hno. induction dir as [|c dir IH]; simpl.
  - rewrite (rfind_absent ch base Hno). rewrite decide_False by lia.
    now rewrite decide_True by reflexivity.
  - rewrite IH. rewrite decide_True by lia. lia.
Qed.

Lemma insert_after (dir t base : string) (ch : ascii) :
  StdString.insert (Datatypes.S (String.length dir)) t (dir +:+ String ch base)
  = Ok (dir +:+ String ch (t +:+ base)).
Proof.
  induction dir as [|c dir IH]; [reflexivity|].
  change (StdString.insert (Datatypes.S (String.length (String c dir))) t
            (String c dir +:+ String ch base))
    with (StdString.insert (Datatypes.S (String.length dir)) t (dir +:+ String ch base)
          ≫= fun s' => Ok (String c s')).
  rewrite IH. reflexivity.
Qed.

(** A loop body that counts the lines it is given has counted all of them
    when the loop returns. *)
Lemma for_each_counts {K S} (body : K -> Z * S -> result (Z * S))
    (ks : list K) :
  (forall k lines x lines' x',
     body k (lines, x) = Ok (lines', x') -> lines' = (lines + 1)%Z) ->
  forall lines x lines' x',
    for_each ks body (lines, x) = Ok (lines', x') ->
    lines' = (lines + Z.of_nat (length ks))%Z.
Proof.
  intros Hbody. induction ks as [|k ks IH]; intros lines x lines' x' H.
  - inversion H; subst. simpl. lia.
  - rewrite for_each_cons in H.
    destruct (body k (lines, x)) as [[lines1 x1]|] eqn:Hk; [|discriminate].
    apply Hbody in Hk as ->. apply IH in H as ->.
    simpl length. lia.
Qed.

Section French.
Import boss.
Context {L : Lapack} {G : LineGrammar} {F : FrenchGrammar}.

Lemma frenchCovLine_counts (covName line : string) (lines : Z)
    (bd : BinnedData.t) (lines' : Z) (bd' : BinnedData.t) :
  frenchCovLine covName line (lines, bd) = Ok (lines', bd') ->
  lines' = (lines + 1)%Z.
Proof.
  unfold frenchCovLine.
  destruct (parseCov line) as [[[index1 index2] cov]|]; [|discriminate].
  destruct (_ && _).
  - intros H. apply bind_Ok in H as (x & _ & H). now inversion H.
  - intros H. now inversion H.
Qed.

(** X22. The covariance file of [loadFrench] is looked for next to the
    parameter file, under its name prefixed with [cov_]: the prefix goes
    after the last [/] of the path, and in front when there is none. The
    insertion never falls outside the name. *)
Theorem frenchCovName_prefix (dir base : string) :
  "/"%char ∉ String.list_ascii_of_string base ->
  frenchCovName (dir +:+ String "/"%char base)
  = Ok (dir +:+ String "/"%char ("cov_" +:+ base))
  /\ frenchCovName base = Ok ("cov_" +:+ base).
Proof.
  intros Hno. unfold frenchCovName. split.
  - rewrite (rfind_last _ dir base Hno).
    rewrite decide_True by lia.
    replace (Z.to_nat (Z.of_nat (String.length dir) + 1))
      with (Datatypes.S (String.length dir)) by lia.
    apply insert_after.
  - rewrite (rfind_absent _ base Hno). reflexivity.
Qed.

(** X23. A line of the covariance file that [loadFrench] cannot parse is
    reported with its number, counted from one, and with the name of the
    covariance file. *)
Theorem loadFrench_reports_covariance_line (fs : files) (dataName : string)
    (prototype : BinnedData.t) (verbose checkPosDef : bool)
    (paramsIn good rest : list string) (bad covName : string)
    (state1 state2 : Z * BinnedData.t) :
  fs !! (dataName +:+ ".txt") = Some paramsIn ->
  for_each paramsIn
    (frenchParamsLine (dataName +:+ ".txt")
       (getBinCenter (BinnedData.bd_axis3 prototype) 0))
    (0%Z, clonePrototype prototype) = Ok state1 ->
  frenchCovName (dataName +:+ ".txt") = Ok covName ->
  fs !! covName = Some (good ++ bad :: rest) ->
  for_each good (frenchCovLine covName) (0%Z, state1.2) = Ok state2 ->
  parseCov bad = None ->
  loadFrench fs dataName prototype verbose checkPosDef
  = Err (RuntimeError ("loadFrench: error reading line " +:+
                       lexical_cast (Z.of_nat (length good) + 1) +:+ " of " +:+
                       covName)).
Proof.
  intros Hparams Hloop1 Hname Hcov Hgood Hbad.
  unfold loadFrench, openFile. rewrite Hparams. simpl.
  rewrite Hloop1. destruct state1 as [k1 bd1]. simpl.
  rewrite Hname. simpl. rewrite Hcov. simpl.
  rewrite (for_each_app good (bad :: rest)). simpl in Hgood. rewrite Hgood.
  destruct state2 as [k2 bd2].
  apply (for_each_counts _ _ (frenchCovLine_counts covName)) in Hgood as ->.
  simpl. rewrite Hbad. rewrite Z.add_0_l. reflexivity.
Qed.

(** X24. [loadFrench] stores the entries of the covariance file that lie on
    or above the diagonal and below index fifty, and skips the others: a
    file that holds only entries [(index1,index2)] with [index1 > index2]
    or [index2 >= 50] leaves the dataset as the parameter file filled
    it. *)
Theorem loadFrench_skips (fs : files) (dataName : string)
    (prototype : BinnedData.t) (verbose checkPosDef : bool)
    (paramsIn covIn : list string) (covName : string)
    (state1 : Z * BinnedData.t) :
  fs !! (dataName +:+ ".txt") = Some paramsIn ->
  for_each paramsIn
    (frenchParamsLine (dataName +:+ ".txt")
       (getBinCenter (BinnedData.bd_axis3 prototype) 0))
    (0%Z, clonePrototype prototype) = Ok state1 ->
  frenchCovName (dataName +:+ ".txt") = Ok covName ->
  fs !! covName = Some covIn ->
  Forall (fun line =>
            exists index1 index2 cov,
              parseCov line = Some (index1, index2, cov)
              /\ (index1 > index2 \/ index2 >= 50)%Z) covIn ->
  loadFrench fs dataName prototype verbose checkPosDef = Ok state1.2.
Proof.
  intros Hparams Hloop1 Hname Hcov Hskip.
  unfold loadFrench, openFile. rewrite Hparams. simpl.
  rewrite Hloop1. destruct state1 as [k1 bd1]. simpl.
  rewrite Hname. simpl. rewrite Hcov. simpl.
  assert (forall k, exists k',
            for_each covIn (frenchCovLine covName) (k, bd1) = Ok (k', bd1))
    as Hsame.
  { clear Hcov.
    induction Hskip as [|line covIn (i1 & i2 & cov & Hparse & Hout) Hskip];
      intros k; [eexists; reflexivity|].
    rewrite for_each_cons. unfold frenchCovLine at 1. rewrite Hparse.
    assert (bool_decide (i1 <= i2)%Z && bool_decide (i2 < 50)%Z = false) as ->.
    { destruct Hout.
      - rewrite (bool_decide_eq_false_2 (i1 <= i2)%Z) by lia. reflexivity.
      - rewrite (bool_decide_eq_false_2 (i2 < 50)%Z) by lia.
        apply andb_false_r. }
    cbn iota. apply IHHskip. }
  destruct (Hsame 0%Z) as [k' ->]. reflexivity.
Qed.

End French.

(** ** The parameter file of [boss::loadCosmolib] *)

Section BossErrors.
Context {L : Lapack} {G : LineGrammar}.

Lemma paramsLine_counts (paramsName : string) (weighted : bool)
    (line : string) (lines : Z) (bd : BinnedData.t) (lines' : Z)
    (bd' : BinnedData.t) :
  boss.paramsLine paramsName weighted line (lines, bd) = Ok (lines', bd') ->
  lines' = (lines + 1)%Z.
Proof.
  unfold boss.paramsLine.
  destruct (parseParams line) as [[[data cinvData] bin]|]; [|discriminate].
  intros H. apply bind_Ok in H as (index & _ & H).
  apply bind_Ok in H as (x & _ & H). now inversion H.
Qed.

(** X20. A line of the parameter file that [boss::loadCosmolib] cannot parse
    is reported with its number, counted from one, and with the name of
    the parameter file; nothing of the covariance file is looked at. *)
Theorem loadCosmolib_reports_params_line (fs : files) (dataName : string)
    (prototype : BinnedData.t) (verbose icov weighted checkPosDef : bool)
    (good rest : list string) (bad : string) (state : Z * BinnedData.t) :
  fs !! (dataName +:+ ".params") = Some (good ++ bad :: rest) ->
  for_each good (boss.paramsLine (dataName +:+ ".params") weighted)
    (0%Z, boss.clonePrototype prototype) = Ok state ->
  parseParams bad = None ->
  boss.loadCosmolib fs dataName prototype verbose icov weighted checkPosDef
  = Err (RuntimeError ("loadCosmolib: error reading line " +:+
                       lexical_cast (Z.of_nat (length good) + 1) +:+ " of " +:+
                       dataName +:+ ".params")).
Proof.
  intros Hparams Hgood Hbad. unfold boss.loadCosmolib, openFile.
  rewrite Hparams. simpl.
  rewrite (for_each_app good (bad :: rest)), Hgood.
  destruct state as [k bd].
  apply (for_each_counts _ _ (paramsLine_counts _ weighted)) in Hgood as ->.
  simpl. rewrite Hbad. rewrite Z.add_0_l. reflexivity.
Qed.

(** X21. [boss::loadCosmolib] throws when one of its two files cannot be
    opened, naming the file: the parameter file first, and the covariance
    file once every line of the parameter file has been stored. *)
Theorem loadCosmolib_unopenable (fs : files) (dataName : string)
    (prototype : BinnedData.t) (verbose icov weighted checkPosDef : bool) :
  (fs !! (dataName +:+ ".params") = None ->
   boss.loadCosmolib fs dataName prototype verbose icov weighted checkPosDef
   = Err (RuntimeError ("loadCosmolib: Unable to open " +:+ dataName +:+
                        ".params")))
  /\ (forall paramsIn state,
        fs !! (dataName +:+ ".params") = Some paramsIn ->
        for_each paramsIn (boss.paramsLine (dataName +:+ ".params") weighted)
          (0%Z, boss.clonePrototype prototype) = Ok state ->
        fs !! (dataName +:+ (if icov then ".icov" else ".cov")) = None ->
        boss.loadCosmolib fs dataName prototype verbose icov weighted
          checkPosDef
        = Err (RuntimeError ("Unable to open " +:+ dataName +:+
                             (if icov then ".icov" else ".cov")))).
Proof.
  split.
  - apply loadCosmolib_params_unopenable.
  - intros paramsIn state. apply loadCosmolib_cov_unopenable.
Qed.

End BossErrors.

(** ** The amounts that [fixCovariance] adds *)

Section FixAmounts.
Import QuasarCorrelationData.
Context {cosmology : AbsHomogeneousUniverse} {L : Lapack} {M : RawMemory}.
Context (k1 k2 c : R) (n : nat) (bd0 : BinnedData.t).
Hypothesis Hdense : denseBins n bd0.

Lemma dense_offset (bd : BinnedData.t) (a : nat) :
  held n bd0 bd -> (a < n)%nat ->
  BinnedData.getOffsetForIndex bd (Z.of_nat a) = Ok a.
Proof.
  intros (Hidx & _) Ha. apply getOffsetForIndex_lookup.
  - rewrite Hidx, Hdense. apply NoDup_fmap_2; [apply Nat2Z.inj'|apply NoDup_seq].
  - rewrite Hidx, Hdense, list_lookup_fmap, lookup_seq_lt by exact Ha.
    reflexivity.
Qed.

Lemma held_get (bd : BinnedData.t) (m : list R) (a b : nat) :
  held n bd0 bd -> reads false (BinnedData.store bd) = Ok m ->
  (a < n)%nat -> (b < n)%nat ->
  exists v, m !! symmetricIndex a b = Some v
    /\ BinnedData.getCovariance bd (Z.of_nat a) (Z.of_nat b) = Ok v.
Proof.
  intros Hheld Hreads Ha Hb.
  pose proof Hheld as (_ & _ & _ & _ & Hready).
  destruct (ready_reads _ _ _ Hready) as (m' & Hreads' & Hlen).
  rewrite Hreads in Hreads'. injection Hreads' as <-.
  destruct Hready as [Hsize _].
  destruct (ready_read false n _ m a b Hsize Hreads Hlen Ha Hb)
    as (v & Hv & Hread).
  exists v. split; [exact Hv|].
  unfold BinnedData.getCovariance.
  rewrite (dense_offset bd a Hheld Ha), (dense_offset bd b Hheld Hb).
  exact Hread.
Qed.

Lemma held_set (bd : BinnedData.t) (m : list R) (a b : nat) (v : R) :
  held n bd0 bd -> reads false (BinnedData.store bd) = Ok m ->
  (a < n)%nat -> (b < n)%nat ->
  exists bd',
    BinnedData.setCovariance bd (Z.of_nat a) (Z.of_nat b) v = Ok bd'
    /\ held n bd0 bd'
    /\ reads false (BinnedData.store bd')
       = Ok (<[symmetricIndex a b:=v]> m).
Proof.
  intros Hheld Hreads Ha Hb.
  pose proof Hheld as (Hidx & Ha1 & Ha2 & Ha3 & Hready).
  destruct (ready_reads _ _ _ Hready) as (m' & Hreads' & Hlen).
  rewrite Hreads in Hreads'. injection Hreads' as <-.
  destruct Hready as [Hsize _].
  pose proof (ready_write false n _ m a b v Hsize Hreads Hlen Ha Hb) as Hwrite.
  unfold write in Hwrite.
  eexists. split.
  { unfold BinnedData.setCovariance.
    rewrite (dense_offset bd a Hheld Ha), (dense_offset bd b Hheld Hb).
    simpl. rewrite Hwrite. reflexivity. }
  split; [|reflexivity].
  split; [exact Hidx|]. split; [exact Ha1|]. split; [exact Ha2|].
  split; [exact Ha3|].
  apply (ready_holding false). rewrite length_insert. exact Hlen.
Qed.

Lemma fixedUpTo_next (s : nat) (m0 m : list R) :
  fixedUpTo k1 k2 c n bd0 s (S s) m0 m -> fixedUpTo k1 k2 c n bd0 (S s) 0 m0 m.
Proof.
  intros H row col Hrc Hcol. rewrite (H row col Hrc Hcol). f_equal.
  destruct (decide _) as [[Hv Ht]|Hno], (decide _) as [[Hv' Ht']|Hno'];
    try reflexivity; exfalso.
  - apply Hno'. split; [|exact Ht]. unfold visited in *. lia.
  - apply Hno. split; [|exact Ht']. unfold visited in *. lia.
Qed.

Lemma fixCovariancePair_step (dll : list R) (s t : nat) (bd : BinnedData.t)
    (m0 m : list R) :
  (t <= s)%nat -> (s < n)%nat ->
  held n bd0 bd -> reads false (BinnedData.store bd) = Ok m ->
  fixedUpTo k1 k2 c n bd0 s t m0 m ->
  dll !! s = Some (llCenter bd0 (Z.of_nat s)) ->
  dll !! t = Some (llCenter bd0 (Z.of_nat t)) ->
  exists bd' m',
    fixCovariancePair k1 k2 c dll (Z.of_nat s) (sepIndex bd0 (Z.of_nat s))
      (zIndex bd0 (Z.of_nat s)) (Z.of_nat t) bd = Ok bd'
    /\ held n bd0 bd' /\ reads false (BinnedData.store bd') = Ok m'
    /\ fixedUpTo k1 k2 c n bd0 s (S t) m0 m'.
Proof.
  intros Hts Hsn Hheld Hreads Hfixed Hls Hlt.
  pose proof Hheld as (Hidx & Ha1 & Ha2 & Ha3 & Hready).
  unfold fixCovariancePair.
  assert (BinnedData.getBinIndices bd (Z.of_nat t)
          = BinnedData.getBinIndices bd0 (Z.of_nat t)) as ->
    by (unfold BinnedData.getBinIndices; now rewrite Ha2, Ha3).
  fold (sepIndex bd0 (Z.of_nat t)). fold (zIndex bd0 (Z.of_nat t)).
  destruct (decide _) as [Hapart|Htogether].
  - exists bd, m. split; [reflexivity|]. split; [exact Hheld|].
    split; [exact Hreads|].
    intros row col Hrc Hcol. rewrite (Hfixed row col Hrc Hcol). f_equal.
    destruct (decide _) as [[Hv Ht]|Hno], (decide _) as [[Hv' Ht']|Hno'];
      try reflexivity; exfalso.
    + apply Hno'. split; [|exact Ht]. unfold visited in *. lia.
    + destruct (decide (col = s /\ row = t)) as [[-> ->]|Hother].
      * destruct Ht' as [Hs Hz]. destruct Hapart; congruence.
      * apply Hno. split; [|exact Ht']. unfold visited in *. lia.
  - assert (together bd0 (Z.of_nat s) (Z.of_nat t)) as Htog.
    { unfold together.
      destruct (decide (sepIndex bd0 (Z.of_nat s) = sepIndex bd0 (Z.of_nat t)));
        [|exfalso; apply Htogether; left; congruence].
      destruct (decide (zIndex bd0 (Z.of_nat s) = zIndex bd0 (Z.of_nat t)));
        [|exfalso; apply Htogether; right; congruence].
      now split. }
    destruct (held_get bd m s t Hheld Hreads Hsn ltac:(lia))
      as (v & Hv & Hget).
    rewrite Hget. simpl.
    unfold unchecked. rewrite !decide_True by lia.
    rewrite !Nat2Z.id, Hls, Hlt. simpl.
    destruct (held_set bd m s t
                (v + c * (1.0 + _pkmarg 0.0 k1 (llCenter bd0 (Z.of_nat s))
                                  (llCenter bd0 (Z.of_nat t))
                          + _pkmarg k1 k2 (llCenter bd0 (Z.of_nat s))
                              (llCenter bd0 (Z.of_nat t))))
                Hheld Hreads Hsn ltac:(lia))
      as (bd' & Hset & Hheld' & Hreads').
    eexists bd', _. split; [exact Hset|]. split; [exact Hheld'|].
    split; [exact Hreads'|].
    intros row col Hrc Hcol.
    destruct (decide (col = s /\ row = t)) as [[-> ->]|Hother].
    + rewrite list_lookup_insert_eq by (apply lookup_lt_Some in Hv; exact Hv).
      pose proof (Hfixed t s Hrc Hcol) as Hold. rewrite Hv in Hold.
      destruct (m0 !! symmetricIndex s t) as [v0|]; [|discriminate].
      simpl in Hold. injection Hold as ->. simpl.
      rewrite decide_False by (intros [Hvis _]; unfold visited in Hvis; lia).
      rewrite decide_True by (split; [unfold visited; lia|exact Htog]).
      f_equal. unfold fixTerm. lra.
    + rewrite list_lookup_insert_ne.
      * rewrite (Hfixed row col Hrc Hcol). f_equal.
        destruct (decide _) as [[Hvis Ht]|Hno],
                 (decide _) as [[Hvis' Ht']|Hno'];
          try reflexivity; exfalso.
        -- apply Hno'. split; [|exact Ht]. unfold visited in *. lia.
        -- apply Hno. split; [|exact Ht']. unfold visited in *. lia.
      * intros Heq. apply symmetricIndex_inj in Heq. lia.
Qed.

Lemma fixCovariance_inner (dll : list R) (s : nat) (m0 : list R) :
  (s < n)%nat ->
  (forall k, (k <= s)%nat -> dll !! k = Some (llCenter bd0 (Z.of_nat k))) ->
  forall (turns : nat) (bd : BinnedData.t) (m : list R),
    (turns <= S s)%nat ->
    held n bd0 bd -> reads false (BinnedData.store bd) = Ok m ->
    fixedUpTo k1 k2 c n bd0 s 0 m0 m ->
    exists bd' m',
      for_each (Z.of_nat <$> seq 0 turns)
        (fixCovariancePair k1 k2 c dll (Z.of_nat s)
           (sepIndex bd0 (Z.of_nat s)) (zIndex bd0 (Z.of_nat s))) bd
      = Ok bd'
      /\ held n bd0 bd' /\ reads false (BinnedData.store bd') = Ok m'
      /\ fixedUpTo k1 k2 c n bd0 s turns m0 m'.
Proof.
  intros Hsn Hdll turns.
  induction turns as [|u IH]; intros bd m Ht Hheld Hreads Hfixed.
  - exists bd, m. auto.
  - destruct (IH bd m ltac:(lia) Hheld Hreads Hfixed)
      as (bd1 & m1 & Hrun & Hheld1 & Hreads1 & Hfixed1).
    destruct (fixCovariancePair_step dll s u bd1 m0 m1 ltac:(lia) Hsn Hheld1
                Hreads1 Hfixed1 (Hdll s ltac:(lia)) (Hdll u ltac:(lia)))
      as (bd2 & m2 & Hpair & Hheld2 & Hreads2 & Hfixed2).
    exists bd2, m2. split; [|auto].
    rewrite seq_S, fmap_app, for_each_app, Hrun. simpl. rewrite Hpair.
    reflexivity.
Qed.

Lemma fixCovarianceBin_step (s : nat) (bd : BinnedData.t) (m0 m : list R) :
  (s < n)%nat ->
  held n bd0 bd -> reads false (BinnedData.store bd) = Ok m ->
  fixedUpTo k1 k2 c n bd0 s 0 m0 m ->
  exists bd' m',
    fixCovarianceBin k1 k2 c (Z.of_nat <$> seq 0 n) (s, Z.of_nat s)
      (bd, (fun k => llCenter bd0 (Z.of_nat k)) <$> seq 0 s)
    = Ok (bd', (fun k => llCenter bd0 (Z.of_nat k)) <$> seq 0 (S s))
    /\ held n bd0 bd' /\ reads false (BinnedData.store bd') = Ok m'
    /\ fixedUpTo k1 k2 c n bd0 (S s) 0 m0 m'.
Proof.
  intros Hsn Hheld Hreads Hfixed.
  pose proof Hheld as (Hidx & Ha1 & Ha2 & Ha3 & Hready).
  destruct (fixCovariance_inner
              ((fun k => llCenter bd0 (Z.of_nat k)) <$> seq 0 (S s)) s m0 Hsn)
    with (turns := S s) (bd := bd) (m := m)
    as (bd' & m' & Hrun & Hheld' & Hreads' & Hfixed'); auto.
  { intros k Hk. rewrite list_lookup_fmap, lookup_seq_lt by lia. reflexivity. }
  exists bd', m'. split; [|split; [exact Hheld'|split; [exact Hreads'|]]].
  - unfold fixCovarianceBin.
    assert (BinnedData.getBinIndices bd (Z.of_nat s)
            = BinnedData.getBinIndices bd0 (Z.of_nat s)) as ->
      by (unfold BinnedData.getBinIndices; now rewrite Ha2, Ha3).
    rewrite Ha1.
    rewrite <- fmap_take, take_seq, Nat.min_l by lia.
    assert (((fun k => llCenter bd0 (Z.of_nat k)) <$> seq 0 s)
              ++ [getBinCenter (BinnedData.bd_axis1 bd0)
                    (BinnedData.getBinIndices bd0 (Z.of_nat s)).1.1]
            = (fun k => llCenter bd0 (Z.of_nat k)) <$> seq 0 (S s)) as ->
      by (rewrite seq_S, fmap_app; reflexivity).
    etransitivity;
      [apply (f_equal (fun r => r ≫= _)); exact Hrun | reflexivity].
  - apply fixedUpTo_next. exact Hfixed'.
Qed.

Lemma fixCovariance_outer (m0 : list R) (bd1 : BinnedData.t) :
  held n bd0 bd1 -> reads false (BinnedData.store bd1) = Ok m0 ->
  forall s, (s <= n)%nat ->
    exists bd' m',
      for_each ((fun k => (k, Z.of_nat k)) <$> seq 0 s)
        (fixCovarianceBin k1 k2 c (Z.of_nat <$> seq 0 n)) (bd1, [])
      = Ok (bd', (fun k => llCenter bd0 (Z.of_nat k)) <$> seq 0 s)
      /\ held n bd0 bd' /\ reads false (BinnedData.store bd') = Ok m'
      /\ fixedUpTo k1 k2 c n bd0 s 0 m0 m'.
Proof.
  intros Hheld1 Hreads1. induction s as [|s IH]; intros Hs.
  - exists bd1, m0. split; [reflexivity|]. split; [exact Hheld1|].
    split; [exact Hreads1|].
    intros row col Hrc Hcol.
    rewrite decide_False by (intros [Hv _]; unfold visited in Hv; lia).
    destruct (m0 !! _); simpl; [f_equal; lra|reflexivity].
  - destruct (IH ltac:(lia)) as (bd2 & m2 & Hrun & Hheld2 & Hreads2 & Hfixed2).
    destruct (fixCovarianceBin_step s bd2 m0 m2 ltac:(lia) Hheld2 Hreads2
                Hfixed2) as (bd3 & m3 & Hbin & Hheld3 & Hreads3 & Hfixed3).
    exists bd3, m3. split; [|auto].
    rewrite (seq_S s) at 1. rewrite fmap_app, for_each_app, Hrun.
    change (for_each [(s, Z.of_nat s)]
              (fixCovarianceBin k1 k2 c (Z.of_nat <$> seq 0 n))
              (bd2, (fun k => llCenter bd0 (Z.of_nat k)) <$> seq 0 s)
            = Ok (bd3, (fun k => llCenter bd0 (Z.of_nat k)) <$> seq 0 (S s))).
    rewrite for_each_cons, Hbin. reflexivity.
Qed.

End FixAmounts.

Section FixAmountsTheorem.
Import QuasarCorrelationData.
Context {cosmology : AbsHomogeneousUniverse} {L : Lapack} {M : RawMemory}.

Lemma imap_seq_diag {B} (f : nat -> nat -> B) (n : nat) :
  imap f (seq 0 n) = (fun k => f k k) <$> seq 0 n.
Proof.
  apply list_eq. intros i. rewrite list_lookup_imap, list_lookup_fmap.
  destruct (decide (i < n)%nat).
  - now rewrite lookup_seq_lt by assumption.
  - now rewrite lookup_seq_ge by lia.
Qed.

Lemma _pkmarg_sym (kmin kmax l1 l2 : R) :
  _pkmarg kmin kmax l1 l2 = _pkmarg kmin kmax l2 l1.
Proof. unfold _pkmarg. apply Rmult_comm. Qed.

Lemma fixTerm_sym (k1 k2 c : R) (bd : BinnedData.t) (i1 i2 : Z) :
  fixTerm k1 k2 c bd i1 i2 = fixTerm k1 k2 c bd i2 i1.
Proof.
  unfold fixTerm.
  now rewrite (_pkmarg_sym _ _ (llCenter bd i1)),
    (_pkmarg_sym _ _ (llCenter bd i1)).
Qed.

(** X6. On a dataset whose bins with data are the bins [0 .. n-1] in that
    order, with a data vector that is not weighted and a covariance that
    is held as such, [fixCovariance(k1,k2,c)] returns, and the covariance
    of two bins reads as before when their separation bins or their
    redshift bins differ, and as before plus
    [c*(1 + _pkmarg(0,k1,ll1,ll2) + _pkmarg(k1,k2,ll1,ll2))] when they
    share both, [ll1] and [ll2] being the wavelength-ratio centers of the
    two bins. *)
Theorem fixCovariance_amounts (k1 k2 c : R) (n : nat) (d : t) :
  (0 < n)%nat -> denseBins n (base d) ->
  BinnedData.isCovarianceModifiable (base d) = true ->
  BinnedData.bd_weighted (base d) = false ->
  length (BinnedData.bd_data (base d)) = n ->
  storeReady false (base d) ->
  exists d',
    fixCovariance k1 k2 c d = Ok d'
    /\ forall i1 i2, (0 <= i1 < Z.of_nat n)%Z -> (0 <= i2 < Z.of_nat n)%Z ->
         exists C,
           BinnedData.getCovariance (base d) i1 i2 = Ok C
           /\ BinnedData.getCovariance (base d') i1 i2
              = Ok (if decide (together (base d) i1 i2)
                    then C + fixTerm k1 k2 c (base d) i1 i2 else C).
Proof.
  intros Hn Hdense Hmod Hunw Hdata Hstore.
  assert (held n (base d) (base d)) as Hheld.
  { repeat (split; [reflexivity|]).
    apply storeReady_ready in Hstore.
    unfold BinnedData.getNBinsWithData in Hstore.
    rewrite Hdense, length_fmap, length_seq in Hstore. exact Hstore. }
  pose proof Hheld as (_ & _ & _ & _ & Hready).
  destruct (ready_reads _ _ _ Hready) as (m0 & Hreads0 & Hlen0).
  destruct (fixCovariance_outer k1 k2 c n (base d) Hdense m0 (base d)
              Hheld Hreads0 n (le_n n))
    as (bd' & m' & Hrun & Hheld' & Hreads' & Hfixed).
  exists (set_base bd' d). split.
  { unfold fixCovariance. rewrite Hmod.
    assert (at_ (BinnedData.bd_index (base d)) 0 = Ok 0%Z) as ->.
    { unfold at_. rewrite Hdense, list_lookup_fmap, lookup_seq_lt by lia.
      reflexivity. }
    cbn [negb mbind result_bind].
    assert (BinnedData.getData (base d) 0
            = Ok (base d, default 0 (BinnedData.bd_data (base d) !! 0%nat)))
      as ->.
    { unfold BinnedData.getData, BinnedData.unweighted. rewrite Hunw.
      cbn [mbind result_bind].
      change 0%Z with (Z.of_nat 0).
      rewrite (dense_offset n (base d) Hdense (base d) 0 Hheld Hn).
      cbn [mbind result_bind]. unfold at_.
      destruct (lookup_lt_is_Some_2 (BinnedData.bd_data (base d)) 0
                  ltac:(lia)) as [v ->]. reflexivity. }
    cbn [negb mbind result_bind].
    rewrite Hdense, imap_fmap, imap_seq_diag.
    etransitivity;
      [apply (f_equal (fun r => r ≫= _)); exact Hrun | reflexivity]. }
  intros i1 i2 Hi1 Hi2.
  assert (forall a b, (a < n)%nat -> (b < n)%nat ->
            exists C,
              BinnedData.getCovariance (base d) (Z.of_nat a) (Z.of_nat b)
              = Ok C
              /\ BinnedData.getCovariance bd' (Z.of_nat a) (Z.of_nat b)
                 = Ok (if decide (together (base d) (Z.of_nat a) (Z.of_nat b))
                       then C + fixTerm k1 k2 c (base d) (Z.of_nat a)
                                  (Z.of_nat b)
                       else C)) as Hall.
  { assert (forall row col, (row <= col)%nat -> (col < n)%nat ->
              exists C,
                BinnedData.getCovariance (base d) (Z.of_nat col) (Z.of_nat row)
                = Ok C
                /\ BinnedData.getCovariance bd' (Z.of_nat col) (Z.of_nat row)
                   = Ok (if decide (together (base d) (Z.of_nat col)
                                      (Z.of_nat row))
                         then C + fixTerm k1 k2 c (base d) (Z.of_nat col)
                                    (Z.of_nat row)
                         else C)) as Hordered.
    { intros row col Hrc Hcol.
      destruct (held_get n (base d) Hdense (base d) m0 col row Hheld Hreads0
                  Hcol ltac:(lia)) as (C & HC & Hget0).
      destruct (held_get n (base d) Hdense bd' m' col row Hheld' Hreads'
                  Hcol ltac:(lia)) as (C' & HC' & Hget').
      exists C. split; [exact Hget0|]. rewrite Hget'. f_equal.
      pose proof (Hfixed row col Hrc Hcol) as Hval.
      rewrite HC, HC' in Hval. simpl in Hval. injection Hval as ->.
      destruct (decide (together _ _ _)) as [Ht|Ht].
      - rewrite decide_True by (split; [left; exact Hcol|exact Ht]).
        reflexivity.
      - rewrite decide_False by (intros [_ Ht']; contradiction). lra. }
    intros a b Ha Hb.
    destruct (decide (b <= a)%nat) as [Hle|Hgt]; [now apply Hordered|].
    destruct (Hordered a b ltac:(lia) Hb) as (C & H0 & H').
    exists C.
    assert (forall bd, held n (base d) bd ->
              BinnedData.getCovariance bd (Z.of_nat a) (Z.of_nat b)
              = BinnedData.getCovariance bd (Z.of_nat b) (Z.of_nat a)) as Hsym.
    { intros bd Hbd. unfold BinnedData.getCovariance.
      rewrite (dense_offset n (base d) Hdense bd a Hbd Ha),
        (dense_offset n (base d) Hdense bd b Hbd Hb).
      cbn [mbind result_bind].
      unfold CovarianceMatrix.getCovariance, CovarianceMatrix.checkIndices.
      rewrite (symmetricIndex_sym a b).
      destruct (decide (a < _ /\ b < _)%nat), (decide (b < _ /\ a < _)%nat);
        try reflexivity; lia. }
    rewrite (Hsym _ Hheld), (Hsym _ Hheld'). split; [exact H0|].
    rewrite H'. f_equal.
    rewrite (fixTerm_sym _ _ _ _ (Z.of_nat a)).
    destruct (decide (together _ (Z.of_nat b) _)) as [[Hs Hz]|Hno],
             (decide (together _ (Z.of_nat a) _)) as [[Hs' Hz']|Hno'];
      try reflexivity; exfalso.
    - apply Hno'. split; congruence.
    - apply Hno. split; congruence. }
  destruct (Hall (Z.to_nat i1) (Z.to_nat i2) ltac:(lia) ltac:(lia))
    as (C & H0 & H').
  rewrite !Z2Nat.id in H0, H' by lia.
  exists C. split; [exact H0|exact H'].
Qed.

End FixAmountsTheorem.

Lemma frenchCovName_prefix_witness :
  boss.frenchCovName "data/xi.txt" = Ok "data/cov_xi.txt"%string
  /\ boss.frenchCovName "xi.txt" = Ok "cov_xi.txt"%string.
Proof.
  apply (frenchCovName_prefix "data" "xi.txt"). simpl.
  intros H. repeat (apply elem_of_cons in H as [H|H]; [discriminate|]).
  inversion H.
Defined.

Lemma loadFrench_reports_covariance_line_witness :
  @boss.loadFrench smallLapack matchNothing frenchNothing frenchFiles "demo"
    oneBinData false false
  = Err (RuntimeError "loadFrench: error reading line 1 of cov_demo.txt").
Proof.
  apply (loadFrench_reports_covariance_line (L:=smallLapack) (G:=matchNothing)
           (F:=frenchNothing) frenchFiles "demo" oneBinData false false
           [] [] [] "1 0 7" "cov_demo.txt"
           (0%Z, boss.clonePrototype oneBinData)
           (0%Z, boss.clonePrototype oneBinData));
    reflexivity.
Defined.

Lemma loadFrench_skips_witness :
  @boss.loadFrench smallLapack belowDiagonal frenchNothing frenchFiles "demo"
    oneBinData false false
  = Ok (boss.clonePrototype oneBinData).
Proof.
  apply (loadFrench_skips (L:=smallLapack) (G:=belowDiagonal)
           (F:=frenchNothing) frenchFiles "demo" oneBinData false false
           [] ["1 0 7"%string] "cov_demo.txt"
           (0%Z, boss.clonePrototype oneBinData)); try reflexivity.
  apply Forall_cons. split; [|apply Forall_nil_2].
  exists 1%Z, 0%Z, 7. split; [reflexivity|]. left. lia.
Defined.

Lemma loadCosmolib_reports_params_line_witness :
  @boss.loadCosmolib smallLapack matchNothing badParams "bad" oneBinData
    false false false false
  = Err (RuntimeError "loadCosmolib: error reading line 1 of bad.params").
Proof.
  apply (loadCosmolib_reports_params_line (L:=smallLapack) (G:=matchNothing)
           badParams "bad" oneBinData false false false false
           [] [] "oops" (0%Z, boss.clonePrototype oneBinData));
    reflexivity.
Defined.

Lemma twoSepData_dense :
  denseBins 2 (QuasarCorrelationData.base twoSepData).
Proof. reflexivity. Qed.

Lemma fixCovariance_amounts_witness :
  exists d',
    @QuasarCorrelationData.fixCovariance smallLapack zeroMemory 150 300 1e-3
      twoSepData = Ok d'
    /\ @BinnedData.getCovariance smallLapack (QuasarCorrelationData.base d') 1 1
       = Ok (9 + fixTerm 150 300 1e-3 (QuasarCorrelationData.base twoSepData)
                   1 1).
Proof.
  destruct (fixCovariance_amounts (L:=smallLapack) (M:=zeroMemory)
              150 300 1e-3 2 twoSepData
              ltac:(lia) twoSepData_dense eq_refl eq_refl eq_refl
              ltac:(split; [reflexivity|split; reflexivity]))
    as (d' & Hrun & Hall).
  exists d'. split; [exact Hrun|].
  destruct (Hall 1%Z 1%Z ltac:(lia) ltac:(lia)) as (C & HC & HC').
  rewrite decide_True in HC' by (split; reflexivity).
  injection HC as <-. exact HC'.
Defined.

(** ** Packed elements and theory offsets *)

Section More.
Import LyaData Lifecycle.
Context {cosmology : AbsHomogeneousUniverse} {L : Lapack} {Sum : BinnedDataSum}.

(** X17. [getSymmetric] reads every element [(i,j)] of an [n] by [n] matrix
    inside its [n(n+1)/2] packed values, reads the same value for [(i,j)]
    and [(j,i)], and fails its assertion for an index outside
    [0 .. n-1]. *)
Theorem getSymmetric_packed (d : t) (matrix : list R) (i j : Z) :
  length matrix = packedSize (getNData d) ->
  ((0 <= i < Z.of_nat (getNData d))%Z -> (0 <= j < Z.of_nat (getNData d))%Z ->
   exists v,
     matrix !! symmetricIndex (Z.to_nat i) (Z.to_nat j) = Some v
     /\ getSymmetric d matrix i j = Ok v
     /\ getSymmetric d matrix j i = Ok v)
  /\ ((i < 0 \/ j < 0 \/ Z.of_nat (getNData d) <= i
       \/ Z.of_nat (getNData d) <= j)%Z ->
      getSymmetric d matrix i j = Err AssertionFailure).
Proof.
  intros Hlen.
  assert (forall row col, (0 <= row <= col)%Z ->
            (col < Z.of_nat (getNData d))%Z ->
            exists v,
              matrix !! (Z.to_nat row + Z.to_nat col * (Z.to_nat col + 1) / 2)%nat
              = Some v
              /\ at_Z matrix (row + (col * (col + 1)) `div` 2) = Ok v) as Hread.
  { intros row col Hrc Hcol.
    assert (Z.to_nat (row + (col * (col + 1)) `div` 2)
            = (Z.to_nat row + Z.to_nat col * (Z.to_nat col + 1) / 2)%nat)
      as Hpos.
    { rewrite Z2Nat.inj_add, Z2Nat.inj_div, Z2Nat.inj_mul, Z2Nat.inj_add
        by (try apply Z.div_pos; nia).
      reflexivity. }
    pose proof (symmetricIndex_lt (getNData d) (Z.to_nat row) (Z.to_nat col)
                  ltac:(lia) ltac:(lia)) as Hlt.
    unfold symmetricIndex in Hlt.
    assert (Z.to_nat row + Z.to_nat col * (Z.to_nat col + 1) / 2
            < length matrix)%nat as Hin.
    { rewrite Hlen. destruct (decide (Z.to_nat col <= Z.to_nat row)%nat);
        [|exact Hlt].
      replace (Z.to_nat row) with (Z.to_nat col) by lia. 
      replace (Z.to_nat row) with (Z.to_nat col) in Hlt by lia. exact Hlt. }
    destruct (lookup_lt_is_Some_2 _ _ Hin) as [v Hv].
    exists v. split; [exact Hv|].
    unfold at_Z, at_. rewrite decide_True
      by (pose proof (Z.div_pos (col * (col + 1)) 2); nia).
    now rewrite Hpos, Hv. }
  split.
  - intros Hi Hj. unfold getSymmetric, symmetricIndex.
    destruct (decide (i >= j)%Z) as [Hge|Hlt].
    + destruct (Hread j i ltac:(lia) ltac:(lia)) as (v & Hv & Hat).
      exists v. rewrite decide_True by lia. split; [exact Hv|].
      rewrite !bool_decide_eq_true_2 by lia. simpl. split; [exact Hat|].
      destruct (decide (j >= i)%Z) as [Hge'|_].
      * assert (i = j) as -> by lia.
        rewrite !bool_decide_eq_true_2 by lia. exact Hat.
      * rewrite !bool_decide_eq_true_2 by lia. exact Hat.
    + destruct (Hread i j ltac:(lia) ltac:(lia)) as (v & Hv & Hat).
      exists v. rewrite decide_False by lia. split; [exact Hv|].
      rewrite !bool_decide_eq_true_2 by lia. simpl. split; [exact Hat|].
      rewrite decide_True by lia.
      rewrite !bool_decide_eq_true_2 by lia. exact Hat.
  - intros Hout. unfold getSymmetric.
    destruct (decide (i >= j)%Z);
      (destruct (decide (0 <= i)%Z);
       [|rewrite ?(bool_decide_eq_false_2 (i >= 0)%Z) by lia;
         rewrite ?andb_false_r; reflexivity]);
      (destruct (decide (0 <= j)%Z);
       [|rewrite ?(bool_decide_eq_false_2 (j >= 0)%Z) by lia;
         rewrite ?andb_false_r; reflexivity]).
    + rewrite (bool_decide_eq_false_2 (i < _)%Z) by lia.
      now rewrite andb_false_r.
    + rewrite (bool_decide_eq_false_2 (j < _)%Z) by lia.
      now rewrite andb_false_r.
Qed.

Lemma applyOffset_loop (model : AbsCorrelationModel) (pfit pnew : list R)
    (d : t) (turns : nat) :
  forall (s : nat) (data : list R),
    (s + turns <= length data)%nat -> (s + turns <= length (_r3d d))%nat ->
    (s + turns <= length (_mu d))%nat -> (s + turns <= length (_index d))%nat ->
    exists data',
      for_each (seq s turns) (applyOffset model pfit pnew) (set_data data d)
      = Ok (set_data data' d)
      /\ length data' = length data
      /\ (forall k v, (s <= k < s + turns)%nat -> data !! k = Some v ->
            data' !! k = Some (v + theoryOffset model pfit pnew d k))
      /\ (forall k, ~ (s <= k < s + turns)%nat -> data' !! k = data !! k).
Proof.
  induction turns as [|turns IH]; intros s data Hd Hr Hm Hi.
  - exists data. split; [reflexivity|]. split; [reflexivity|].
    split; [intros; lia|auto].
  - destruct (lookup_lt_is_Some_2 data s ltac:(lia)) as [v Hv].
    destruct (lookup_lt_is_Some_2 (_r3d d) s ltac:(lia)) as [r Hr'].
    destruct (lookup_lt_is_Some_2 (_mu d) s ltac:(lia)) as [mu Hmu].
    destruct (lookup_lt_is_Some_2 (_index d) s ltac:(lia)) as [index Hindex].
    destruct (IH (S s) (<[s:=v + theoryOffset model pfit pnew d s]> data))
      as (data' & Hrun & Hlen & Hin & Hout);
      [rewrite length_insert; lia|lia|lia|lia|].
    exists data'. split.
    { rewrite <- cons_seq, for_each_cons.
      unfold applyOffset at 1, getRadius, getCosAngle, getRedshift, at_, put.
      simpl. rewrite Hr', Hmu, Hindex, Hv. simpl.
      rewrite decide_True by lia.
      unfold theoryOffset in Hrun. rewrite Hr', Hmu, Hindex in Hrun.
      exact Hrun. }
    rewrite length_insert in Hlen. split; [exact Hlen|]. split.
    + intros k v' Hk Hv'. destruct (decide (k = s)) as [->|Hne].
      * rewrite Hout by lia. rewrite list_lookup_insert_eq by lia. congruence.
      * apply Hin; [lia|]. now rewrite list_lookup_insert_ne by lia.
    + intros k Hk. rewrite Hout by lia. apply list_lookup_insert_ne. lia.
Qed.

(** X18. [applyTheoryOffsets] on a plate returns, shifts the value of every
    bin by the difference of the model between the new and the fitted
    parameters at the cached coordinates of the bin, and leaves a plate:
    [_icovData] is again the data multiplied by the inverse covariance.
    The covariance store keeps its elements, and it is compressed after
    the call exactly when it was before: a compressed store is compressed
    again. *)
Theorem applyTheoryOffsets_shifts (model : AbsCorrelationModel)
    (pfit pnew : list R) (n : nat) (p : t) :
  Plate n p ->
  length (_r3d p) = n -> length (_mu p) = n -> length (_index p) = n ->
  exists p',
    applyTheoryOffsets (Some model) pfit pnew p = Ok p'
    /\ Plate n p'
    /\ (forall k v, _data p !! k = Some v ->
          _data p' !! k = Some (v + theoryOffset model pfit pnew p k))
    /\ exists c c',
         _covariance p = Some c /\ _covariance p' = Some c'
         /\ CovarianceMatrix.isCompressed c' = CovarianceMatrix.isCompressed c
         /\ CovarianceMatrix.size c' = CovarianceMatrix.size c
         /\ CovarianceMatrix.elems c' = CovarianceMatrix.elems c.
Proof.
  intros (Hdf & Hcf & Hlen & c & m & Hc & (Hs & Hr & Hl) & Hset & Hicov)
    Hr3d Hmu Hindex.
  destruct (applyOffset_loop model pfit pnew p n 0 (_data p))
    as (data' & Hrun & Hlen' & Hin & _); [lia..|].
  assert (set_data (_data p) p = p) as Hsame by reflexivity.
  rewrite Hsame in Hrun.
  assert (forall k v, _data p !! k = Some v ->
            data' !! k = Some (v + theoryOffset model pfit pnew p k)) as Hall.
  { intros k v Hv. apply Hin; [|exact Hv]. apply lookup_lt_Some in Hv. lia. }
  assert (applyTheoryOffsets (Some model) pfit pnew p
          = Ok (let q := set_icovData (symmetricMultiply n m data')
                           (set_data data' p) in
                if CovarianceMatrix.isCompressed c
                then set_covariance (Some (CovarianceMatrix.compress c)) q
                else q)) as Hresult.
  { unfold applyTheoryOffsets. simpl. unfold getNData. rewrite Hlen, Hrun.
    simpl. rewrite Hc. simpl.
    unfold CovarianceMatrix.multiplyByInverseCovariance,
      CovarianceMatrix.checkLength.
    rewrite decide_True by congruence. simpl. rewrite Hr, Hs. simpl.
    destruct (CovarianceMatrix.isCompressed c); reflexivity. }
  eexists. split; [exact Hresult|].
  destruct (CovarianceMatrix.isCompressed c) eqn:Hcompressed;
    unfold Plate, set_covariance, set_icovData, set_data; simpl.
  - split; [|split; [exact Hall|]].
    + split; [exact Hdf|]. split; [exact Hcf|]. split; [congruence|].
      exists (CovarianceMatrix.compress c), m.
      split; [reflexivity|]. split; [repeat split; assumption|].
      split; [exact Hset|reflexivity].
    + exists c, (CovarianceMatrix.compress c).
      split; [exact Hc|]. split; [reflexivity|].
      split; [symmetry; exact Hcompressed|]. split; reflexivity.
  - split; [|split; [exact Hall|]].
    + split; [exact Hdf|]. split; [exact Hcf|]. split; [congruence|].
      exists c, m. split; [exact Hc|]. split; [repeat split; assumption|].
      split; [exact Hset|reflexivity].
    + exists c, c. split; [exact Hc|]. split; [exact Hc|].
      split; [reflexivity|]. split; reflexivity.
Qed.

End More.

Lemma plate1Cached_Plate : @Lifecycle.Plate smallLapack 1 plate1Cached.
Proof.
  split; [reflexivity|]. split; [reflexivity|]. split; [reflexivity|].
  exists (CovarianceMatrix.mk 1 (CovarianceMatrix.ICov [1]) true), [1].
  split; [reflexivity|]. split; [repeat split|].
  split; [discriminate|reflexivity].
Qed.

Lemma getSymmetric_packed_witness :
  exists v, LyaData.getSymmetric plate1 [7] 0 0 = Ok v.
Proof.
  destruct (getSymmetric_packed plate1 [7] 0 0 eq_refl) as [Hin _].
  destruct Hin as (v & _ & Hv & _); [unfold LyaData.getNData; simpl; lia..|].
  exists v. exact Hv.
Defined.

Lemma applyTheoryOffsets_shifts_witness :
  exists p' c',
    @LyaData.applyTheoryOffsets smallLapack (Some firstParameter) [3] [5]
      plate1Cached = Ok p'
    /\ LyaData._data p' !! 0%nat = Some (2 + (5 - 3))
    /\ LyaData._covariance p' = Some c'
    /\ CovarianceMatrix.isCompressed c' = true.
Proof.
  destruct (applyTheoryOffsets_shifts (L:=smallLapack) firstParameter [3] [5]
              1 plate1Cached plate1Cached_Plate eq_refl eq_refl eq_refl)
    as (p' & Hrun & _ & Hdata & c & c' & Hc & Hc' & Hcompressed & _).
  exists p', c'. split; [exact Hrun|].
  split; [apply (Hdata 0%nat 2 eq_refl)|]. split; [exact Hc'|].
  injection Hc as <-. exact Hcompressed.
Defined.

(** ** The diagonal after either loader, the final cuts, and reuse *)

Section LoadersDiagonal.
Context {L : Lapack} {G : LineGrammar} {P : LinePatterns}.

Lemma main_loadCosmolib_diagonal (fs : files) (dataName : string)
    (llBins sepBins zBins : AbsBinning) (verbose icov fast : bool)
    (bd : BinnedData.t) :
  main.loadCosmolib fs dataName llBins sepBins zBins verbose icov fast
  = Ok bd ->
  NoDup (BinnedData.bd_index bd)
  /\ forall index, index ∈ BinnedData.bd_index bd ->
       exists v, stored icov bd index index = Ok v /\ v <> 0.
Proof.
  unfold main.loadCosmolib. intros H.
  apply bind_Ok in H as (paramsIn & _ & H).
  apply bind_Ok in H as ([lines1 bd1] & Hparams & H).
  apply bind_Ok in H as (covIn & _ & H).
  apply bind_Ok in H as ([lines2 bd2] & Hcov & Hdiag).
  assert (NoDup (BinnedData.bd_index bd1)
          /\ BinnedData.bd_covariance bd1 = None) as [Hnodup1 Hnone1].
  { revert Hparams.
    apply (for_each_invariant
             (fun s : Z * BinnedData.t =>
                NoDup (BinnedData.bd_index s.2)
                /\ BinnedData.bd_covariance s.2 = None)).
    - intros line [k x] [k' x'] _ [Hx1 Hx2] Hline. simpl in *.
      unfold main.paramsLine in Hline.
      destruct (matchParams fast line)
        as [[|v [|v2 [|ll [|sep [|z [|]]]]]]|]; try discriminate.
      apply bind_Ok in Hline as (index & _ & Hline).
      apply bind_Ok in Hline as (x'' & Hset & Hline). inversion Hline; subst.
      apply (setData_loading icov _ _ _ _ _ Hx1 Hx2 Hset).
    - split; [apply NoDup_nil_2|reflexivity]. }
  assert (loading icov bd2) as Hloading.
  { revert Hcov.
    apply (for_each_invariant
             (fun s : Z * BinnedData.t => loading icov s.2)).
    - intros line [k x] [k' x'] _ Hx Hline. simpl in *.
      unfold main.covLine in Hline.
      destruct (matchCov fast line) as [[[offset1 offset2] value]|];
        [|discriminate].
      apply bind_Ok in Hline as (x'' & Hentry & Hline). inversion Hline; subst.
      apply (addCovarianceEntry_loading icov _ _ _ _ _ Hx Hentry).
    - split; [exact Hnodup1|apply storeReady_fresh; exact Hnone1]. }
  apply (checkZeroDiagonals_nonzero icov bd2 bd Hloading Hdiag).
Qed.

(** X19. The dataset that either [loadCosmolib] returns has no bin twice
    and no zero on the diagonal of what it loaded, the covariance or its
    inverse: every diagonal entry of a bin with data can be read and is
    not zero. *)
Theorem loaded_diagonal_nonzero (fs : files) (dataName : string)
    (prototype : BinnedData.t) (llBins sepBins zBins : AbsBinning)
    (verbose icov weighted checkPosDef fast : bool) (bd : BinnedData.t) :
  boss.loadCosmolib fs dataName prototype verbose icov weighted checkPosDef
  = Ok bd
  \/ main.loadCosmolib fs dataName llBins sepBins zBins verbose icov fast
     = Ok bd ->
  NoDup (BinnedData.bd_index bd)
  /\ forall index, index ∈ BinnedData.bd_index bd ->
       exists v, stored icov bd index index = Ok v /\ v <> 0.
Proof.
  intros [H|H].
  - apply (loadCosmolib_diagonal _ _ _ _ _ _ _ _ H).
  - apply (main_loadCosmolib_diagonal _ _ _ _ _ _ _ _ _ H).
Qed.

End LoadersDiagonal.

Lemma onePlate_loadCosmolib :
  exists bd,
    @main.loadCosmolib smallLapack onePlatePatterns onePlateFiles "one"
      oneBin twoSep oneBin false true false = Ok bd
    /\ BinnedData.bd_index bd = [0%Z].
Proof.
  unfold main.loadCosmolib. cbv zeta.
  rewrite onePlateFiles_params, onePlateFiles_icov. simpl.
  unfold checkZeroDiagonals, checkZeroDiagonal. simpl.
  repeat (destruct (decide (0 = - (-4))) as [Hz|_]; [exfalso; lra|]; simpl).
  eexists. split; reflexivity.
Qed.

Lemma loaded_diagonal_nonzero_witness :
  exists bd v,
    @main.loadCosmolib smallLapack onePlatePatterns onePlateFiles "one"
      oneBin twoSep oneBin false true false = Ok bd
    /\ @stored smallLapack true bd 0 0 = Ok v /\ v <> 0.
Proof.
  destruct onePlate_loadCosmolib as (bd & Hrun & Hindex).
  destruct (loaded_diagonal_nonzero (L:=smallLapack) (G:=matchNothing)
              (P:=onePlatePatterns) onePlateFiles "one" oneBinData
              oneBin twoSep oneBin false true false false false bd
              (or_intror Hrun)) as [_ Hall].
  destruct (Hall 0%Z ltac:(rewrite Hindex; set_solver)) as (v & Hv & Hne).
  exists bd, v. auto.
Defined.

(** ** The pruning policy of [QuasarCorrelationData::finalize] *)

Section FinalCutsPolicy.
Import QuasarCorrelationData.
Context {cosmology : AbsHomogeneousUniverse} {L : Lapack} {M : RawMemory}.

Lemma getRadius_binRadius (index : Z) (d : t) :
  isFinalized d = false -> index <> (-1)%Z -> cacheCoherent d ->
  exists d',
    getRadius index d = Ok (d', binRadius (base d) index)
    /\ base d' = base d /\ cacheCoherent d'.
Proof.
  intros Hfin Hindex Hcache.
  destruct (cached_getters index d Hfin Hindex Hcache)
    as (d' & r & mu & z & Hval & Hr & _ & _ & Hbase & Hcache').
  exists d'. unfold binRadius. rewrite Hval. simpl. auto.
Qed.

Lemma applyFinalCuts_loop (rmin rmax : R) (d : t) (todo : list Z) :
  forall (d0 : t) (keep0 : gset Z),
    base d0 = base d -> isFinalized d = false -> cacheCoherent d0 ->
    (-1)%Z ∉ todo ->
    exists d1 keep1,
      for_each todo (applyFinalCutsBin rmin rmax) (d0, keep0) = Ok (d1, keep1)
      /\ forall b, b ∈ keep1 <->
           b ∈ keep0
           \/ (b ∈ todo /\ rmin <= binRadius (base d) b
               /\ binRadius (base d) b < rmax).
Proof.
  induction todo as [|index todo IH]; intros d0 keep0 Hbase Hfin Hcache Hvalid.
  - exists d0, keep0. split; [reflexivity|]. intros b. split; [auto|].
    intros [H|[H _]]; [exact H|inversion H].
  - assert (index <> (-1)%Z) as Hindex.
    { intros ->. apply Hvalid. constructor. }
    assert ((-1)%Z ∉ todo) as Hvalid'.
    { intros Hin. apply Hvalid. now constructor. }
    assert (isFinalized d0 = false) as Hfin0
      by (unfold isFinalized; rewrite Hbase; exact Hfin).
    destruct (getRadius_binRadius index d0 Hfin0 Hindex Hcache)
      as (d1 & Hr & Hbase1 & Hcache1).
    rewrite Hbase in Hr, Hbase1.
    rewrite for_each_cons. unfold applyFinalCutsBin at 1. rewrite Hr. simpl.
    destruct (decide (binRadius (base d) index < rmin
                      \/ binRadius (base d) index >= rmax)) as [Hcut|Hin].
    + destruct (IH d1 keep0 Hbase1 Hfin Hcache1 Hvalid')
        as (d2 & keep2 & Hrun & Hkeep).
      exists d2, keep2. split; [exact Hrun|].
      intros b. rewrite Hkeep, elem_of_cons. split.
      * intros [H|(H & Hb)]; [left; exact H|right; tauto].
      * intros [H|([->|H] & Hlo & Hhi)]; [left; exact H| |right; tauto].
        exfalso. destruct Hcut; lra.
    + destruct (IH d1 ({[index]} ∪ keep0) Hbase1 Hfin Hcache1 Hvalid')
        as (d2 & keep2 & Hrun & Hkeep).
      exists d2, keep2. split; [exact Hrun|].
      intros b. rewrite Hkeep, elem_of_union, elem_of_singleton, elem_of_cons.
      split.
      * intros [[->|H]|(H & Hb)]; [right|left; exact H|right; tauto].
        split; [left; reflexivity|]. split.
        -- destruct (Rle_dec rmin (binRadius (base d) index)); [assumption|].
           exfalso. apply Hin. left. lra.
        -- destruct (Rlt_dec (binRadius (base d) index) rmax); [assumption|].
           exfalso. apply Hin. right. lra.
      * intros [H|([->|H] & Hb)]; [left; right; exact H|left; left; reflexivity|].
        right. tauto.
Qed.

(** The final cuts keep the bins with data whose radius is in
    [[rmin, rmax)]. *)
Lemma applyFinalCuts_keeps (rmin rmax : R) (d : t) :
  isFinalized d = false -> cacheCoherent d ->
  (-1)%Z ∉ BinnedData.bd_index (base d) ->
  exists keep,
    applyFinalCuts rmin rmax d = Ok keep
    /\ forall b, b ∈ keep <->
         b ∈ BinnedData.bd_index (base d)
         /\ rmin <= binRadius (base d) b /\ binRadius (base d) b < rmax.
Proof.
  intros Hfin Hcache Hvalid.
  destruct (applyFinalCuts_loop rmin rmax d (BinnedData.bd_index (base d)) d ∅
              eq_refl Hfin Hcache Hvalid) as (d1 & keep & Hrun & Hkeep).
  exists keep. unfold applyFinalCuts. rewrite Hrun. split; [reflexivity|].
  intros b. rewrite Hkeep. split; [|auto].
  intros [H|H]; [inversion H|exact H].
Qed.

Section Stage.
Context {cuts : FinalCuts}.

(** The dataset that [finalize] hands to [_applyFinalCuts]: it has the
    bins and the binning of the one [finalize] was called on, and its
    cache is as coherent. *)
Lemma finalize_stage (d d' : t) :
  isFinalized d = false -> cacheCoherent d -> finalize d = Ok d' ->
  exists d1 keep,
    _applyFinalCuts d1 = Ok keep
    /\ sameFrame (base d) (base d1)
    /\ isFinalized d1 = false /\ cacheCoherent d1
    /\ forall b, b ∈ BinnedData.bd_index (base d') <->
         b ∈ BinnedData.bd_index (base d) /\ b ∈ keep
         /\ _llmin d <= llCenter (base d) b.
Proof.
  intros Hfin Hcache H. pose proof H as Hrun. unfold finalize in H.
  apply bind_Ok in H as (d1 & Hfix & H).
  assert (sameFrame (base d) (base d1) /\ _llmin d1 = _llmin d
          /\ cacheCoherent d1 /\ isFinalized d1 = false)
    as (Hframe & Hll & Hcache1 & Hfin1).
  { destruct (_fixCov d).
    - destruct (fixCovariance_base _ _ _ _ _ Hfix) as (bd1 & -> & Hf1).
      apply fixCovariance_sameFrame in Hfix as (Hf & Hl & _).
      split; [exact Hf|]. split; [exact Hl|].
      destruct Hf as (_ & Ha1 & Ha2 & Ha3 & _).
      split; [|exact (eq_trans Hf1 Hfin)].
      destruct Hcache as [Hfresh|Hheld]; [left; exact Hfresh|right].
      simpl in *. rewrite Hheld.
      unfold binCoordinates, BinnedData.getBinIndices.
      now rewrite Ha1, Ha2, Ha3.
    - injection Hfix as <-. split; [apply sameFrame_refl|]. auto. }
  apply bind_Ok in H as (keep & Hcuts & H).
  apply bind_Ok in H as ([d2 keep2] & Hloop & H).
  apply bind_Ok in H as (bd & Hprune & H). injection H as <-.
  apply finalizeBin_loop in Hloop as (E & F & K).
  exists d1, keep. split; [exact Hcuts|]. split; [exact Hframe|].
  split; [exact Hfin1|]. split; [exact Hcache1|].
  destruct Hframe as (Hidx & Ha1 & Ha2 & Ha3 & _).
  intros b. simpl. rewrite (prune_index _ _ _ Hprune), E.
  rewrite list_elem_of_filter, K, Hidx, Hll.
  assert (llCenter (base d1) b = llCenter (base d) b) as ->.
  { unfold llCenter, BinnedData.getBinIndices. now rewrite Ha1, Ha2, Ha3. }
  tauto.
Qed.

End Stage.

(** The bins that [finalize] leaves under the radius cuts. *)
Lemma finalize_radiusCuts (rmin rmax : R) (d d' : t) :
  isFinalized d = false -> cacheCoherent d ->
  (forall b, b ∈ BinnedData.bd_index (base d) -> validIndex (base d) b) ->
  finalize (cuts:=radiusCuts rmin rmax) d = Ok d' ->
  forall b, b ∈ BinnedData.bd_index (base d') <->
    b ∈ BinnedData.bd_index (base d)
    /\ rmin <= binRadius (base d) b /\ binRadius (base d) b < rmax
    /\ _llmin d <= llCenter (base d) b.
Proof.
  intros Hfin Hcache Hbins Hrun.
  destruct (finalize_stage (cuts:=radiusCuts rmin rmax) d d' Hfin Hcache Hrun)
    as (d1 & keep & Hcuts & Hframe & Hfin1 & Hcache1 & Hiff).
  destruct Hframe as (Hidx & Ha1 & Ha2 & Ha3 & _).
  assert ((-1)%Z ∉ BinnedData.bd_index (base d1)) as Hvalid.
  { rewrite Hidx. intros Hin. apply Hbins in Hin as [Hneg _]. lia. }
  destruct (applyFinalCuts_keeps rmin rmax d1 Hfin1 Hcache1 Hvalid)
    as (keep' & Hcuts' & Hkeep).
  simpl in Hcuts. rewrite Hcuts' in Hcuts. injection Hcuts as ->.
  assert (forall b, binRadius (base d1) b = binRadius (base d) b) as Hsame.
  { intros b. unfold binRadius, binCoordinates, BinnedData.getBinIndices.
    now rewrite Ha1, Ha2, Ha3. }
  intros b. rewrite Hiff, Hkeep, Hidx, Hsame. tauto.
Qed.

End FinalCutsPolicy.

Lemma arcminToRad_pos : 0 < _arcminToRad.
Proof.
  unfold _arcminToRad. rewrite atan_1.
  pose proof PI_RGT_0. lra.
Qed.

Lemma arcminUniverse_radius (s : R) :
  0 < s ->
  sqrt ((0 - 0) * (0 - 0)
        + / _arcminToRad * (s * _arcminToRad)
          * (/ _arcminToRad * (s * _arcminToRad))) = s.
Proof.
  intros Hs. pose proof arcminToRad_pos as Ha.
  replace ((0 - 0) * (0 - 0) + / _arcminToRad * (s * _arcminToRad)
             * (/ _arcminToRad * (s * _arcminToRad)))
    with (Rsqr s) by (unfold Rsqr; field; lra).
  apply sqrt_Rsqr. lra.
Qed.

Ltac compute_IZR :=
  repeat match goal with
         | |- context [IZR ?z] =>
             lazymatch z with
             | Z0 => fail
             | Zpos _ => fail
             | Zneg _ => fail
             | _ => let z' := eval vm_compute in z in change z with z'
             end
         end.

Ltac run_radiusCuts :=
  repeat (match goal with
          | |- context [decide (?x < ?lo \/ ?x >= ?hi)] =>
              let H := fresh in
              destruct (decide (x < lo \/ x >= hi)) as [H|H];
              rewrite arcminUniverse_radius in H by (compute_IZR; lra);
              compute_IZR_in H; try (exfalso; lra)
          | |- context [decide (?i ∉ ?s)] =>
              let H := fresh in
              destruct (decide (i ∉ s)) as [H|H];
              try (exfalso; apply H; apply (bool_decide_unpack _); vm_compute; exact I)
          | |- context [decide (?x < ?y)] =>
              let H := fresh in
              destruct (decide (x < y)) as [H|H];
              compute_IZR_in H; try (exfalso; lra)
          end; simpl).

Lemma threeCuts_finalize :
  exists d',
    @QuasarCorrelationData.finalize arcminUniverse smallLapack zeroMemory
      (@QuasarCorrelationData.radiusCuts arcminUniverse 8 26) threeCuts = Ok d'
    /\ BinnedData.bd_index (QuasarCorrelationData.base d') = [2%Z].
Proof.
  unfold QuasarCorrelationData.finalize. simpl.
  unfold QuasarCorrelationData.applyFinalCuts. simpl.
  run_radiusCuts.
  eexists. split; [reflexivity|]. reflexivity.
Qed.

Section PruningPolicy.
Context {cosmology : AbsHomogeneousUniverse} {L : Lapack} {M : RawMemory}.

(** C3. The pruning policy, in the two places that apply it.
    [LyaData::prune(rmin,rmax,llmin)], on a dataset that caches one radius
    per bin with data: the set [keep] it builds, and the bins with data it
    leaves, are exactly the bins [b] with [rmin <= radius(b) < rmax] and
    wavelength-ratio center [>= llmin], and the pruning returns whenever
    the covariance of the dataset can be read.
    [QuasarCorrelationData::finalize], with the final cuts [rmin], [rmax]
    and with [_llmin = llmin], on a dataset that is not finalized yet: the
    bins with data it leaves are exactly the bins with data [b] with
    [rmin <= radius(b) < rmax], the radius being the one at the center of
    the bin, and wavelength-ratio center [>= llmin].
    At the boundaries, in both: a radius equal to [rmax] fails the cut, a
    radius equal to [rmin] passes it, and a center equal to [llmin] passes
    it. *)
Theorem prune_keeps (rmin rmax llmin : R) (d : LyaData.t) :
  length (LyaData._r3d d)
  = BinnedData.getNBinsWithData (LyaData._binnedData d) ->
  (exists keep,
     LyaData.pruneKeep rmin rmax llmin d = Ok keep
     /\ (forall b, b ∈ keep <-> kept rmin rmax llmin d b)
     /\ (forall d', LyaData.prune rmin rmax llmin d = Ok d' ->
           forall b, b ∈ BinnedData.bd_index (LyaData._binnedData d')
                     <-> kept rmin rmax llmin d b)
     /\ ((forall c,
            BinnedData.bd_covariance (LyaData._binnedData d) = Some c ->
            exists m, CovarianceMatrix.readsCov c = Ok m) ->
         exists d', LyaData.prune rmin rmax llmin d = Ok d')
     /\ (forall b offset, LyaData._r3d d !! offset = Some rmax ->
           ~ keptAt rmin rmax llmin d b offset)
     /\ (forall b offset,
           BinnedData.bd_index (LyaData._binnedData d) !! offset = Some b ->
           LyaData._r3d d !! offset = Some rmin -> rmin < rmax ->
           llmin <= llCenter (LyaData._binnedData d) b ->
           keptAt rmin rmax llmin d b offset)
     /\ (forall b offset r,
           BinnedData.bd_index (LyaData._binnedData d) !! offset = Some b ->
           LyaData._r3d d !! offset = Some r -> rmin <= r < rmax ->
           llCenter (LyaData._binnedData d) b = llmin ->
           keptAt rmin rmax llmin d b offset))
  /\ (forall q q' : QuasarCorrelationData.t,
        QuasarCorrelationData.isFinalized q = false -> cacheCoherent q ->
        (forall b, b ∈ BinnedData.bd_index (QuasarCorrelationData.base q) ->
                   validIndex (QuasarCorrelationData.base q) b) ->
        QuasarCorrelationData._llmin q = llmin ->
        QuasarCorrelationData.finalize
          (cuts:=QuasarCorrelationData.radiusCuts rmin rmax) q = Ok q' ->
        let bd := QuasarCorrelationData.base q in
        let bd' := QuasarCorrelationData.base q' in
        (forall b, b ∈ BinnedData.bd_index bd' <->
           b ∈ BinnedData.bd_index bd
           /\ rmin <= binRadius bd b /\ binRadius bd b < rmax
           /\ llmin <= llCenter bd b)
        /\ (forall b, binRadius bd b = rmax -> b ∉ BinnedData.bd_index bd')
        /\ (forall b, b ∈ BinnedData.bd_index bd ->
              binRadius bd b = rmin -> rmin < rmax ->
              llmin <= llCenter bd b -> b ∈ BinnedData.bd_index bd')
        /\ (forall b, b ∈ BinnedData.bd_index bd ->
              rmin <= binRadius bd b < rmax ->
              llCenter bd b = llmin -> b ∈ BinnedData.bd_index bd')).
Proof.
  intros Hlen. split; [exact (prune_cached_radii rmin rmax llmin d Hlen)|].
  intros q q' Hfin Hcache Hbins <- Hrun bd bd'.
  pose proof (finalize_radiusCuts rmin rmax q q' Hfin Hcache Hbins Hrun)
    as Hiff.
  fold bd bd' in Hiff.
  split; [exact Hiff|]. split; [|split].
  - intros b Hr Hin. apply Hiff in Hin as (_ & _ & Hlt & _). lra.
  - intros b Hin Hr Hlt Hll. apply Hiff. repeat split; auto; lra.
  - intros b Hin Hr Hll. apply Hiff. repeat split; auto; lra.
Qed.

End PruningPolicy.

Lemma threeCuts_valid (b : Z) :
  b ∈ BinnedData.bd_index (QuasarCorrelationData.base threeCuts) ->
  validIndex (QuasarCorrelationData.base threeCuts) b.
Proof.
  intros Hb. unfold validIndex, BinnedData.getNBinsTotal. simpl in *.
  repeat (apply elem_of_cons in Hb as [->|Hb]; [lia|]). inversion Hb.
Qed.

Lemma prune_keeps_witness :
  (exists keep,
     @LyaData.pruneKeep 40 190 0.05 threeBins = Ok keep
     /\ 0%Z ∈ keep /\ 1%Z ∉ keep)
  /\ exists d',
       @QuasarCorrelationData.finalize arcminUniverse smallLapack zeroMemory
         (@QuasarCorrelationData.radiusCuts arcminUniverse 8 26) threeCuts
       = Ok d'
       /\ (2%Z ∈ BinnedData.bd_index (QuasarCorrelationData.base d'))
       /\ (1%Z ∉ BinnedData.bd_index (QuasarCorrelationData.base d'))
       /\ (3%Z ∉ BinnedData.bd_index (QuasarCorrelationData.base d')).
Proof.
  split.
  - destruct (prune_keeps (cosmology:=arcminUniverse) (L:=smallLapack)
                (M:=zeroMemory) 40 190 0.05 threeBins eq_refl)
      as [(keep & Hrun & Hiff & _ & _ & Hmax & Hmin & _) _].
    exists keep. split; [exact Hrun|]. split.
    + apply Hiff. exists 0%nat. apply Hmin; try reflexivity; try lra.
      unfold llCenter. simpl.
      change ((0 `div` 1) `div` 1)%Z with 0%Z. lra.
    + intros Hin. apply Hiff in Hin as (offset & Hk).
      assert (offset = 1%nat) as ->.
      { destruct Hk as (r & Hindex & _).
        destruct offset as [|[|[|offset]]]; simpl in Hindex;
          try discriminate; reflexivity. }
      apply (Hmax 1%Z 1%nat eq_refl Hk).
  - destruct threeCuts_finalize as (d' & Hrun & _).
    destruct (prune_keeps (cosmology:=arcminUniverse) (L:=smallLapack)
                (M:=zeroMemory) 8 26 0.15 threeBins eq_refl)
      as [_ Hq].
    destruct (Hq threeCuts d' eq_refl (or_introl eq_refl) threeCuts_valid
                eq_refl Hrun) as (Hiff & Hmax & Hmin & Hll).
    exists d'. split; [exact Hrun|]. split; [|split].
    + apply Hmin.
      * simpl. apply elem_of_cons. right. constructor.
      * unfold binRadius, binCoordinates. simpl.
        rewrite arcminUniverse_radius by (compute_IZR; lra).
        compute_IZR. lra.
      * lra.
      * unfold llCenter. simpl. compute_IZR. lra.
    + intros Hin. apply Hiff in Hin as (_ & _ & _ & Hcut).
      unfold llCenter in Hcut. simpl in Hcut. compute_IZR_in Hcut. lra.
    + apply Hmax. unfold binRadius, binCoordinates. simpl.
      rewrite arcminUniverse_radius by (compute_IZR; lra).
      compute_IZR. lra.
Defined.

Section QuasarCuts.
Import QuasarCorrelationData.
Context {cosmology : AbsHomogeneousUniverse} {L : Lapack} {M : RawMemory}
  {cuts : FinalCuts}.

(** X4. The bins that [QuasarCorrelationData::finalize] leaves are the bins
    with data that [_applyFinalCuts] keeps and whose wavelength-ratio
    center is at least [_llmin]; a bin whose center equals [_llmin]
    stays. The final cuts are asked once the covariance is fixed, on a
    dataset with the same bins. *)
Theorem finalize_cuts (d d' : t) :
  finalize d = Ok d' ->
  exists d1 keep,
    _applyFinalCuts d1 = Ok keep
    /\ BinnedData.bd_index (base d1) = BinnedData.bd_index (base d)
    /\ forall b, b ∈ BinnedData.bd_index (base d') <->
         b ∈ BinnedData.bd_index (base d) /\ b ∈ keep
         /\ _llmin d <= llCenter (base d) b.
Proof. apply finalize_keeps. Qed.

End QuasarCuts.

Lemma finalize_cuts_witness :
  exists d',
    @QuasarCorrelationData.finalize unitUniverse smallLapack zeroMemory keepAll
      threeLLFix = Ok d'
    /\ (0%Z ∉ BinnedData.bd_index (QuasarCorrelationData.base d'))
    /\ (3%Z ∈ BinnedData.bd_index (QuasarCorrelationData.base d')).
Proof.
  destruct threeLLFix_finalize as (d' & Hrun & Hleft).
  destruct (finalize_cuts (cosmology:=unitUniverse) (L:=smallLapack)
              (M:=zeroMemory) (cuts:=keepAll) threeLLFix d' Hrun)
    as (d1 & keep & _ & _ & Hiff).
  exists d'. split; [exact Hrun|]. split.
  - intros Hin. apply Hiff in Hin as (_ & _ & Hll).
    unfold llCenter in Hll. simpl in Hll. compute_IZR_in Hll. lra.
  - rewrite Hleft. constructor.
Defined.

Section Reuse.
Import LyaData Lifecycle.
Context {cosmology : AbsHomogeneousUniverse} {L : Lapack} {Sum : BinnedDataSum}.

(** X16. A combined dataset can be used again after [reset], whatever
    state it was in: [reset] leaves it empty, and the next [add] of a
    plate with [n > 0] bins returns and leaves it accumulating on [n]
    bins. *)
Theorem reset_then_add (n : nat) (d p : t) (repeat : Z) :
  Plate n p -> (0 < n)%nat ->
  Empty (reset d)
  /\ exists d', add p repeat (reset d) = Ok d' /\ Accumulating n d'.
Proof.
  intros Hplate Hn. split; [apply reset_Empty|].
  apply add_first_Accumulating; [apply reset_Empty|exact Hplate|exact Hn].
Qed.

End Reuse.

Lemma reset_then_add_witness :
  exists d',
    @LyaData.add smallLapack keepLeft plate1 2 (LyaData.reset combined1)
    = Ok d'
    /\ @Lifecycle.Accumulating smallLapack 1 d'.
Proof.
  destruct (reset_then_add (L:=smallLapack) (Sum:=keepLeft) 1 combined1 plate1
              2 plate1_Plate ltac:(lia)) as [_ H].
  exact H.
Defined.

(** ** The covariance file of the loaders of [src/baofit.cc] *)

Section MainErrors.
Import LyaData LyaDataLoad.
Context {cosmology : AbsHomogeneousUniverse} {L : Lapack} {Sum : BinnedDataSum}
  {P : LinePatterns}.

Lemma main_covLine_counts (fast icov : bool) (line : string) (lines : Z)
    (bd : BinnedData.t) (lines' : Z) (bd' : BinnedData.t) :
  main.covLine fast icov line (lines, bd) = Ok (lines', bd') ->
  lines' = (lines + 1)%Z.
Proof.
  unfold main.covLine.
  destruct (matchCov fast line) as [[[offset1 offset2] value]|]; [|discriminate].
  intros H. apply bind_Ok in H as (x & _ & H). now inversion H.
Qed.

Lemma loadCovLine_counts (fast icov : bool) (line : string) (lines : Z)
    (d : t) (lines' : Z) (d' : t) :
  loadCovLine fast icov line (lines, d) = Ok (lines', d') ->
  lines' = (lines + 1)%Z.
Proof.
  unfold loadCovLine.
  destruct (matchCov fast line) as [[[index1 index2] value]|]; [|discriminate].
  intros H. apply bind_Ok in H as (x & _ & H). now inversion H.
Qed.

(** X26. A line of the covariance file that does not match the pattern is
    reported by both loaders of [src/baofit.cc], [loadCosmolib] and
    [LyaData::load], with its number, counted from one, and with the text
    of the line, once the parameter file and the lines before it have been
    stored. *)
Theorem badly_formatted_cov_line (fs : files) (dataName : string)
    (verbose icov fast : bool) (paramsIn good rest : list string)
    (bad : string) :
  fs !! (dataName +:+ ".params") = Some paramsIn ->
  fs !! (dataName +:+ (if icov then ".icov" else ".cov"))
  = Some (good ++ bad :: rest) ->
  matchCov fast bad = None ->
  let report :=
    RuntimeError ("Badly formatted cov line " +:+
                  lexical_cast (Z.of_nat (length good) + 1) +:+ ": '" +:+
                  bad +:+ "'") in
  (forall llBins sepBins zBins state1 state2,
     for_each paramsIn (main.paramsLine fast)
       (0%Z, BinnedData.new llBins sepBins zBins) = Ok state1 ->
     for_each good (main.covLine fast icov) (0%Z, state1.2) = Ok state2 ->
     main.loadCosmolib fs dataName llBins sepBins zBins verbose icov fast
     = Err report)
  /\ (forall d state1 state2,
        for_each paramsIn (loadParamsLine fast) (0%Z, d) = Ok state1 ->
        for_each good (loadCovLine fast icov) (0%Z, finalizeData state1.2)
        = Ok state2 ->
        load fs dataName verbose icov fast d = Err report).
Proof.
  intros Hparams Hcov Hbad report. split.
  - intros llBins sepBins zBins [k1 bd1] [k2 bd2] Hloop1 Hgood.
    unfold main.loadCosmolib, openFile. rewrite Hparams. simpl.
    rewrite Hloop1. simpl. rewrite Hcov. simpl.
    rewrite (for_each_app good (bad :: rest)). simpl in Hgood. rewrite Hgood.
    apply (for_each_counts _ _ (main_covLine_counts fast icov)) in Hgood as ->.
    simpl. rewrite Hbad. rewrite Z.add_0_l. reflexivity.
  - intros d [k1 d1] [k2 d2] Hloop1 Hgood.
    unfold load, openFile. rewrite Hparams. simpl.
    rewrite Hloop1. simpl. rewrite Hcov. simpl.
    rewrite (for_each_app good (bad :: rest)). simpl in Hgood. rewrite Hgood.
    apply (for_each_counts _ _ (loadCovLine_counts fast icov)) in Hgood as ->.
    simpl. rewrite Hbad. rewrite Z.add_0_l. reflexivity.
Qed.

End MainErrors.

Lemma badly_formatted_cov_line_witness :
  @main.loadCosmolib smallLapack onePlatePatterns badCovFiles "one"
    oneBin twoSep oneBin false true false
  = Err (RuntimeError "Badly formatted cov line 1: 'oops'").
Proof.
  destruct (badly_formatted_cov_line (cosmology:=unitUniverse)
              (L:=smallLapack) (P:=onePlatePatterns)
              badCovFiles "one" false true false ["2 0 0 5 0"%string] [] []
              "oops" eq_refl eq_refl eq_refl) as [Hmain _].
  eapply Hmain; reflexivity.
Defined.
